(** * EM2-audio: experiment-design and signal-detection analysis

    A shallow embedding of the trial-list generators
    ([experiment/.../forced_choice.py], [d-prime_detection.py],
    [main_typing_experiment.py], [mainV1.py], [gemini_code_v1.py]) and of the
    d-prime analysis scripts ([analyse.py], [dprime_complete.py]).

    Conventions of the embedding.
    - Python floats are modelled by the rationals they denote; the tests
      [x == 1], [p < 0.001] are the decidable tests of [Q].  The analysis
      scripts are embedded in exact arithmetic, for the properties that do
      not depend on rounding; where rounding decides (the edge correction of
      [dprime] at huge trial counts) the function is embedded again with the
      rounding of binary64, in [Rounded].
    - Python exceptions and [core.quit()] are results of type [res].
    - The global generator of the [random] module is an oracle: an infinite
      sequence of raw draws together with a cursor.  Each index drawn by
      [random.choice], [random.choices] or [random.shuffle] consumes one raw
      draw, reduced modulo the size of the range.
    - [while] loops take a fuel argument; running out of it is the result
      [OutOfFuel]. *)

From Stdlib Require Import ZArith QArith Qround Qpower List String Ascii Bool.
From Stdlib Require Import Arith Lia Lqa Permutation Sorted.
Import ListNotations.

Open Scope string_scope.
Open Scope Q_scope.

(** ** Python runtime model *)

Module Py.

Inductive exn : Type :=
| ZeroDivisionError
| ValueError
| IndexError
| KeyError
| FileNotFoundError
| RuntimeError
| SystemExit.

Inductive res (A : Type) : Type :=
| Ok (a : A)
| Raise (e : exn)
| OutOfFuel.

Arguments Ok {A} a.
Arguments Raise {A} e.
Arguments OutOfFuel {A}.

Definition rbind {A B : Type} (m : res A) (k : A -> res B) : res B :=
match m with
| Ok a => k a
| Raise e => Raise e
| OutOfFuel => OutOfFuel
end.

(** [a / b] on numbers: true division, [ZeroDivisionError] on a zero divisor. *)
Definition truediv (a b : Q) : res Q :=
if Qeq_bool b 0 then Raise ZeroDivisionError else Ok (a / b).

Definition Qlt_bool (a b : Q) : bool := negb (Qle_bool b a).

Definition len {A : Type} (l : list A) : Z := Z.of_nat (List.length l).

(** IEEE values a float-returning library routine can produce. *)
Inductive xfloat : Type :=
| XFin (q : Q)
| XPosInf
| XNegInf
| XNaN.

Definition is_finite (x : xfloat) : bool :=
match x with XFin _ => true | _ => false end.

(** [x - y] on IEEE values. *)
Definition xsub (x y : xfloat) : xfloat :=
match x, y with
| XNaN, _ | _, XNaN => XNaN
| XFin a, XFin b => XFin (a - b)
| XFin _, XPosInf => XNegInf
| XFin _, XNegInf => XPosInf
| XPosInf, XPosInf => XNaN
| XPosInf, _ => XPosInf
| XNegInf, XNegInf => XNaN
| XNegInf, _ => XNegInf
end.

(** *** The random oracle *)

Record rng : Type := mkRng { draws : nat -> nat; cursor : nat }.

Definition M (A : Type) : Type := rng -> res (A * rng).

Definition ret {A : Type} (a : A) : M A := fun s => Ok (a, s).

Definition bind {A B : Type} (m : M A) (k : A -> M B) : M B :=
fun s =>
  match m s with
  | Ok (a, s') => k a s'
  | Raise e => Raise e
  | OutOfFuel => OutOfFuel
  end.

Definition raise {A : Type} (e : exn) : M A := fun _ => Raise e.

Definition out_of_fuel {A : Type} : M A := fun _ => OutOfFuel.

(** [core.quit()] of PsychoPy ends the process. *)
Definition core_quit {A : Type} : M A := raise SystemExit.

(** One uniform index below [n] (callers never pass [n = 0]). *)
Definition randbelow (n : nat) : M nat :=
fun s => Ok (Nat.modulo (draws s (cursor s)) n, mkRng (draws s) (S (cursor s))).

End Py.

Import Py.

Declare Scope py_scope.
Delimit Scope py_scope with py.
Notation "x <- m ;; k" := (bind m (fun x => k))
  (at level 61, m at next level, right associativity) : py_scope.
Notation "' pat <- m ;; k" := (bind m (fun x => match x with pat => k end))
  (at level 61, pat pattern, m at next level, right associativity) : py_scope.
Notation "x <~ m ;; k" := (rbind m (fun x => k))
  (at level 61, m at next level, right associativity) : py_scope.
Notation "' pat <~ m ;; k" := (rbind m (fun x => match x with pat => k end))
  (at level 61, pat pattern, m at next level, right associativity) : py_scope.
Open Scope py_scope.

(** ** External numerical routines (SciPy)

    [norm.ppf] and [chi2_contingency] are library code.  Their finite values
    are parameters of the development; what is fixed here is the documented
    contract of [norm.ppf] at and outside the ends of the unit interval. *)

Module Scipy.

(** A 2x2 table of observed frequencies, row by row. *)
Record table : Type := mkTable { o11 : Q; o12 : Q; o21 : Q; o22 : Q }.

(** The first two components of the tuple [chi2_contingency] returns. *)
Record chi2_result : Type := mkChi2 { statistic : Q; pvalue : Q }.

Section Ppf.
Variable ndtri : Q -> Q.

(** [norm.ppf q]: NaN outside the unit interval, minus and plus infinity at 0
    and 1, the finite quantile [ndtri q] strictly inside. *)
Definition norm_ppf (q : Q) : xfloat :=
if Qlt_bool q 0 || Qlt_bool 1 q then XNaN
else if Qeq_bool q 0 then XNegInf
else if Qeq_bool q 1 then XPosInf
else XFin (ndtri q).

End Ppf.

End Scipy.

Import Scipy.

(** ** Input rows of the analysis

    One row of the per-trial CSV written by the detection experiment.  The
    analysis reads [compression_level] and [trial_outcome]; [signal_type] is
    the column the experiment writes next to them.  A row has a level: rows
    whose level is missing (NaN in the frame) are outside the model. *)

Record row : Type := mkRow {
  compression_level : Q;
  signal_type : string;
  trial_outcome : string
}.

(** [df[col].unique()]: distinct values in order of first appearance. *)
Fixpoint unique_from (seen : list Q) (l : list Q) : list Q :=
match l with
| [] => []
| x :: l' =>
    if existsb (Qeq_bool x) seen then unique_from seen l'
    else x :: unique_from (x :: seen) l'
end.

Definition unique (l : list Q) : list Q := unique_from [] l.

(** [df[df["compression_level"] == rate]] *)
Definition select_level (df : list row) (rate : Q) : list row :=
filter (fun r => Qeq_bool (compression_level r) rate) df.

(** [df_rate[df_rate["trial_outcome"] == o]] *)
Definition select_outcome (df_rate : list row) (o : string) : list row :=
filter (fun r => String.eqb (trial_outcome r) o) df_rate.

(** One row of the report.  The f-string formatting of the numbers is not
    modelled: [d_prime] is the pair of the raw value and the marker that the
    script concatenates, and the rate, chi2 and p fields hold the numbers
    that analyse.py writes to three and two decimals. *)
Record result_row : Type := mkResult {
  compression_rate : Q;
  d_prime_raw : xfloat;
  d_prime_marker : string;
  hit_rate_col : Q;
  fa_rate_col : Q;
  chi2_col : Q;
  p_col : Q;
  n_trials_col : Z
}.

Fixpoint insert_row (r : result_row) (l : list result_row) : list result_row :=
match l with
| [] => [r]
| x :: l' =>
    if Qle_bool (compression_rate r) (compression_rate x) then r :: x :: l'
    else x :: insert_row r l'
end.

(** [results.sort_values("compression_rate")] *)
Definition sort_values (l : list result_row) : list result_row :=
fold_right insert_row [] l.

Fixpoint mapR {A B : Type} (f : A -> res B) (l : list A) : res (list B) :=
match l with
| [] => Ok []
| x :: l' => y <~ f x ;; ys <~ mapR f l' ;; Ok (y :: ys)
end.

(** ** analyse.py *)

Module Analyse.

Section WithScipy.
Variable ndtri : Q -> Q.
Variable chi2_contingency : table -> bool -> res chi2_result.

(** The values of [hit_rate] and [fa_rate] when [dprime] reaches its
    [return] statement. *)
Definition dprime_rates (hit_rate fa_rate : Q) (n_trials : Z) : res (Q * Q) :=
hit_rate <~ (if Qeq_bool hit_rate 1
             then q <~ truediv 1 (inject_Z (2 * n_trials)) ;; Ok (1 - q)
             else Ok hit_rate) ;;
hit_rate <~ (if Qeq_bool hit_rate 0
             then truediv 1 (inject_Z (2 * n_trials))
             else Ok hit_rate) ;;
fa_rate <~ (if Qeq_bool fa_rate 1
            then q <~ truediv 1 (inject_Z (2 * n_trials)) ;; Ok (1 - q)
            else Ok fa_rate) ;;
fa_rate <~ (if Qeq_bool fa_rate 0
            then truediv 1 (inject_Z (2 * n_trials))
            else Ok fa_rate) ;;
Ok (hit_rate, fa_rate).

(** [dprime(hit_rate, fa_rate, n_trials)]; the default of [n_trials] is
    not used by the script. *)
Definition dprime (hit_rate fa_rate : Q) (n_trials : Z) : res xfloat :=
'(hit_rate, fa_rate) <~ dprime_rates hit_rate fa_rate n_trials ;;
Ok (xsub (norm_ppf ndtri hit_rate) (norm_ppf ndtri fa_rate)).

(** The array [obs] built by [chi_square_from_rates]. *)
Definition obs (hit_rate fa_rate : Q) (n_trials : Z) : table :=
let n_signal := inject_Z n_trials / 2 in
let n_noise := n_signal in
mkTable (hit_rate * n_signal) ((1 - hit_rate) * n_signal)
        (fa_rate * n_noise) ((1 - fa_rate) * n_noise).

(** [chi2_contingency(obs)] is called with its defaults, [correction=True]
    among them. *)
Definition chi_square_from_rates (hit_rate fa_rate : Q) (n_trials : Z)
  : res (Q * Q) :=
r <~ chi2_contingency (obs hit_rate fa_rate n_trials) true ;;
Ok (statistic r, pvalue r).

Definition signif_marker (p : Q) : string :=
if Qlt_bool p (1 # 1000) then "***"
else if Qlt_bool p (1 # 100) then "**"
else if Qlt_bool p (5 # 100) then "*"
else EmptyString.

(** Lines 62-63: the two rates of one stratum. *)
Definition hit_rate_of (df_rate : list row) : res Q :=
truediv (inject_Z (len (select_outcome df_rate "Hit"))) (inject_Z (len df_rate)).

Definition false_alarm_rate_of (df_rate : list row) : res Q :=
truediv (inject_Z (len (select_outcome df_rate "False Alarm")))
        (inject_Z (len df_rate)).

(** The body of the loop of [compute_rate_results]. *)
Definition rate_row (df : list row) (rate : Q) : res result_row :=
let df_rate := select_level df rate in
hit_rate <~ hit_rate_of df_rate ;;
false_alarm_rate <~ false_alarm_rate_of df_rate ;;
d_prime <~ dprime hit_rate false_alarm_rate (len df_rate) ;;
'(chi2, p) <~ chi_square_from_rates hit_rate false_alarm_rate (len df_rate) ;;
Ok (mkResult rate d_prime (signif_marker p) hit_rate false_alarm_rate
             chi2 p (len df_rate)).

(** With no input rows the frame [results] stays empty and the lookup of
    its column [compression_rate] raises [KeyError]. *)
Definition compute_rate_results (df : list row) : res (list result_row) :=
let list_of_compression_rates := unique (map compression_level df) in
results <~ mapR (rate_row df) list_of_compression_rates ;;
match results with
| [] => Raise KeyError
| _ => Ok (sort_values results)
end.

End WithScipy.

End Analyse.

(** ** dprime_complete.py *)

Module DprimeComplete.

Section WithScipy.
Variable ndtri : Q -> Q.
Variable chi2_contingency : table -> bool -> res chi2_result.

Definition dprime_rates (hit_rate fa_rate : Q) (n_trials : Z) : res (Q * Q) :=
hit_rate <~ (if Qeq_bool hit_rate 1
             then q <~ truediv 1 (inject_Z (2 * n_trials)) ;; Ok (1 - q)
             else Ok hit_rate) ;;
hit_rate <~ (if Qeq_bool hit_rate 0
             then truediv 1 (inject_Z (2 * n_trials))
             else Ok hit_rate) ;;
fa_rate <~ (if Qeq_bool fa_rate 1
            then q <~ truediv 1 (inject_Z (2 * n_trials)) ;; Ok (1 - q)
            else Ok fa_rate) ;;
fa_rate <~ (if Qeq_bool fa_rate 0
            then truediv 1 (inject_Z (2 * n_trials))
            else Ok fa_rate) ;;
Ok (hit_rate, fa_rate).

Definition dprime (hit_rate fa_rate : Q) (n_trials : Z) : res xfloat :=
'(hit_rate, fa_rate) <~ dprime_rates hit_rate fa_rate n_trials ;;
Ok (xsub (norm_ppf ndtri hit_rate) (norm_ppf ndtri fa_rate)).

Definition obs (hit_rate fa_rate : Q) (n_trials : Z) : table :=
let n_signal := inject_Z n_trials / 2 in
let n_noise := n_signal in
mkTable (hit_rate * n_signal) ((1 - hit_rate) * n_signal)
        (fa_rate * n_noise) ((1 - fa_rate) * n_noise).

Definition chi_square_from_rates (hit_rate fa_rate : Q) (n_trials : Z)
  : res (Q * Q) :=
r <~ chi2_contingency (obs hit_rate fa_rate n_trials) true ;;
Ok (statistic r, pvalue r).

(** The two-tier marker of this script. *)
Definition signif_marker (p : Q) : string :=
if Qlt_bool p (1 # 1000) then "**"
else if Qlt_bool p (5 # 100) then "*"
else EmptyString.

Definition hit_rate_of (df_rate : list row) : res Q :=
truediv (inject_Z (len (select_outcome df_rate "Hit"))) (inject_Z (len df_rate)).

Definition false_alarm_rate_of (df_rate : list row) : res Q :=
truediv (inject_Z (len (select_outcome df_rate "False Alarm")))
        (inject_Z (len df_rate)).

(** This script's report has no raw d-prime, rate or count columns; the
    record fields are filled with the local variables all the same. *)
Definition rate_row (df : list row) (rate : Q) : res result_row :=
let df_rate := select_level df rate in
hit_rate <~ hit_rate_of df_rate ;;
false_alarm_rate <~ false_alarm_rate_of df_rate ;;
d_prime <~ dprime hit_rate false_alarm_rate (len df_rate) ;;
'(chi2, p) <~ chi_square_from_rates hit_rate false_alarm_rate (len df_rate) ;;
Ok (mkResult rate d_prime (signif_marker p) hit_rate false_alarm_rate
             chi2 p (len df_rate)).

Definition compute_rate_results (df : list row) : res (list result_row) :=
let list_of_compression_rates := unique (map compression_level df) in
results <~ mapR (rate_row df) list_of_compression_rates ;;
match results with
| [] => Raise KeyError
| _ => Ok (sort_values results)
end.

End WithScipy.

End DprimeComplete.

(** ** File names, directories and the [random] module *)

Module Os.

(** [os.listdir]: the entries of a directory, or nothing when the path does
    not exist.  The other failures of the operating system (a path that is
    no directory, a directory that may not be read) are outside the model. *)
Definition filesystem : Type := string -> option (list string).

(** Directory entries are pairwise distinct names. *)
Definition fs_distinct (fs : filesystem) : Prop :=
forall d l, fs d = Some l -> NoDup l.

Definition startswith (s : string) (c : ascii) : bool :=
match s with
| String a _ => Ascii.eqb a c
| EmptyString => false
end.

Fixpoint endswith_from (s suffix : string) (n : nat) : bool :=
match n with
| O => String.eqb s suffix
| S n' => match s with
          | String _ s' => endswith_from s' suffix n'
          | EmptyString => false
          end
end.

(** [s.endswith(suffix)] *)
Definition endswith (s suffix : string) : bool :=
Nat.leb (String.length suffix) (String.length s)
&& endswith_from s suffix (String.length s - String.length suffix).

(** [os.path.join(a, b)] on POSIX paths. *)
Definition path_join (a b : string) : string :=
if startswith b "/" then b
else if String.eqb a EmptyString || endswith a "/" then a ++ b
else a ++ "/" ++ b.

Fixpoint rfind_from (c : ascii) (s : string) (i last : Z) : Z :=
match s with
| EmptyString => last
| String a s' => rfind_from c s' (i + 1)%Z (if Ascii.eqb a c then i else last)
end.

(** [s.rfind(c)], [-1] when [c] does not occur. *)
Definition rfind (c : ascii) (s : string) : Z := rfind_from c s 0%Z (-1)%Z.

Fixpoint all_dots (s : string) : bool :=
match s with
| EmptyString => true
| String a s' => Ascii.eqb a "." && all_dots s'
end.

(** [os.path.splitext(p)[0]]: cut at the last dot of the last path
    component, unless that component has only dots before it. *)
Definition splitext_root (p : string) : string :=
let sepIndex := rfind "/" p in
let dotIndex := rfind "." p in
if (sepIndex <? dotIndex)%Z then
  let filenameIndex := Z.to_nat (sepIndex + 1) in
  if all_dots (substring filenameIndex (Z.to_nat dotIndex - filenameIndex) p)
  then p
  else substring 0 (Z.to_nat dotIndex) p
else p.

(** [s.split('_')[0]] *)
Fixpoint before_underscore (s : string) : string :=
match s with
| EmptyString => EmptyString
| String a s' =>
    if Ascii.eqb a "_" then EmptyString else String a (before_underscore s')
end.

Definition listdir (fs : filesystem) (directory : string) : M (list string) :=
match fs directory with
| Some l => ret l
| None => raise FileNotFoundError
end.

(** [try: body  except FileNotFoundError: handler] *)
Definition try_except_FileNotFoundError {A : Type} (body handler : M A) : M A :=
fun s =>
  match body s with
  | Raise FileNotFoundError => handler s
  | r => r
  end.

End Os.

Import Os.

Module Random.

(** [random.choice(seq)] *)
Definition choice {A : Type} (seq : list A) : M A :=
match seq with
| [] => raise IndexError
| x :: _ => i <- randbelow (List.length seq) ;; ret (nth i seq x)
end.

(** [random.choices(population, k=k)]: [k] independent draws. *)
Fixpoint choices {A : Type} (population : list A) (k : nat) : M (list A) :=
match k with
| O => ret []
| S k' => x <- choice population ;; xs <- choices population k' ;; ret (x :: xs)
end.

Fixpoint upd {A : Type} (l : list A) (i : nat) (v : A) : list A :=
match l, i with
| [], _ => []
| _ :: t, O => v :: t
| a :: t, S i' => a :: upd t i' v
end.

(** [x[i], x[j] = x[j], x[i]] *)
Definition swap {A : Type} (x : list A) (i j : nat) : list A :=
match nth_error x i, nth_error x j with
| Some a, Some b => upd (upd x i b) j a
| _, _ => x
end.

(** [for i in reversed(range(1, len(x))): j = randbelow(i + 1); swap] *)
Fixpoint shuffle_down {A : Type} (i : nat) (x : list A) : M (list A) :=
match i with
| O => ret x
| S i' => j <- randbelow (S i) ;; shuffle_down i' (swap x i j)
end.

(** [random.shuffle(x)]; the shuffled list is returned instead of being
    written in place. *)
Definition shuffle {A : Type} (x : list A) : M (list A) :=
shuffle_down (List.length x - 1) x.

End Random.

Import Random.

(** ** Loop combinators *)

(** [for x in xs: acc = body(acc, x)] *)
Fixpoint for_each {A S : Type} (xs : list A) (body : S -> A -> M S) (acc : S)
  : M S :=
match xs with
| [] => ret acc
| x :: xs' => acc' <- body acc x ;; for_each xs' body acc'
end.

(** [for x in xs: lst.append(...)], where [body x] yields the items one
    iteration appends. *)
Definition for_append {A T : Type} (xs : list A) (body : A -> M (list T))
  (lst : list T) : M (list T) :=
for_each xs (fun acc x => ts <- body x ;; ret (acc ++ ts)%list) lst.

(** [while var == fixed: var = redraw()] *)
Fixpoint while_equal (fuel : nat) (fixed var : string) (redraw : M string)
  : M string :=
if String.eqb var fixed then
  match fuel with
  | O => out_of_fuel
  | S fuel' => var' <- redraw ;; while_equal fuel' fixed var' redraw
  end
else ret var.

Definition is_empty {A : Type} (l : list A) : bool :=
match l with [] => true | _ => false end.

(** [l[a:b]] *)
Definition slice {A : Type} (l : list A) (a b : nat) : list A :=
skipn a (firstn b l).

(** ** control_experiment/d-prime_detection.py *)

Module DPrimeDetection.

Definition COMPRESSION_LEVELS : list string :=
["0.1"; "0.2"; "0.3"; "0.4"; "0.5"; "0.6"; "0.7"].
Definition N_PRACTICE_REPS_PER_LEVEL : nat := 1.
Definition N_MAIN_REPS_PER_LEVEL : nat := 7.

Record trial : Type := mkTrial {
  signal_type : string;
  compression_level : string;
  prime_file : string;
  correct_word : string;
  babbling_file : string;
  mask1_file : string;
  mask2_file : string
}.

Definition get_files_from_dir (fs : filesystem) (directory : string)
  : M (list string) :=
l <- listdir fs directory ;; ret (filter (fun f => negb (startswith f ".")) l).

Definition get_word_from_filename (filename : string) : string :=
let filename_without_ext := splitext_root filename in
before_underscore filename_without_ext.

(** The dictionary of a signal-present trial; its values are evaluated in
    the order they are written. *)
Definition present_trial (level f : string) (babbling_list mask_list : list string)
  : M trial :=
b <- choice babbling_list ;;
m1 <- choice mask_list ;;
m2 <- choice mask_list ;;
ret (mkTrial "present" level f (get_word_from_filename f) b m1 m2).

(** The dictionary of a signal-absent trial. *)
Definition absent_trial (level : string) (babbling_list mask_list : list string)
  : M trial :=
b <- choice babbling_list ;;
m1 <- choice mask_list ;;
m2 <- choice mask_list ;;
ret (mkTrial "absent" level "SILENCE" "NA" b m1 m2).

(** One iteration of [for f in practice_files] or [for f in main_files]. *)
Definition trial_pair (level : string) (babbling_list mask_list : list string)
  (f : string) : M (list trial) :=
p <- present_trial level f babbling_list mask_list ;;
a <- absent_trial level babbling_list mask_list ;;
ret [p; a].

(** One iteration of [for level in COMPRESSION_LEVELS]. *)
Definition level_body (fs : filesystem) (audio_dir : string)
  (babbling_list mask_list : list string) (files_needed_per_folder : nat)
  (lists : list trial * list trial) (level : string)
  : M (list trial * list trial) :=
let '(practice_list, main_list) := lists in
let folder_path := path_join audio_dir level in
files_in_folder <- try_except_FileNotFoundError
                     (get_files_from_dir fs folder_path) core_quit ;;
_ <- (if Nat.ltb (List.length files_in_folder) files_needed_per_folder
      then core_quit else ret tt) ;;
files_in_folder <- shuffle files_in_folder ;;
let practice_files := slice files_in_folder 0 N_PRACTICE_REPS_PER_LEVEL in
let main_files :=
  slice files_in_folder N_PRACTICE_REPS_PER_LEVEL files_needed_per_folder in
practice_list <- for_append practice_files
                   (trial_pair level babbling_list mask_list) practice_list ;;
main_list <- for_append main_files
               (trial_pair level babbling_list mask_list) main_list ;;
ret (practice_list, main_list).

Definition generate_trial_lists (fs : filesystem) (base_dir : string)
  : M (list trial * list trial) :=
let audio_dir := path_join base_dir "audio" in
let babbling_dir := path_join base_dir "babbling" in
let masks_dir := path_join base_dir "masks" in
'(babbling_list, mask_list) <-
  try_except_FileNotFoundError
    (b <- get_files_from_dir fs babbling_dir ;;
     m <- get_files_from_dir fs masks_dir ;;
     ret (b, m))
    core_quit ;;
_ <- (if is_empty babbling_list || is_empty mask_list
      then core_quit else ret tt) ;;
let files_needed_per_folder :=
  (N_PRACTICE_REPS_PER_LEVEL + N_MAIN_REPS_PER_LEVEL)%nat in
'(practice_list, main_list) <-
  for_each COMPRESSION_LEVELS
    (level_body fs audio_dir babbling_list mask_list files_needed_per_folder)
    ([], []) ;;
practice_list <- shuffle practice_list ;;
main_list <- shuffle main_list ;;
ret (practice_list, main_list).

End DPrimeDetection.

(** ** control_experiment/main_typing_experiment.py *)

Module MainTyping.

Definition COMPRESSION_LEVELS : list string :=
["0.1"; "0.2"; "0.3"; "0.4"; "0.5"; "0.6"; "0.7"; "0.8"].
Definition N_PRACTICE_WORDS_PER_FOLDER : nat := 1.
Definition N_MAIN_WORDS_PER_FOLDER : nat := 1.

Record trial : Type := mkTrial {
  compression_level : string;
  prime_file : string;
  correct_word : string;
  babbling_file : string;
  mask1_file : string;
  mask2_file : string
}.

Definition get_files_from_dir (fs : filesystem) (directory : string)
  : M (list string) :=
l <- listdir fs directory ;; ret (filter (fun f => negb (startswith f ".")) l).

Definition get_word_from_filename (filename : string) : string :=
before_underscore (splitext_root filename).

(** One iteration of [for f in practice_files] or [for f in main_files]. *)
Definition word_trial (level : string) (babbling_list mask_list : list string)
  (f : string) : M (list trial) :=
b <- choice babbling_list ;;
m1 <- choice mask_list ;;
m2 <- choice mask_list ;;
ret [mkTrial level f (get_word_from_filename f) b m1 m2].

(** One iteration of [for level in COMPRESSION_LEVELS]. *)
Definition level_body (fs : filesystem) (audio_dir : string)
  (babbling_list mask_list : list string) (words_needed_per_folder : nat)
  (lists : list trial * list trial) (level : string)
  : M (list trial * list trial) :=
let '(practice_list, main_list) := lists in
let folder_path := path_join audio_dir level in
files_in_folder <- try_except_FileNotFoundError
                     (get_files_from_dir fs folder_path) core_quit ;;
_ <- (if Nat.ltb (List.length files_in_folder) words_needed_per_folder
      then core_quit else ret tt) ;;
files_in_folder <- shuffle files_in_folder ;;
let practice_files := slice files_in_folder 0 N_PRACTICE_WORDS_PER_FOLDER in
let main_files :=
  slice files_in_folder N_PRACTICE_WORDS_PER_FOLDER words_needed_per_folder in
practice_list <- for_append practice_files
                   (word_trial level babbling_list mask_list) practice_list ;;
main_list <- for_append main_files
               (word_trial level babbling_list mask_list) main_list ;;
ret (practice_list, main_list).

Definition generate_trial_lists (fs : filesystem) (base_dir : string)
  : M (list trial * list trial) :=
let audio_dir := path_join base_dir "audio" in
let babbling_dir := path_join base_dir "babbling" in
let masks_dir := path_join base_dir "masks" in
'(babbling_list, mask_list) <-
  try_except_FileNotFoundError
    (b <- get_files_from_dir fs babbling_dir ;;
     m <- get_files_from_dir fs masks_dir ;;
     ret (b, m))
    core_quit ;;
_ <- (if is_empty babbling_list || is_empty mask_list
      then core_quit else ret tt) ;;
let words_needed_per_folder :=
  (N_PRACTICE_WORDS_PER_FOLDER + N_MAIN_WORDS_PER_FOLDER)%nat in
'(practice_list, main_list) <-
  for_each COMPRESSION_LEVELS
    (level_body fs audio_dir babbling_list mask_list words_needed_per_folder)
    ([], []) ;;
practice_list <- shuffle practice_list ;;
main_list <- shuffle main_list ;;
ret (practice_list, main_list).

End MainTyping.

(** ** experiment/forced_choice.py *)

Module ForcedChoice.

Definition N_PRACTICE_TRIALS : nat := 2.
Definition N_MAIN_TRIALS : nat := 8.
Definition N_TOTAL_TRIALS : nat := N_PRACTICE_TRIALS + N_MAIN_TRIALS.
Definition N_POS_PRIMES : nat := 4.
Definition N_NEG_PRIMES : nat := 3.
Definition N_NEU_PRIMES : nat := 3.

(** An entry of [prime_list]. *)
Record prime : Type := mkPrime {
  file : string;
  valence : string;
  word : string
}.

Record trial : Type := mkTrial {
  trial_i : nat;
  prime_file : string;
  prime_valence : string;
  correct_word : string;
  distractor_word : string;
  babbling_file : string;
  mask1_file : string;
  mask2_file : string
}.

Definition get_files_from_dir (fs : filesystem) (directory : string)
  : M (list string) :=
l <- listdir fs directory ;; ret (filter (fun f => negb (startswith f ".")) l).

Definition get_word_from_filename (filename : string) : string :=
let full_word := splitext_root filename in
before_underscore full_word.

(** [list(set(l))]; the order Python gives the elements is not specified,
    here it is the order of last occurrence. *)
Definition list_set (l : list string) : list string := nodup string_dec l.

(** One iteration of [for i in range(N_TOTAL_TRIALS)]. *)
Definition trial_body (fuel : nat) (prime_list : list prime)
  (all_prime_words babbling_list mask_list : list string) (i : nat)
  : M (list trial) :=
mask1 <- choice mask_list ;;
mask2 <- choice mask_list ;;
mask2 <- while_equal fuel mask1 mask2 (choice mask_list) ;;
match nth_error prime_list i with
| None => raise IndexError
| Some entry =>
    let correct_word := word entry in
    distractor_word <- choice all_prime_words ;;
    distractor_word <- while_equal fuel correct_word distractor_word
                         (choice all_prime_words) ;;
    babbling <- choice babbling_list ;;
    ret [mkTrial (i + 1) (file entry) (valence entry) correct_word
                 distractor_word babbling mask1 mask2]
end.

Definition generate_trial_list (fuel : nat) (fs : filesystem) (base_dir : string)
  : M (list trial) :=
let primes_dir := path_join base_dir "primes" in
let babbling_dir := path_join base_dir "babbling" in
let masks_dir := path_join base_dir "masks" in
'(prime_pos_files, prime_neg_files, prime_neu_files, babbling_list, mask_list) <-
  try_except_FileNotFoundError
    (pos <- get_files_from_dir fs (path_join primes_dir "positive") ;;
     neg <- get_files_from_dir fs (path_join primes_dir "negative") ;;
     neu <- get_files_from_dir fs (path_join primes_dir "neutrale") ;;
     b <- get_files_from_dir fs babbling_dir ;;
     m <- get_files_from_dir fs masks_dir ;;
     ret (pos, neg, neu, b, m))
    core_quit ;;
_ <- (if is_empty prime_pos_files || is_empty prime_neg_files
         || is_empty prime_neu_files || is_empty babbling_list
         || is_empty mask_list
      then core_quit else ret tt) ;;
let all_prime_files := (prime_pos_files ++ prime_neg_files ++ prime_neu_files)%list in
let all_prime_words := list_set (map get_word_from_filename all_prime_files) in
_ <- (if Nat.ltb (List.length all_prime_words) 2 then core_quit else ret tt) ;;
pos_choices <- choices prime_pos_files N_POS_PRIMES ;;
let prime_list :=
  map (fun f => mkPrime f "positive" (get_word_from_filename f)) pos_choices in
neg_choices <- choices prime_neg_files N_NEG_PRIMES ;;
let prime_list :=
  (prime_list ++
   map (fun f => mkPrime f "negative" (get_word_from_filename f)) neg_choices)%list in
neu_choices <- choices prime_neu_files N_NEU_PRIMES ;;
let prime_list :=
  (prime_list ++
   map (fun f => mkPrime f "neutral" (get_word_from_filename f)) neu_choices)%list in
prime_list <- shuffle prime_list ;;
generated_trials <-
  for_append (seq 0 N_TOTAL_TRIALS)
    (trial_body fuel prime_list all_prime_words babbling_list mask_list) [] ;;
generated_trials <- shuffle generated_trials ;;
ret generated_trials.

(** [main]: the two phases are slices of the generated list. *)
Definition practice_list (full_trial_list : list trial) : list trial :=
slice full_trial_list 0 N_PRACTICE_TRIALS.

Definition main_list (full_trial_list : list trial) : list trial :=
slice full_trial_list N_PRACTICE_TRIALS N_TOTAL_TRIALS.

End ForcedChoice.

(** ** experiment/gemini_code_v1.py

    Of [SubliminalExperiment] the mask handling is embedded: the check of
    [load_stimuli] and the two draws of [run_trial]; the steps between them
    play sounds and draw to the window. *)

Module Gemini.

(** [self.mask_files] as [load_stimuli] sets it. *)
Definition load_mask_files (fs : filesystem) (mask_dir : string)
  : M (list string) :=
l <- listdir fs mask_dir ;;
let mask_files := filter (fun f => endswith f ".mp3") l in
if Nat.ltb (List.length mask_files) 2 then raise RuntimeError
else ret mask_files.

(** Steps 2 and 4 of [run_trial]: [(mask1_file, mask2_file)]. *)
Definition run_trial_masks (mask_files : list string) : M (string * string) :=
mask1_file <- choice mask_files ;;
mask2_file <- choice (filter (fun f => negb (String.eqb f mask1_file)) mask_files) ;;
ret (mask1_file, mask2_file).

End Gemini.

(** * Vocabulary of the claims, proof skeletons and examples *)

(** ** Claim-side vocabulary

    The definitions of this part follow the words of the specification, to
    be compared with what the scripts compute. *)

(** Number of signal-present trials of a stratum. *)
Definition n_present (df_rate : list row) : Z :=
len (filter (fun r => String.eqb (signal_type r) "present") df_rate).

(** Number of signal-absent trials of a stratum. *)
Definition n_absent (df_rate : list row) : Z :=
len (filter (fun r => String.eqb (signal_type r) "absent") df_rate).

(** [count(Hit) / count(present trials in stratum)] *)
Definition spec_hit_rate (df_rate : list row) : res Q :=
truediv (inject_Z (len (select_outcome df_rate "Hit"))) (inject_Z (n_present df_rate)).

(** [count(FalseAlarm) / count(absent trials in stratum)] *)
Definition spec_fa_rate (df_rate : list row) : res Q :=
truediv (inject_Z (len (select_outcome df_rate "False Alarm")))
        (inject_Z (n_absent df_rate)).

(** The log-linear edge correction of a rate with [N] trials in its
    denominator. *)
Definition edge_corrected (rate : Q) (N : Z) (rate' : Q) : Prop :=
(rate == 1 -> rate' == 1 - 1 / inject_Z (2 * N)) /\
(rate == 0 -> rate' == 1 / inject_Z (2 * N)) /\
(0 < rate /\ rate < 1 -> rate' = rate).

(** The three-tier marker scheme. *)
Definition three_tier (p : Q) (marker : string) : Prop :=
(p < 1 # 1000 -> marker = "***") /\
(1 # 1000 <= p /\ p < 1 # 100 -> marker = "**") /\
(1 # 100 <= p /\ p < 5 # 100 -> marker = "*") /\
(5 # 100 <= p -> marker = EmptyString).

(** The stratum of the specification's worked example: level 0.3 with seven
    present trials (six hits, one miss) and seven absent trials (five correct
    rejections, two false alarms). *)
Definition example_stratum : list row :=
(repeat (mkRow (3 # 10) "present" "Hit") 6
 ++ [mkRow (3 # 10) "present" "Miss"]
 ++ repeat (mkRow (3 # 10) "absent" "Correct Rejection") 5
 ++ repeat (mkRow (3 # 10) "absent" "False Alarm") 2)%list.


(** What one pair of [if] statements of [dprime] does to a rate. *)
Definition correct_one (rate : Q) (n_trials : Z) : res Q :=
rate <~ (if Qeq_bool rate 1
         then q <~ truediv 1 (inject_Z (2 * n_trials)) ;; Ok (1 - q)
         else Ok rate) ;;
if Qeq_bool rate 0 then truediv 1 (inject_Z (2 * n_trials)) else Ok rate.

(** * The arithmetic of Python floats

    A Python float is an IEEE 754 binary64 number and every operation on
    floats returns the exact result rounded to the nearest such number, ties
    to the one with an even significand.  The finite floats are rationals;
    [Double.round] is that rounding on the rationals, with 53 significant
    bits above [2^-1022] and the fixed spacing [2^-1074] below.  The
    results it is used for here are at most 1 in magnitude, far from
    overflow. *)

Module Double.

(** [floor (log2 x)] for a positive rational. *)
Definition ilog2 (x : Q) : Z :=
let k := (Z.log2 (Qnum x) - Z.log2 (Z.pos (Qden x)))%Z in
if Qle_bool (2 ^ k) x then k else (k - 1)%Z.

(** The exponent of the spacing of the floats around a positive [x]. *)
Definition ulp_exponent (x : Q) : Z := Z.max (ilog2 x - 52) (-1074).

(** The nearest integer, a tie going to the even one. *)
Definition nearest_even (k : Q) : Z :=
let f := Qfloor k in
match Qcompare (k - inject_Z f) (1 # 2) with
| Lt => f
| Gt => (f + 1)%Z
| Eq => if Z.even f then f else (f + 1)%Z
end.

Definition round_pos (x : Q) : Q :=
let e := ulp_exponent x in
inject_Z (nearest_even (x / 2 ^ e)) * 2 ^ e.

Definition round (x : Q) : Q :=
match Qnum x with
| Z0 => 0
| Zpos _ => round_pos x
| Zneg _ => - round_pos (- x)
end.

(** [a / b] on two ints: a float, the correctly rounded quotient.  (A
    quotient too large for a float is an [OverflowError] in Python; the
    quotients taken here are at most 1.) *)
Definition int_truediv (a b : Z) : res Q :=
if Z.eqb b 0 then Raise ZeroDivisionError
else Ok (round (inject_Z a / inject_Z b)).

(** [x - y] on floats (an int operand is converted first; the ints here
    are floats already). *)
Definition sub (x y : Q) : Q := round (x - y).

End Double.

(** ** [dprime] in float arithmetic

    [dprime] of analyse.py (lines 24-30) and of dprime_complete.py (lines
    6-13), which are the same text, with the two operations of the
    correction rounded as Python rounds them: [2*n_trials] is an exact
    int, [1/(2*n_trials)] the rounded quotient of two ints, and
    [1 - 1/(2*n_trials)] a rounded difference.  The rates are the values of
    the floats passed in.  [norm.ppf] is modelled as before, and the last
    subtraction is left exact: the finite values of [norm.ppf] are below 40
    in magnitude, so that rounding their difference keeps it finite. *)

Module Rounded.

Section WithScipy.
Variable ndtri : Q -> Q.

Definition dprime_rates (hit_rate fa_rate : Q) (n_trials : Z) : res (Q * Q) :=
hit_rate <~ (if Qeq_bool hit_rate 1
             then q <~ Double.int_truediv 1 (2 * n_trials) ;;
                  Ok (Double.sub 1 q)
             else Ok hit_rate) ;;
hit_rate <~ (if Qeq_bool hit_rate 0
             then Double.int_truediv 1 (2 * n_trials)
             else Ok hit_rate) ;;
fa_rate <~ (if Qeq_bool fa_rate 1
            then q <~ Double.int_truediv 1 (2 * n_trials) ;;
                 Ok (Double.sub 1 q)
            else Ok fa_rate) ;;
fa_rate <~ (if Qeq_bool fa_rate 0
            then Double.int_truediv 1 (2 * n_trials)
            else Ok fa_rate) ;;
Ok (hit_rate, fa_rate).

Definition dprime (hit_rate fa_rate : Q) (n_trials : Z) : res xfloat :=
'(hit_rate, fa_rate) <~ dprime_rates hit_rate fa_rate n_trials ;;
Ok (xsub (norm_ppf ndtri hit_rate) (norm_ppf ndtri fa_rate)).

End WithScipy.

End Rounded.

(** What one pair of [if] statements of the rounded [dprime] does to a
    rate. *)
Definition rounded_correct_one (rate : Q) (n_trials : Z) : res Q :=
rate <~ (if Qeq_bool rate 1
         then q <~ Double.int_truediv 1 (2 * n_trials) ;; Ok (Double.sub 1 q)
         else Ok rate) ;;
if Qeq_bool rate 0 then Double.int_truediv 1 (2 * n_trials) else Ok rate.

(** A forced-choice trial whose distractor and second mask were redrawn
    until they differ from the correct word and the first mask. *)
Definition fc_separated (t : ForcedChoice.trial) : Prop :=
ForcedChoice.distractor_word t <> ForcedChoice.correct_word t /\
ForcedChoice.mask2_file t <> ForcedChoice.mask1_file t.

(** ** The loop shared by the two stratified generators

    [generate_trial_lists] of d-prime_detection.py and of
    main_typing_experiment.py are the same text up to their constants and
    the dictionaries appended for one prime file; [trials_of] stands for
    the latter. *)

Definition stratified_level_body {T : Type}
  (trials_of : string -> string -> M (list T)) (n_practice : nat)
  (fs : filesystem) (audio_dir : string) (needed : nat)
  (lists : list T * list T) (level : string) : M (list T * list T) :=
let '(practice_list, main_list) := lists in
let folder_path := path_join audio_dir level in
files_in_folder <- try_except_FileNotFoundError
                     (l <- listdir fs folder_path ;;
                      ret (filter (fun f => negb (startswith f ".")) l))
                     core_quit ;;
_ <- (if Nat.ltb (List.length files_in_folder) needed
      then core_quit else ret tt) ;;
files_in_folder <- shuffle files_in_folder ;;
let practice_files := slice files_in_folder 0 n_practice in
let main_files := slice files_in_folder n_practice needed in
practice_list <- for_append practice_files (trials_of level) practice_list ;;
main_list <- for_append main_files (trials_of level) main_list ;;
ret (practice_list, main_list).

Definition stratified_generate {T : Type} (levels : list string)
  (n_practice n_main : nat)
  (trials_of : list string -> list string -> string -> string -> M (list T))
  (fs : filesystem) (base_dir : string) : M (list T * list T) :=
let audio_dir := path_join base_dir "audio" in
let babbling_dir := path_join base_dir "babbling" in
let masks_dir := path_join base_dir "masks" in
'(babbling_list, mask_list) <-
  try_except_FileNotFoundError
    (b <- (l <- listdir fs babbling_dir ;;
           ret (filter (fun f => negb (startswith f ".")) l)) ;;
     m <- (l <- listdir fs masks_dir ;;
           ret (filter (fun f => negb (startswith f ".")) l)) ;;
     ret (b, m))
    core_quit ;;
_ <- (if is_empty babbling_list || is_empty mask_list
      then core_quit else ret tt) ;;
'(practice_list, main_list) <-
  for_each levels
    (stratified_level_body (trials_of babbling_list mask_list) n_practice
       fs audio_dir (n_practice + n_main))
    ([], []) ;;
practice_list <- shuffle practice_list ;;
main_list <- shuffle main_list ;;
ret (practice_list, main_list).

(** The usable files of a directory listing: those [get_files_from_dir]
    keeps. *)
Definition usable_files (l : list string) : list string :=
filter (fun f => negb (startswith f ".")) l.

(** The prime files of a list of items, for a partial reading [prime] of
    the prime file of an item, restricted to the items of stratum [level]. *)
Definition primes_in_stratum {T : Type} (lvl : T -> string)
  (prime : T -> option string) (level : string) (l : list T) : list string :=
flat_map (fun t => if String.eqb (lvl t) level
                   then match prime t with Some f => [f] | None => [] end
                   else []) l.

(** Prime files of the signal-present trials of one compression level. *)
Definition detection_primes (level : string) (l : list DPrimeDetection.trial)
  : list string :=
map DPrimeDetection.prime_file
  (filter (fun t => String.eqb (DPrimeDetection.signal_type t) "present"
                    && String.eqb (DPrimeDetection.compression_level t) level) l).

(** Prime files of the typing trials of one compression level. *)
Definition typing_primes (level : string) (l : list MainTyping.trial)
  : list string :=
map MainTyping.prime_file
  (filter (fun t => String.eqb (MainTyping.compression_level t) level) l).

(** A run either returns or ends the process with [core.quit()]. *)
Definition returns_or_quits {A : Type} (m : M A) : Prop :=
forall s, (exists a s', m s = Ok (a, s')) \/ m s = Raise SystemExit.

(** The invariant of the loop over the levels: every item made so far
    belongs to a level already visited, and no stratum uses a prime file
    twice across the two lists. *)
Definition no_reuse {T : Type} (lvl : T -> string) (prime : T -> option string)
  (pre : list string) (lists : list T * list T) : Prop :=
Forall (fun t => In (lvl t) pre) (fst lists) /\
Forall (fun t => In (lvl t) pre) (snd lists) /\
forall level,
  NoDup (primes_in_stratum lvl prime level (fst lists)
         ++ primes_in_stratum lvl prime level (snd lists)).

(** ** Example directories and oracles *)

Definition example_words : list string :=
[".DS_Store"; "bange_compressed.wav"; "glad_compressed.wav";
 "vred_compressed.wav"; "rolig_compressed.wav"; "bord_compressed.wav";
 "stol_compressed.wav"; "lampe_compressed.wav"; "vindue_compressed.wav"].

Definition example_babbling : list string := ["babble_1.wav"; "babble_2.wav"].

Definition example_masks : list string :=
["mask_1.wav"; "mask_2.wav"; "mask_3.wav"].

(** An experiment folder with eight word files in each of the level folders
    0.1 to 0.8. *)
Definition detection_fs : filesystem :=
fun d =>
  if String.eqb d "exp/babbling" then Some example_babbling
  else if String.eqb d "exp/masks" then Some example_masks
  else if existsb (fun l => String.eqb d ("exp/audio/" ++ l))
            MainTyping.COMPRESSION_LEVELS
  then Some example_words
  else None.

(** A folder for the forced-choice experiment. *)
Definition forced_choice_fs : filesystem :=
fun d =>
  if String.eqb d "exp/babbling" then Some example_babbling
  else if String.eqb d "exp/masks" then Some example_masks
  else if String.eqb d "exp/primes/positive"
  then Some ["glad_compressed.wav"; "rolig_compressed.wav"]
  else if String.eqb d "exp/primes/negative"
  then Some ["bange_compressed.wav"; "vred_compressed.wav"]
  else if String.eqb d "exp/primes/neutrale"
  then Some ["bord_compressed.wav"; "stol_compressed.wav"; "lampe_compressed.wav"]
  else None.

(** An oracle whose k-th raw draw is [k * k + k / 3]. *)
Definition example_rng : rng := mkRng (fun k => k * k + k / 3)%nat 0.

(** The prime file a detection trial plays: none on a signal-absent trial,
    whose [prime_file] is the placeholder SILENCE. *)
Definition detection_prime (t : DPrimeDetection.trial) : option string :=
if String.eqb (DPrimeDetection.signal_type t) "present"
then Some (DPrimeDetection.prime_file t) else None.

Definition typing_prime (t : MainTyping.trial) : option string :=
Some (MainTyping.prime_file t).

(** The example folder with only [k] word files left at level 0.3. *)
Definition short_fs (k : nat) : filesystem :=
fun d =>
  if String.eqb d "exp/audio/0.3" then Some (firstn (S k) example_words)
  else detection_fs d.

(** * Vocabulary of the further properties *)

(** ** The report loop with the marker function left open

    [compute_rate_results] of analyse.py and of dprime_complete.py differ
    in their [signif_marker] only. *)

Definition report_row (marker : Q -> string) (ndtri : Q -> Q)
  (chi2_contingency : table -> bool -> res chi2_result)
  (df : list row) (rate : Q) : res result_row :=
let df_rate := select_level df rate in
hit_rate <~ Analyse.hit_rate_of df_rate ;;
false_alarm_rate <~ Analyse.false_alarm_rate_of df_rate ;;
d_prime <~ Analyse.dprime ndtri hit_rate false_alarm_rate (len df_rate) ;;
'(chi2, p) <~ Analyse.chi_square_from_rates chi2_contingency hit_rate
                false_alarm_rate (len df_rate) ;;
Ok (mkResult rate d_prime (marker p) hit_rate false_alarm_rate
             chi2 p (len df_rate)).

Definition report_with (marker : Q -> string) (ndtri : Q -> Q)
  (chi2_contingency : table -> bool -> res chi2_result)
  (df : list row) : res (list result_row) :=
results <~ mapR (report_row marker ndtri chi2_contingency df)
             (unique (map compression_level df)) ;;
match results with
| [] => Raise KeyError
| _ => Ok (sort_values results)
end.

(** Strictly ascending compression rates. *)
Definition rate_lt (a b : result_row) : Prop :=
compression_rate a < compression_rate b.

(** Number of rows of a stratum with a given outcome, as a rational. *)
Definition outcome_count (df_rate : list row) (o : string) : Q :=
inject_Z (len (select_outcome df_rate o)).

(** Number of stars of a marker. *)
Definition stars (marker : string) : nat := String.length marker.

(** Rows of two compression levels, and a stand-in for the chi-square test
    that accepts every table. *)
Definition example_df : list row :=
[mkRow (5 # 10) "present" "Hit"; mkRow (3 # 10) "present" "Miss";
 mkRow (5 # 10) "absent" "Correct Rejection"; mkRow (3 # 10) "absent" "False Alarm";
 mkRow (5 # 10) "present" "Hit"; mkRow (3 # 10) "present" "Hit"].

Definition accepting_test (t : table) (correction : bool) : res chi2_result :=
Ok (mkChi2 (o11 t) (1 # 2)).

(** Sum of a list of integers. *)
Definition zsum (l : list Z) : Z := fold_right Z.add 0%Z l.

(** [c in s] *)
Fixpoint has_char (c : ascii) (s : string) : bool :=
match s with
| EmptyString => false
| String a s' => Ascii.eqb a c || has_char c s'
end.

(** A run that returns whatever the oracle. *)
Definition returns {A : Type} (m : M A) : Prop :=
forall s, exists a s', m s = Ok (a, s').

(** [len([t for t in l if c(t)])] *)
Definition count_if {T : Type} (c : T -> bool) (l : list T) : nat :=
List.length (filter c l).

(** The folders a stratified generator reads are all there, with files
    enough: [needed] usable files for every level, one babbling file, one
    mask. *)
Definition folders_sufficient (fs : filesystem) (base_dir : string)
  (levels : list string) (needed : nat) : Prop :=
(exists b, fs (path_join base_dir "babbling") = Some b /\ usable_files b <> []) /\
(exists m, fs (path_join base_dir "masks") = Some m /\ usable_files m <> []) /\
forall level, In level levels ->
  exists l, fs (path_join (path_join base_dir "audio") level) = Some l /\
            (needed <= List.length (usable_files l))%nat.

(** One of the folders is missing, or the babbling or masks folder has no
    usable file. *)
Definition folder_missing_or_empty (fs : filesystem) (base_dir : string)
  (levels : list string) : Prop :=
fs (path_join base_dir "babbling") = None \/
fs (path_join base_dir "masks") = None \/
(exists b, fs (path_join base_dir "babbling") = Some b /\ usable_files b = []) \/
(exists m, fs (path_join base_dir "masks") = Some m /\ usable_files m = []) \/
(exists level, In level levels /\
               fs (path_join (path_join base_dir "audio") level) = None).

(** Trials of a detection list with a given level and signal type. *)
Definition detection_class (level sig : string) (t : DPrimeDetection.trial)
  : bool :=
String.eqb (DPrimeDetection.compression_level t) level
&& String.eqb (DPrimeDetection.signal_type t) sig.

Definition typing_class (level : string) (t : MainTyping.trial) : bool :=
String.eqb (MainTyping.compression_level t) level.

(** A detection trial made for prime file [f] of [level] from the given
    babbling and mask files. *)
Definition detection_trial_from (babbling masks : list string)
  (level f : string) (t : DPrimeDetection.trial) : Prop :=
DPrimeDetection.compression_level t = level /\
In (DPrimeDetection.babbling_file t) babbling /\
In (DPrimeDetection.mask1_file t) masks /\
In (DPrimeDetection.mask2_file t) masks /\
((DPrimeDetection.signal_type t = "present" /\
  DPrimeDetection.prime_file t = f /\
  DPrimeDetection.correct_word t = DPrimeDetection.get_word_from_filename f) \/
 (DPrimeDetection.signal_type t = "absent" /\
  DPrimeDetection.prime_file t = "SILENCE" /\
  DPrimeDetection.correct_word t = "NA")).

Definition typing_trial_from (babbling masks : list string)
  (level f : string) (t : MainTyping.trial) : Prop :=
MainTyping.compression_level t = level /\
In (MainTyping.babbling_file t) babbling /\
In (MainTyping.mask1_file t) masks /\
In (MainTyping.mask2_file t) masks /\
MainTyping.prime_file t = f /\
MainTyping.correct_word t = MainTyping.get_word_from_filename f.

(** Every trial of [l] was made for a usable file of the folder of one of
    the levels, from the usable babbling and mask files. *)
Definition stratified_provenance {T : Type}
  (from : list string -> list string -> string -> string -> T -> Prop)
  (fs : filesystem) (base_dir : string) (levels : list string) (l : list T)
  : Prop :=
exists b m,
  fs (path_join base_dir "babbling") = Some b /\
  fs (path_join base_dir "masks") = Some m /\
  Forall (fun t =>
            exists level files f,
              In level levels /\
              fs (path_join (path_join base_dir "audio") level) = Some files /\
              In f (usable_files files) /\
              from (usable_files b) (usable_files m) level f t) l.

(** The entry of [prime_list] a forced-choice trial was made from. *)
Definition entry_of (t : ForcedChoice.trial) : ForcedChoice.prime :=
ForcedChoice.mkPrime (ForcedChoice.prime_file t) (ForcedChoice.prime_valence t)
                     (ForcedChoice.correct_word t).

(** [run_trial] of forced_choice.py: the folder the prime sound is loaded
    from. *)
Definition prime_valence_folder (prime_valence : string) : string :=
if String.eqb prime_valence "neutral" then "neutrale" else prime_valence.

(** The master word list of a forced-choice folder. *)
Definition master_words (pos neg neu : list string) : list string :=
ForcedChoice.list_set
  (map ForcedChoice.get_word_from_filename
     (usable_files pos ++ usable_files neg ++ usable_files neu)).

(** The five folders of the forced-choice experiment, as listed. *)
Definition fc_folders (fs : filesystem) (base_dir : string)
  (pos neg neu b m : list string) : Prop :=
fs (path_join (path_join base_dir "primes") "positive") = Some pos /\
fs (path_join (path_join base_dir "primes") "negative") = Some neg /\
fs (path_join (path_join base_dir "primes") "neutrale") = Some neu /\
fs (path_join base_dir "babbling") = Some b /\
fs (path_join base_dir "masks") = Some m.

(** The checks [generate_trial_list] makes before it draws. *)
Definition fc_folders_accepted (pos neg neu b m : list string) : Prop :=
usable_files pos <> [] /\ usable_files neg <> [] /\ usable_files neu <> [] /\
usable_files b <> [] /\ usable_files m <> [] /\
(2 <= List.length (master_words pos neg neu))%nat.

(** A forced-choice trial built from the listed folders. *)
Definition fc_trial_from (fs : filesystem) (base_dir : string)
  (pos neg neu b m : list string) (t : ForcedChoice.trial) : Prop :=
(exists l,
    fs (path_join (path_join base_dir "primes")
          (prime_valence_folder (ForcedChoice.prime_valence t))) = Some l /\
    In (ForcedChoice.prime_file t) (usable_files l)) /\
ForcedChoice.correct_word t
  = ForcedChoice.get_word_from_filename (ForcedChoice.prime_file t) /\
In (ForcedChoice.distractor_word t) (master_words pos neg neu) /\
In (ForcedChoice.babbling_file t) (usable_files b) /\
In (ForcedChoice.mask1_file t) (usable_files m) /\
In (ForcedChoice.mask2_file t) (usable_files m).

Definition has_valence (v : string) (t : ForcedChoice.trial) : bool :=
String.eqb (ForcedChoice.prime_valence t) v.

(** A run that ends in no exception: it returns, or its loop budget is
    used up. *)
Definition never_raises {A : Type} (m : M A) : Prop :=
forall s, match m s with Raise _ => False | _ => True end.

(** The five folders are there and pass the checks of
    [generate_trial_list]. *)
Definition fc_usable (fs : filesystem) (base_dir : string) : Prop :=
exists pos neg neu b m,
  fc_folders fs base_dir pos neg neu b m /\ fc_folders_accepted pos neg neu b m.

(** The forced-choice folder with nothing but a hidden file among the
    negative primes. *)
Definition hidden_only_fs : filesystem :=
fun d =>
  if String.eqb d "exp/primes/negative" then Some [".DS_Store"]
  else forced_choice_fs d.

(** The forced-choice folder with a single mask file. *)
Definition single_mask_fs : filesystem :=
fun d =>
  if String.eqb d "exp/masks" then Some [".DS_Store"; "mask_1.wav"]
  else forced_choice_fs d.

(** * Running the trials

    Of [run_trial] and [main] of the experiment scripts the handling of the
    responses is embedded. The keys the participant presses are an input of
    the model; what is drawn, played and timed has no part in it. *)

(** [key == K] for the [key] of [run_trial], which is [None] without a
    response. *)
Definition key_is (key : option string) (K : string) : bool :=
match key with
| Some k => String.eqb k K
| None => false
end.

(** ** control_experiment/d-prime_detection.py: [run_trial] and [main] *)

Module DetectionSession.

Definition N_LEVELS : nat := List.length DPrimeDetection.COMPRESSION_LEVELS.
Definition N_MAIN_TRIALS : nat :=
  N_LEVELS * DPrimeDetection.N_MAIN_REPS_PER_LEVEL * 2.

Definition QUIT_KEY : string := "escape".
Definition YES_KEY : string := "m".
Definition NO_KEY : string := "z".
Definition VALID_KEYS : list string := [YES_KEY; NO_KEY; QUIT_KEY].

Definition MAIN_TRIAL_BREAK_POINTS : list nat := [29; 59; 89; 119; 149]%nat.

(** The columns [run_trial] adds for a trial, the two timing columns
    apart. *)
Record data_row : Type := mkRow {
  response_key : option string;
  trial_outcome : string;
  signal_type : string;
  compression_level : string;
  correct_word : string;
  prime_file : string
}.

(** Step 4 of [run_trial]. *)
Definition outcome_of (signal : string) (key : option string) : string :=
if String.eqb signal "present" && key_is key YES_KEY then "Hit"
else if String.eqb signal "present" && key_is key NO_KEY then "Miss"
else if String.eqb signal "absent" && key_is key YES_KEY then "False Alarm"
else if String.eqb signal "absent" && key_is key NO_KEY then "Correct Rejection"
else "NA".

(** Steps 4 and 6 of [run_trial], for the [key] of step 3: the row added
    and the value returned ([Some "QUIT"], or [None]). *)
Definition run_trial (trial_info : DPrimeDetection.trial) (key : option string)
  : data_row * option string :=
let signal := DPrimeDetection.signal_type trial_info in
let outcome := outcome_of signal key in
(mkRow key outcome (DPrimeDetection.signal_type trial_info)
       (DPrimeDetection.compression_level trial_info)
       (DPrimeDetection.correct_word trial_info)
       (DPrimeDetection.prime_file trial_info),
 if key_is key QUIT_KEY then Some "QUIT" else None).

(** What the main loop does, in order. *)
Inductive event : Type :=
| AddData (r : data_row)
| NextEntry
| BreakMessage (completed total : nat).

(** [for trial in main_trials] of [main]; [thisN] is [main_trials.thisN],
    [respond n] the key pressed in the trial with that number. The result
    is the trace and [quit_experiment]. *)
Fixpoint main_loop (respond : nat -> option string) (thisN : nat)
  (main_trials : list DPrimeDetection.trial) : list event * bool :=
match main_trials with
| [] => ([], false)
| trial :: rest =>
    let current_trial_n := thisN in
    let '(row, result) := run_trial trial (respond thisN) in
    if key_is result "QUIT" then ([AddData row], true)
    else
      let '(later, quit_experiment) := main_loop respond (S thisN) rest in
      (AddData row :: NextEntry ::
         (if existsb (Nat.eqb current_trial_n) MAIN_TRIAL_BREAK_POINTS
          then [BreakMessage (current_trial_n + 1) N_MAIN_TRIALS] else [])
         ++ later,
       quit_experiment)
end.

End DetectionSession.

(** ** experiment/forced_choice.py: [run_trial] *)

Module ForcedChoiceSession.

Definition QUIT_KEY : string := "escape".
Definition CHOICE_KEYS : list string := ["left"; "right"].
Definition VALID_KEYS : list string := (CHOICE_KEYS ++ [QUIT_KEY])%list.

(** The response columns [run_trial] adds, the reaction time apart. *)
Record data_row : Type := mkRow {
  response_key : option string;
  correct_key : string;
  accuracy : Z;
  left_word : string;
  right_word : string
}.

(** The response part of [run_trial]: [random_random] is the value of
    [random.random()], [key] the key of the response. *)
Definition run_trial (trial_info : ForcedChoice.trial) (random_random : Q)
  (key : option string) : data_row * option string :=
let '(left_word, right_word, correct_key) :=
  if Qlt_bool (1 # 2) random_random
  then (ForcedChoice.correct_word trial_info,
        ForcedChoice.distractor_word trial_info, "left")
  else (ForcedChoice.distractor_word trial_info,
        ForcedChoice.correct_word trial_info, "right") in
let accuracy := if key_is key correct_key then 1%Z else 0%Z in
(mkRow key correct_key accuracy left_word right_word,
 if key_is key QUIT_KEY then Some "QUIT" else None).

End ForcedChoiceSession.

(** ** control_experiment/main_typing_experiment.py: the typing loop

    The names of the keys and the typed string are Python strings, taken
    here as the lists of their code points, so that [len] counts characters
    as Python does. *)

Module TypingSession.

Definition str : Type := list N.

(** A string literal of the script; its characters are ASCII. *)
Definition literal (s : string) : str :=
map N_of_ascii (list_ascii_of_string s).

(** [a == b] on strings. *)
Definition str_eqb (a b : str) : bool :=
if list_eq_dec N.eq_dec a b then true else false.

Definition QUIT_KEY : str := literal "escape".
Definition SUBMIT_KEY : str := literal "return".

(** How the typing loop stands after the keys it was given: left by
    [return 'QUIT'], left by [break] with the typed string, or waiting for
    the next key. *)
Inductive typing : Type :=
| ReturnedQuit
| Submitted (typed_string : str)
| Waiting (typed_string : str).

(** [while True] of [run_trial], one iteration for each key that
    [event.waitKeys] hands over; [typed_string[:-1]] is [removelast]. *)
Fixpoint typing_loop (typed_string : str) (keys : list str) : typing :=
match keys with
| [] => Waiting typed_string
| key :: later =>
    if str_eqb key QUIT_KEY then ReturnedQuit
    else if str_eqb key SUBMIT_KEY then Submitted typed_string
    else if str_eqb key (literal "backspace")
    then typing_loop (removelast typed_string) later
    else if str_eqb key (literal "space")
    then typing_loop (typed_string ++ literal " ")%list later
    else if Nat.eqb (List.length key) 1
    then typing_loop (typed_string ++ key)%list later
    else typing_loop typed_string later
end.

End TypingSession.

(** ** experiment/gemini_code_v1.py: the blocks of [run] *)

Module GeminiSession.

Definition N_TRIALS_PER_BLOCK : nat := 70.
Definition N_BLOCKS : nat := 3.

(** The break check at the head of the main loop, for the index [i] of
    [enumerate(main_trials)]: [Some block_completed] when the message is
    shown. *)
Definition block_break (i : nat) : option nat :=
if existsb (Nat.eqb i) [N_TRIALS_PER_BLOCK; N_TRIALS_PER_BLOCK * 2]%nat
then Some (i / N_TRIALS_PER_BLOCK)%nat
else None.

Definition current_block (i : nat) : nat := (i / N_TRIALS_PER_BLOCK + 1)%nat.

Definition trial_in_block (i : nat) : nat := (i mod N_TRIALS_PER_BLOCK + 1)%nat.

End GeminiSession.

(** The keys that type a word: the key of a character has the character as
    its name, the space bar is called space. *)
Definition keys_of (word : TypingSession.str) : list TypingSession.str :=
map (fun c => if N.eqb c 32 then TypingSession.literal "space" else [c]) word.

(** The rows a trace adds, and the break messages it shows. *)
Definition rows (trace : list DetectionSession.event)
  : list DetectionSession.data_row :=
flat_map (fun e => match e with
                   | DetectionSession.AddData r => [r]
                   | _ => []
                   end) trace.

Definition break_messages (trace : list DetectionSession.event)
  : list (nat * nat) :=
flat_map (fun e => match e with
                   | DetectionSession.BreakMessage n k => [(n, k)]
                   | _ => []
                   end) trace.


(** The word on the side of a choice key. *)
Definition chosen_word (r : ForcedChoiceSession.data_row) (key : string)
  : string :=
if String.eqb key "left" then ForcedChoiceSession.left_word r
else ForcedChoiceSession.right_word r.

(** * Properties of the analysis scripts *)

(** ** Arithmetic of the correction *)

Lemma Qeq_bool_false_iff (a b : Q) : Qeq_bool a b = false <-> ~ a == b.
Proof.
split.
- intros H E. apply Qeq_bool_iff in E. congruence.
- intros H. destruct (Qeq_bool a b) eqn:E; auto.
  apply Qeq_bool_iff in E. contradiction.
Qed.

Lemma Qlt_bool_iff (a b : Q) : Qlt_bool a b = true <-> a < b.
Proof.
unfold Qlt_bool. rewrite negb_true_iff.
split.
- intros H. apply Qnot_le_lt. intros L. apply Qle_bool_iff in L. congruence.
- intros H. destruct (Qle_bool b a) eqn:E; auto.
  apply Qle_bool_iff in E. apply Qle_not_lt in E. contradiction.
Qed.

Lemma Qlt_bool_false_iff (a b : Q) : Qlt_bool a b = false <-> b <= a.
Proof.
unfold Qlt_bool. rewrite negb_false_iff. apply Qle_bool_iff.
Qed.

Lemma half_count_inverse (n : Z) :
  (1 <= n)%Z ->
  truediv 1 (inject_Z (2 * n)) = Ok (1 / inject_Z (2 * n)) /\
  0 < 1 / inject_Z (2 * n) /\ 1 / inject_Z (2 * n) <= 1 # 2.
Proof.
intros Hn. destruct n as [|p|p]; try lia.
split; [reflexivity|].
unfold Qdiv, Qinv, inject_Z, Qlt, Qle; simpl. split; lia.
Qed.

Lemma dprime_rates_unfold (h f : Q) (n : Z) :
  Analyse.dprime_rates h f n =
  (h' <~ correct_one h n ;; f' <~ correct_one f n ;; Ok (h', f')).
Proof.
unfold Analyse.dprime_rates, correct_one.
generalize (truediv 1 (inject_Z (2 * n))). intros d.
destruct d as [a| |]; cbn [rbind];
  repeat match goal with
         | |- context [Qeq_bool ?x ?y] => destruct (Qeq_bool x y); cbn [rbind]
         end; reflexivity.
Qed.

Lemma correct_one_spec (r : Q) (n : Z) :
  (1 <= n)%Z ->
  exists r', correct_one r n = Ok r' /\ edge_corrected r n r' /\
             (0 <= r /\ r <= 1 -> 0 < r' /\ r' < 1).
Proof.
intros Hn. destruct (half_count_inverse n Hn) as (Hd & Hpos & Hle).
unfold correct_one, edge_corrected.
destruct (Qeq_bool r 1) eqn:E1.
- apply Qeq_bool_iff in E1. rewrite Hd. cbn [rbind].
  assert (N0 : Qeq_bool (1 - 1 / inject_Z (2 * n)) 0 = false).
  { apply Qeq_bool_false_iff. intros E. lra. }
  rewrite N0. eexists; split; [reflexivity|].
  repeat split; intros; try lra.
- apply Qeq_bool_false_iff in E1. cbn [rbind].
  destruct (Qeq_bool r 0) eqn:E0.
  + apply Qeq_bool_iff in E0. rewrite Hd.
    eexists; split; [reflexivity|]. repeat split; intros; try lra.
  + apply Qeq_bool_false_iff in E0.
    eexists; split; [reflexivity|]. repeat split; intros; try lra; auto.
Qed.

Lemma correct_one_inside (r : Q) (n : Z) :
  ~ r == 1 -> ~ r == 0 -> correct_one r n = Ok r.
Proof.
intros H1 H0. unfold correct_one.
apply Qeq_bool_false_iff in H1. apply Qeq_bool_false_iff in H0.
rewrite H1. cbn [rbind]. rewrite H0. reflexivity.
Qed.

Lemma norm_ppf_inside (ndtri : Q -> Q) (q : Q) :
  0 < q -> q < 1 -> norm_ppf ndtri q = XFin (ndtri q).
Proof.
intros H0 H1. unfold norm_ppf.
assert (A : Qlt_bool q 0 = false) by (apply Qlt_bool_false_iff; lra).
assert (B : Qlt_bool 1 q = false) by (apply Qlt_bool_false_iff; lra).
assert (C : Qeq_bool q 0 = false) by (apply Qeq_bool_false_iff; lra).
assert (D : Qeq_bool q 1 = false) by (apply Qeq_bool_false_iff; lra).
rewrite A, B, C, D. reflexivity.
Qed.


Lemma dprime_same : DprimeComplete.dprime = Analyse.dprime.
Proof. reflexivity. Qed.

Lemma chi_square_same :
  DprimeComplete.chi_square_from_rates = Analyse.chi_square_from_rates.
Proof. reflexivity. Qed.

Lemma dprime_rates_spec (h f : Q) (n : Z) :
  (1 <= n)%Z ->
  exists h' f',
    Analyse.dprime_rates h f n = Ok (h', f') /\
    edge_corrected h n h' /\ edge_corrected f n f' /\
    (0 <= h /\ h <= 1 -> 0 < h' /\ h' < 1) /\
    (0 <= f /\ f <= 1 -> 0 < f' /\ f' < 1).
Proof.
intros Hn.
destruct (correct_one_spec h n Hn) as (h' & Eh & Ch & Bh).
destruct (correct_one_spec f n Hn) as (f' & Ef & Cf & Bf).
exists h', f'. rewrite dprime_rates_unfold, Eh. cbn [rbind]. rewrite Ef.
cbn [rbind]. auto.
Qed.

(** ** The rates of a stratum *)

Lemma truediv_len {A : Type} (k : Z) (l : list A) :
  l <> [] -> truediv (inject_Z k) (inject_Z (len l)) = Ok (inject_Z k / inject_Z (len l)).
Proof.
intros Hl. unfold truediv.
assert (E : Qeq_bool (inject_Z (len l)) 0 = false).
{ apply Qeq_bool_false_iff. unfold len, Qeq, inject_Z; simpl.
  destruct l; [contradiction|]. simpl. lia. }
rewrite E. reflexivity.
Qed.

(** What lines 62-63 compute: both rates are taken over all the rows of
    the stratum. *)
Lemma rates_over_all_rows (df_rate : list row) :
  df_rate <> [] ->
  Analyse.hit_rate_of df_rate =
    Ok (inject_Z (len (select_outcome df_rate "Hit")) / inject_Z (len df_rate)) /\
  Analyse.false_alarm_rate_of df_rate =
    Ok (inject_Z (len (select_outcome df_rate "False Alarm")) / inject_Z (len df_rate)).
Proof.
intros Hl. split; apply truediv_len; assumption.
Qed.

Lemma analyse_signif_marker_three_tier (p : Q) :
  three_tier p (Analyse.signif_marker p).
Proof.
unfold three_tier, Analyse.signif_marker.
destruct (Qlt_bool p (1 # 1000)) eqn:A;
  [apply Qlt_bool_iff in A | apply Qlt_bool_false_iff in A].
{ repeat split; intros; try reflexivity; lra. }
destruct (Qlt_bool p (1 # 100)) eqn:B;
  [apply Qlt_bool_iff in B | apply Qlt_bool_false_iff in B].
{ repeat split; intros; try reflexivity; lra. }
destruct (Qlt_bool p (5 # 100)) eqn:C;
  [apply Qlt_bool_iff in C | apply Qlt_bool_false_iff in C].
{ repeat split; intros; try reflexivity; lra. }
repeat split; intros; try reflexivity; lra.
Qed.

(** ** Claims on the analysis *)

(** C1. On the stratum of the specification's worked example
    [compute_rate_results] of both scripts reports the hit rate 6/14 and the
    false-alarm rate 2/14, the counts of the outcomes "Hit" and "False Alarm"
    divided by all fourteen rows of the stratum, and derives d-prime and the
    chi-square table from them; divided by the seven signal-present and the
    seven signal-absent trials the rates are 6/7 and 2/7. *)
Theorem C1_rates_divide_by_all_rows
  (ndtri : Q -> Q) (chi2_contingency : table -> bool -> res chi2_result) :
  let h := 6 # 14 in
  let fa := 2 # 14 in
  Analyse.compute_rate_results ndtri chi2_contingency example_stratum
    = (r <~ chi2_contingency (Analyse.obs h fa 14) true ;;
       Ok [mkResult (3 # 10) (XFin (ndtri h - ndtri fa))
                    (Analyse.signif_marker (pvalue r)) h fa
                    (statistic r) (pvalue r) 14]) /\
  DprimeComplete.compute_rate_results ndtri chi2_contingency example_stratum
    = (r <~ chi2_contingency (DprimeComplete.obs h fa 14) true ;;
       Ok [mkResult (3 # 10) (XFin (ndtri h - ndtri fa))
                    (DprimeComplete.signif_marker (pvalue r)) h fa
                    (statistic r) (pvalue r) 14]) /\
  Analyse.hit_rate_of example_stratum = Ok h /\
  Analyse.false_alarm_rate_of example_stratum = Ok fa /\
  n_present example_stratum = 7%Z /\
  n_absent example_stratum = 7%Z /\
  spec_hit_rate example_stratum = Ok (6 # 7) /\
  spec_fa_rate example_stratum = Ok (2 # 7) /\
  ~ h == 6 # 7 /\ ~ fa == 2 # 7.
Proof.
cbv zeta. split; [|split].
- vm_compute. destruct (chi2_contingency _ _); reflexivity.
- vm_compute. destruct (chi2_contingency _ _); reflexivity.
- repeat (split; [vm_compute; reflexivity|]).
  split; intros E; vm_compute in E; discriminate.
Qed.




(** ** Rounding to binary64 *)

Lemma pow2_pos (e : Z) : 0 < 2 ^ e.
Proof. apply Qpower_0_lt. reflexivity. Qed.

Lemma pow2_le (a b : Z) : (a <= b)%Z -> 2 ^ a <= 2 ^ b.
Proof. intros H. apply Qpower_le_compat_l; [exact H | discriminate]. Qed.

Lemma pow2_plus (a b : Z) : 2 ^ (a + b) == 2 ^ a * 2 ^ b.
Proof. apply Qpower_plus. discriminate. Qed.

Lemma pow2_inject (n : Z) : (0 <= n)%Z -> inject_Z (2 ^ n) == 2 ^ n.
Proof. intros H. rewrite Zpower_Qpower by exact H. reflexivity. Qed.

Lemma pow2_succ (a : Z) : 2 ^ (a + 1) == 2 * 2 ^ a.
Proof. rewrite pow2_plus. change (2 ^ 1) with 2. ring. Qed.

Lemma pow2_pred (a : Z) : 2 * 2 ^ (a - 1) == 2 ^ a.
Proof.
rewrite <- (pow2_succ (a - 1)). replace (a - 1 + 1)%Z with a by ring.
reflexivity.
Qed.

Lemma ilog2_spec (x : Q) :
  0 < x -> 2 ^ Double.ilog2 x <= x /\ x < 2 ^ (Double.ilog2 x + 1).
Proof.
intros Hx. unfold Double.ilog2.
destruct x as [n d]. cbn [Qnum Qden].
assert (Hn : (0 < n)%Z) by (unfold Qlt in Hx; simpl in Hx; lia).
set (ln := Z.log2 n). set (ld := Z.log2 (Z.pos d)).
assert (Ln : (0 <= ln)%Z) by apply Z.log2_nonneg.
assert (Ld : (0 <= ld)%Z) by apply Z.log2_nonneg.
destruct (Z.log2_spec n Hn) as [N1 N2]. fold ln in N1, N2.
destruct (Z.log2_spec (Z.pos d) ltac:(lia)) as [D1 D2]. fold ld in D1, D2.
assert (X : n # d == inject_Z n / inject_Z (Z.pos d)) by apply Qmake_Qdiv.
set (a := 2 ^ ln) in *. set (b := 2 ^ ld) in *.
assert (Ha : 0 < a) by apply pow2_pos.
assert (Hb : 0 < b) by apply pow2_pos.
assert (QN1 : a <= inject_Z n).
{ unfold a. rewrite <- pow2_inject by exact Ln. rewrite <- Zle_Qle. exact N1. }
assert (QN2 : inject_Z n < 2 * a).
{ unfold a. rewrite <- pow2_succ, <- pow2_inject by lia.
  rewrite <- Zlt_Qlt. exact N2. }
assert (QD1 : b <= inject_Z (Z.pos d)).
{ unfold b. rewrite <- pow2_inject by exact Ld. rewrite <- Zle_Qle. exact D1. }
assert (QD2 : inject_Z (Z.pos d) < 2 * b).
{ unfold b. rewrite <- pow2_succ, <- pow2_inject by lia.
  rewrite <- Zlt_Qlt. exact D2. }
set (D := inject_Z (Z.pos d)) in *. set (N := inject_Z n) in *.
assert (HD : 0 < D) by lra.
assert (K : 2 ^ (ln - ld) == a / b).
{ unfold a, b. apply Qpower_minus. discriminate. }
set (t := a / b) in *.
assert (Tb : t * b == a) by (unfold t; field; lra).
assert (Ht : 0 < t).
{ unfold t. apply Qlt_shift_div_l; [exact Hb | lra]. }
assert (Up : N / D < 2 * t).
{ apply Qlt_shift_div_r; [exact HD|]. nra. }
assert (Lo : t < 2 * (N / D)).
{ assert (E : 2 * (N / D) == (2 * N) / D) by (field; lra).
  rewrite E. apply Qlt_shift_div_l; [exact HD|]. nra. }
destruct (Qle_bool (2 ^ (ln - ld)) (n # d)) eqn:B.
- apply Qle_bool_iff in B. split; [exact B|].
  rewrite pow2_succ, K, X. exact Up.
- assert (B' : n # d < 2 ^ (ln - ld)).
  { apply Qnot_le_lt. intros L. apply Qle_bool_iff in L. congruence. }
  replace (ln - ld - 1 + 1)%Z with (ln - ld)%Z by ring.
  split; [|exact B'].
  pose proof (pow2_pred (ln - ld)) as P. rewrite K in P. rewrite X. lra.
Qed.

Lemma ilog2_le (x y : Q) :
  0 < x -> x <= y -> (Double.ilog2 x <= Double.ilog2 y)%Z.
Proof.
intros Hx Hxy.
destruct (ilog2_spec x Hx) as [X1 _].
destruct (ilog2_spec y ltac:(lra)) as [_ Y2].
destruct (Z_le_gt_dec (Double.ilog2 x) (Double.ilog2 y)) as [L|G]; [exact L|].
exfalso.
pose proof (pow2_le (Double.ilog2 y + 1) (Double.ilog2 x) ltac:(lia)). lra.
Qed.

Lemma nearest_even_bounds (k : Q) :
  (Qfloor k <= Double.nearest_even k <= Qfloor k + 1)%Z.
Proof.
unfold Double.nearest_even.
destruct (Qcompare (k - inject_Z (Qfloor k)) (1 # 2)); [|lia|lia].
destruct (Z.even (Qfloor k)); lia.
Qed.

Lemma nearest_even_int (z : Z) : Double.nearest_even (inject_Z z) = z.
Proof.
unfold Double.nearest_even. rewrite Qfloor_Z.
destruct (Qcompare (inject_Z z - inject_Z z) (1 # 2)) eqn:C;
  [apply Qeq_alt in C; lra | reflexivity | apply Qgt_alt in C; lra].
Qed.

Lemma nearest_even_mono (k1 k2 : Q) :
  k1 <= k2 -> (Double.nearest_even k1 <= Double.nearest_even k2)%Z.
Proof.
intros H. pose proof (Qfloor_resp_le _ _ H) as F.
pose proof (nearest_even_bounds k1) as B1.
pose proof (nearest_even_bounds k2) as B2.
destruct (Z.eq_dec (Qfloor k1) (Qfloor k2)) as [E|NE]; [|lia].
unfold Double.nearest_even. rewrite E.
destruct (Qcompare (k1 - inject_Z (Qfloor k2)) (1 # 2)) eqn:C1;
  destruct (Qcompare (k2 - inject_Z (Qfloor k2)) (1 # 2)) eqn:C2;
  try (destruct (Z.even (Qfloor k2))); try lia; exfalso;
  repeat match goal with
         | C : Qcompare _ _ = Eq |- _ => apply Qeq_alt in C
         | C : Qcompare _ _ = Lt |- _ => apply Qlt_alt in C
         | C : Qcompare _ _ = Gt |- _ => apply Qgt_alt in C
         end; lra.
Qed.

Lemma round_pos_mono (x y : Q) :
  0 < x -> x <= y -> Double.round_pos x <= Double.round_pos y.
Proof.
intros Hx Hxy. assert (Hy : 0 < y) by lra.
pose proof (ilog2_le x y Hx Hxy) as Le.
destruct (ilog2_spec x Hx) as [X1 X2]. destruct (ilog2_spec y Hy) as [Y1 Y2].
unfold Double.round_pos, Double.ulp_exponent.
set (ex := Double.ilog2 x) in *. set (ey := Double.ilog2 y) in *.
set (ux := Z.max (ex - 52) (-1074)). set (uy := Z.max (ey - 52) (-1074)).
assert (Hux : 0 < 2 ^ ux) by apply pow2_pos.
assert (Huy : 0 < 2 ^ uy) by apply pow2_pos.
destruct (Z.eq_dec ux uy) as [E|NE].
- rewrite <- E.
  assert (D : x / 2 ^ ux <= y / 2 ^ ux).
  { apply Qle_shift_div_l; [exact Hux|].
    assert (F : x / 2 ^ ux * 2 ^ ux == x) by (field; lra). lra. }
  apply nearest_even_mono in D. rewrite Zle_Qle in D.
  apply Qmult_le_compat_r; [exact D | lra].
- assert (U : (ux < uy)%Z) by lia.
  assert (Uy : uy = (ey - 52)%Z) by lia.
  assert (Lt : (ex + 1 <= ey)%Z) by lia.
  assert (G : (0 <= ey - ux)%Z) by lia.
  apply Qle_trans with (2 ^ ey).
  + assert (Bx : x / 2 ^ ux <= inject_Z (2 ^ (ey - ux))).
    { rewrite pow2_inject by exact G.
      assert (S : 2 ^ (ey - ux) == 2 ^ ey / 2 ^ ux)
        by (apply Qpower_minus; discriminate).
      rewrite S. apply Qle_shift_div_l; [exact Hux|].
      assert (F : x / 2 ^ ux * 2 ^ ux == x) by (field; lra).
      pose proof (pow2_le (ex + 1) ey Lt). lra. }
    apply nearest_even_mono in Bx. rewrite nearest_even_int in Bx.
    rewrite Zle_Qle in Bx. rewrite pow2_inject in Bx by exact G.
    assert (S : 2 ^ ey == 2 ^ (ey - ux) * 2 ^ ux).
    { rewrite <- pow2_plus. replace (ey - ux + ux)%Z with ey by ring.
      reflexivity. }
    rewrite S. apply Qmult_le_compat_r; [exact Bx | lra].
  + assert (By : inject_Z (2 ^ 52) <= y / 2 ^ uy).
    { rewrite pow2_inject by lia.
      assert (S : 2 ^ 52 == 2 ^ ey / 2 ^ uy).
      { rewrite <- Qpower_minus by discriminate.
        replace (ey - uy)%Z with 52%Z by lia. reflexivity. }
      rewrite S. apply Qle_shift_div_l; [exact Huy|].
      assert (F : 2 ^ ey / 2 ^ uy * 2 ^ uy == 2 ^ ey) by (field; lra).
      lra. }
    apply nearest_even_mono in By. rewrite nearest_even_int in By.
    rewrite Zle_Qle in By. rewrite pow2_inject in By by lia.
    assert (S : 2 ^ ey == 2 ^ 52 * 2 ^ uy).
    { rewrite <- pow2_plus. replace (52 + uy)%Z with ey by lia.
      reflexivity. }
    rewrite S. apply Qmult_le_compat_r; [exact By | lra].
Qed.

Lemma round_of_pos (x : Q) : 0 < x -> Double.round x = Double.round_pos x.
Proof.
intros Hx. unfold Double.round. destruct x as [[|p|p] d]; cbn [Qnum];
  try reflexivity; unfold Qlt in Hx; simpl in Hx; lia.
Qed.

(** Rounding keeps the order of positive numbers. *)
Lemma round_mono (x y : Q) :
  0 < x -> x <= y -> Double.round x <= Double.round y.
Proof.
intros Hx Hxy. rewrite !round_of_pos by lra. apply round_pos_mono; assumption.
Qed.

(** ** The correction of [dprime] in float arithmetic *)

Lemma rounded_dprime_rates_unfold (h f : Q) (n : Z) :
  Rounded.dprime_rates h f n =
  (h' <~ rounded_correct_one h n ;; f' <~ rounded_correct_one f n ;;
   Ok (h', f')).
Proof.
unfold Rounded.dprime_rates, rounded_correct_one.
generalize (Double.int_truediv 1 (2 * n)). intros d.
destruct d as [a| |]; cbn [rbind];
  repeat match goal with
         | |- context [Qeq_bool ?x ?y] => destruct (Qeq_bool x y); cbn [rbind]
         end; reflexivity.
Qed.

(** Below [2^53] trials the rounded [1/(2 n)] lies between the float next
    above [2^-54] and one half. *)
Lemma rounded_half_count_inverse (n : Z) :
  (1 <= n)%Z -> (n < 2 ^ 53)%Z ->
  exists q,
    Double.int_truediv 1 (2 * n) = Ok q /\
    Double.round (1 / inject_Z (2 * (2 ^ 53 - 1))) <= q /\
    q <= Double.round (1 # 2).
Proof.
intros H1 H2. unfold Double.int_truediv.
destruct (Z.eqb_spec (2 * n) 0) as [E|_]; [lia|].
eexists; split; [reflexivity|].
assert (A : 2 <= inject_Z (2 * n)).
{ change 2 with (inject_Z 2). rewrite <- Zle_Qle. lia. }
assert (B : inject_Z (2 * n) <= inject_Z (2 * (2 ^ 53 - 1))).
{ rewrite <- Zle_Qle. lia. }
set (a := inject_Z (2 * n)) in *. set (b := inject_Z (2 * (2 ^ 53 - 1))) in *.
assert (Hx : 0 < 1 / b).
{ apply Qlt_shift_div_l; lra. }
assert (Hxy : 1 / b <= inject_Z 1 / a).
{ change (inject_Z 1) with 1. apply Qle_shift_div_l; [lra|].
  assert (F : 1 / b * a == a / b) by (field; lra). rewrite F.
  apply Qle_shift_div_r; lra. }
split.
- apply round_mono; assumption.
- apply round_mono; [lra|]. change (inject_Z 1) with 1.
  apply Qle_shift_div_r; lra.
Qed.

Lemma rounded_correct_one_spec (r : Q) (n : Z) :
  (1 <= n)%Z -> (n < 2 ^ 53)%Z -> 0 <= r -> r <= 1 ->
  exists r', rounded_correct_one r n = Ok r' /\ 0 < r' /\ r' < 1.
Proof.
intros H1 H2 R0 R1.
destruct (rounded_half_count_inverse n H1 H2) as (q & Eq & Lo & Hi).
assert (C1 : 0 < Double.round (1 / inject_Z (2 * (2 ^ 53 - 1))))
  by (vm_compute; reflexivity).
assert (C2 : Double.round
               (1 - Double.round (1 / inject_Z (2 * (2 ^ 53 - 1)))) < 1)
  by (vm_compute; reflexivity).
assert (C3 : Double.round (1 # 2) <= 1 # 2)
  by (vm_compute; intros E; discriminate E).
assert (C4 : 0 < Double.round (1 # 2)) by (vm_compute; reflexivity).
set (c := Double.round (1 / inject_Z (2 * (2 ^ 53 - 1)))) in *.
unfold rounded_correct_one. rewrite Eq.
destruct (Qeq_bool r 1) eqn:E1; cbn [rbind].
- assert (Up : Double.sub 1 q <= Double.round (1 - c))
    by (apply round_mono; lra).
  assert (Dn : Double.round (1 # 2) <= Double.sub 1 q)
    by (apply round_mono; lra).
  assert (N0 : Qeq_bool (Double.sub 1 q) 0 = false)
    by (apply Qeq_bool_false_iff; lra).
  rewrite N0. eexists; split; [reflexivity|]. lra.
- apply Qeq_bool_false_iff in E1.
  destruct (Qeq_bool r 0) eqn:E0.
  + eexists; split; [reflexivity|]. lra.
  + apply Qeq_bool_false_iff in E0. eexists; split; [reflexivity|]. lra.
Qed.

(** C3, as stated, fails: with a hit rate of 1 and [2^53] trials the
    corrected rate [1 - 1/(2 N)] rounds to 1, and [dprime] returns plus
    infinity. *)
Lemma C3_counterexample :
  exists h f N h' f',
    0 <= h /\ h <= 1 /\ 0 <= f /\ f <= 1 /\ (1 <= N)%Z /\
    N = (2 ^ 53)%Z /\
    Rounded.dprime_rates h f N = Ok (h', f') /\ h' == 1 /\
    forall ndtri, Rounded.dprime ndtri h f N = Ok XPosInf.
Proof.
exists 1, 0, (2 ^ 53)%Z. do 2 eexists.
do 4 (split; [unfold Qle; simpl; lia|]).
split; [lia|]. split; [reflexivity|].
split; [vm_compute; reflexivity|].
split; [vm_compute; reflexivity|].
intros ndtri. vm_compute. reflexivity.
Qed.

(** C3, amended.  For every hit rate and false-alarm rate in [0,1] and
    every trial count N with 1 <= N < 2^53, [dprime] returns a finite
    value: both corrected rates lie strictly between 0 and 1. *)
Theorem C3_dprime_finite (ndtri : Q -> Q) (h f : Q) (N : Z) :
  0 <= h -> h <= 1 -> 0 <= f -> f <= 1 -> (1 <= N)%Z -> (N < 2 ^ 53)%Z ->
  exists h' f',
    Rounded.dprime_rates h f N = Ok (h', f') /\
    0 < h' /\ h' < 1 /\ 0 < f' /\ f' < 1 /\
    Rounded.dprime ndtri h f N = Ok (XFin (ndtri h' - ndtri f')).
Proof.
intros Hh0 Hh1 Hf0 Hf1 H1 H2.
destruct (rounded_correct_one_spec h N H1 H2 Hh0 Hh1) as (h' & Eh & Bh0 & Bh1).
destruct (rounded_correct_one_spec f N H1 H2 Hf0 Hf1) as (f' & Ef & Bf0 & Bf1).
exists h', f'.
assert (E : Rounded.dprime_rates h f N = Ok (h', f')).
{ rewrite rounded_dprime_rates_unfold, Eh, Ef. reflexivity. }
split; [exact E|]. repeat (split; [assumption|]).
unfold Rounded.dprime. rewrite E. cbn [rbind].
rewrite (norm_ppf_inside ndtri h' Bh0 Bh1), (norm_ppf_inside ndtri f' Bf0 Bf1).
reflexivity.
Qed.

(** The extreme input of the claim: hit rate 1, false-alarm rate 0, N = 1. *)
Lemma C3_dprime_finite_witness :
  exists h' f',
    Rounded.dprime_rates 1 0 1 = Ok (h', f') /\
    0 < h' /\ h' < 1 /\ 0 < f' /\ f' < 1 /\
    Rounded.dprime (fun q => q) 1 0 1 = Ok (XFin (h' - f')).
Proof.
apply (C3_dprime_finite (fun q => q) 1 0 1);
  try (unfold Qle; simpl; lia); reflexivity.
Defined.


(** C5. [signif_marker] of dprime_complete.py is two-tier: at p = 0.0005 it
    returns two stars and at p = 0.005 one star, where the three-tier scheme
    (and [signif_marker] of analyse.py) gives three and two. *)
Theorem C5_two_tier_marker :
  DprimeComplete.signif_marker (5 # 10000) = "**" /\
  Analyse.signif_marker (5 # 10000) = "***" /\
  ~ three_tier (5 # 10000) (DprimeComplete.signif_marker (5 # 10000)) /\
  DprimeComplete.signif_marker (5 # 1000) = "*" /\
  Analyse.signif_marker (5 # 1000) = "**" /\
  ~ three_tier (5 # 1000) (DprimeComplete.signif_marker (5 # 1000)).
Proof.
repeat split; try reflexivity.
- intros (H & _). assert (L : 5 # 10000 < 1 # 1000) by (unfold Qlt; simpl; lia).
  specialize (H L). vm_compute in H. discriminate.
- intros (_ & H & _).
  assert (L : 1 # 1000 <= 5 # 1000 /\ 5 # 1000 < 1 # 100)
    by (unfold Qlt, Qle; simpl; lia).
  specialize (H L). vm_compute in H. discriminate.
Qed.

(** C10. For rates strictly between 0 and 1, [dprime] returns the same
    value for every two trial counts n, m >= 1; more generally the trial
    count has no influence unless one of the rates is exactly 0 or 1. *)
Theorem C10_trial_count_irrelevant (ndtri : Q -> Q) (h f : Q) :
  (0 < h -> h < 1 -> 0 < f -> f < 1 ->
   forall n m : Z, (1 <= n)%Z -> (1 <= m)%Z ->
     Analyse.dprime ndtri h f n = Analyse.dprime ndtri h f m /\
     DprimeComplete.dprime ndtri h f n = DprimeComplete.dprime ndtri h f m) /\
  (~ h == 0 -> ~ h == 1 -> ~ f == 0 -> ~ f == 1 ->
   forall n m : Z,
     Analyse.dprime ndtri h f n = Analyse.dprime ndtri h f m /\
     DprimeComplete.dprime ndtri h f n = DprimeComplete.dprime ndtri h f m).
Proof.
assert (G : ~ h == 0 -> ~ h == 1 -> ~ f == 0 -> ~ f == 1 ->
            forall n m : Z,
              Analyse.dprime ndtri h f n = Analyse.dprime ndtri h f m).
{ intros Hh0 Hh1 Hf0 Hf1 n m. unfold Analyse.dprime.
  rewrite !dprime_rates_unfold.
  rewrite !(correct_one_inside h _ Hh1 Hh0), !(correct_one_inside f _ Hf1 Hf0).
  reflexivity. }
split.
- intros Hh0 Hh1 Hf0 Hf1 n m _ _. rewrite dprime_same.
  split; apply G; lra.
- intros Hh0 Hh1 Hf0 Hf1 n m. rewrite dprime_same. split; apply G; assumption.
Qed.

Lemma C10_trial_count_irrelevant_witness :
  Analyse.dprime (fun q => q) (6 # 7) (2 # 7) 7
    = Analyse.dprime (fun q => q) (6 # 7) (2 # 7) 100 /\
  DprimeComplete.dprime (fun q => q) (6 # 7) (2 # 7) 7
    = DprimeComplete.dprime (fun q => q) (6 # 7) (2 # 7) 100.
Proof.
apply (proj1 (C10_trial_count_irrelevant (fun q => q) (6 # 7) (2 # 7)));
  unfold Qlt; simpl; lia.
Defined.

(** * Properties of the trial-list generators *)

(** ** Reasoning about generator runs *)

Lemma bind_ok {A B : Type} (m : M A) (k : A -> M B) (s : rng) (b : B) (s' : rng) :
  bind m k s = Ok (b, s') ->
  exists a s1, m s = Ok (a, s1) /\ k a s1 = Ok (b, s').
Proof.
unfold bind. destruct (m s) as [[a s1]| |]; try discriminate. eauto.
Qed.

Lemma ret_ok {A : Type} (a b : A) (s s' : rng) :
  ret a s = Ok (b, s') -> b = a /\ s' = s.
Proof. unfold ret. intros H. inversion H. auto. Qed.

Ltac mstep H :=
  let a := fresh "a" in
  let s := fresh "s" in
  let E := fresh "E" in
  apply bind_ok in H as (a & s & E & H).

Ltac mret H := apply ret_ok in H as [? ?]; subst.

Lemma guard_ok (c : bool) (u : unit) (s s' : rng) :
  (if c then core_quit else ret tt) s = Ok (u, s') -> c = false /\ s' = s.
Proof.
destruct c; [discriminate|]. intros H. mret H. auto.
Qed.

Lemma try_quit_ok {A : Type} (body : M A) (s : rng) (r : A * rng) :
  try_except_FileNotFoundError body core_quit s = Ok r -> body s = Ok r.
Proof.
unfold try_except_FileNotFoundError. destruct (body s) as [x|e|]; try discriminate.
- auto.
- destruct e; discriminate.
Qed.

Lemma randbelow_ok (n : nat) (s : rng) (i : nat) (s' : rng) :
  n <> O -> randbelow n s = Ok (i, s') -> (i < n)%nat.
Proof.
intros Hn H. unfold randbelow in H. injection H as Hi _.
rewrite <- Hi. apply Nat.mod_upper_bound. assumption.
Qed.

Lemma choice_ok {A : Type} (l : list A) (s : rng) (x : A) (s' : rng) :
  choice l s = Ok (x, s') -> In x l.
Proof.
destruct l as [|a l]; [discriminate|]. unfold choice. intros H.
mstep H. mret H. apply randbelow_ok in E; [|discriminate].
apply nth_In. assumption.
Qed.

Lemma choices_ok {A : Type} (l : list A) (k : nat) (s : rng) (xs : list A) (s' : rng) :
  choices l k s = Ok (xs, s') -> Forall (fun x => In x l) xs /\ List.length xs = k.
Proof.
revert s xs s'. induction k as [|k IH]; intros s xs s' H; simpl in H.
- mret H. auto.
- mstep H. mstep H. mret H. apply choice_ok in E.
  destruct (IH _ _ _ E0) as [F L]. split; [constructor; assumption | simpl; congruence].
Qed.

Lemma while_equal_ok (redraw : M string) (fixed : string) (fuel : nat) :
  forall (var : string) (s : rng) (v : string) (s' : rng),
    while_equal fuel fixed var redraw s = Ok (v, s') -> v <> fixed.
Proof.
induction fuel as [|k IH]; intros var s v s' H; simpl in H;
  destruct (String.eqb var fixed) eqn:E.
- discriminate.
- mret H. apply String.eqb_neq. assumption.
- mstep H. eapply IH; eauto.
- mret H. apply String.eqb_neq. assumption.
Qed.

(** *** [random.shuffle] returns a permutation *)

Lemma upd_perm {A : Type} (v a : A) :
  forall (l : list A) (i : nat),
    nth_error l i = Some a -> Permutation (v :: l) (a :: upd l i v).
Proof.
induction l as [|x l IH]; intros i H.
- destruct i; discriminate.
- destruct i as [|i]; simpl in *.
  + inversion H; subst. apply perm_swap.
  + apply IH in H.
    apply perm_trans with (x :: v :: l); [apply perm_swap|].
    apply perm_trans with (x :: a :: upd l i v); [apply perm_skip; assumption|].
    apply perm_swap.
Qed.

Lemma nth_error_upd_keeps {A : Type} (b : A) :
  forall (l : list A) (i j : nat),
    nth_error l j = Some b -> nth_error (upd l i b) j = Some b.
Proof.
induction l as [|x l IH]; intros i j H.
- destruct j; discriminate.
- destruct i as [|i], j as [|j]; simpl in *; auto.
Qed.

Lemma swap_perm {A : Type} (l : list A) (i j : nat) : Permutation (swap l i j) l.
Proof.
unfold swap.
destruct (nth_error l i) as [a|] eqn:Ei; [|reflexivity].
destruct (nth_error l j) as [b|] eqn:Ej; [|reflexivity].
pose proof (upd_perm b a l i Ei) as P1.
pose proof (nth_error_upd_keeps b l i j Ej) as Ej'.
pose proof (upd_perm a b (upd l i b) j Ej') as P2.
symmetry. apply Permutation_cons_inv with (a := b).
eapply perm_trans; eassumption.
Qed.

Lemma shuffle_down_ok {A : Type} (i : nat) :
  forall (x : list A) (s : rng),
    exists x' s', shuffle_down i x s = Ok (x', s') /\ Permutation x x'.
Proof.
induction i as [|i IH]; intros x s; simpl.
- exists x, s. split; reflexivity.
- unfold bind, randbelow.
  destruct (IH (swap x (S i) (Nat.modulo (draws s (cursor s)) (S (S i))))
               (mkRng (draws s) (S (cursor s)))) as (x' & s' & E & P).
  exists x', s'. split; [exact E|].
  eapply perm_trans; [symmetry; apply swap_perm | exact P].
Qed.

Lemma shuffle_total {A : Type} (x : list A) (s : rng) :
  exists x' s', shuffle x s = Ok (x', s') /\ Permutation x x'.
Proof. apply shuffle_down_ok. Qed.

Lemma shuffle_ok {A : Type} (x x' : list A) (s s' : rng) :
  shuffle x s = Ok (x', s') -> Permutation x x'.
Proof.
intros H. destruct (shuffle_total x s) as (y & t & E & P).
rewrite E in H. inversion H; subst. exact P.
Qed.

(** *** Loops *)

Lemma for_each_inv {A S : Type} (I : S -> Prop) (body : S -> A -> M S) :
  forall xs : list A,
    (forall acc x s acc' s',
        In x xs -> I acc -> body acc x s = Ok (acc', s') -> I acc') ->
    forall acc s r s',
      I acc -> for_each xs body acc s = Ok (r, s') -> I r.
Proof.
induction xs as [|x xs IH]; intros Hb acc s r s' Hi H; simpl in H.
- mret H. assumption.
- mstep H. eapply IH; [| |exact H].
  + intros; eapply Hb; eauto. right; assumption.
  + eapply Hb; eauto. left; reflexivity.
Qed.

Lemma for_append_spec {A T : Type} (body : A -> M (list T)) :
  forall (xs : list A) (lst : list T) (s : rng) (r : list T) (s' : rng),
    for_append xs body lst s = Ok (r, s') ->
    exists tss,
      r = (lst ++ List.concat tss)%list /\
      Forall2 (fun x ts => exists s1 s2, body x s1 = Ok (ts, s2)) xs tss.
Proof.
unfold for_append.
induction xs as [|x xs IH]; intros lst s r s' H; simpl in H.
- mret H. exists []. simpl. rewrite app_nil_r. auto.
- mstep H. mstep E. mret E.
  destruct (IH _ _ _ _ H) as (tss & -> & F).
  exists (a0 :: tss). split.
  + simpl. rewrite app_assoc. reflexivity.
  + constructor; eauto.
Qed.

Lemma for_append_forall {A T : Type} (P : T -> Prop) (body : A -> M (list T))
  (xs : list A) (lst : list T) (s : rng) (r : list T) (s' : rng) :
  (forall x s1 ts s2, body x s1 = Ok (ts, s2) -> Forall P ts) ->
  Forall P lst ->
  for_append xs body lst s = Ok (r, s') -> Forall P r.
Proof.
intros Hb Hl H. apply for_append_spec in H as (tss & -> & F).
apply Forall_app. split; [assumption|].
induction F as [|x ts xs tss (s1 & s2 & E) F IH]; simpl; [constructor|].
apply Forall_app. split; [eapply Hb; eauto | assumption].
Qed.

(** ** forced_choice.py and gemini_code_v1.py redraw until the masks differ *)

Lemma fc_trial_body_ok (fuel : nat) (prime_list : list ForcedChoice.prime)
  (words babbling masks : list string) (i : nat) (s : rng)
  (ts : list ForcedChoice.trial) (s' : rng) :
  ForcedChoice.trial_body fuel prime_list words babbling masks i s = Ok (ts, s') ->
  Forall fc_separated ts.
Proof.
unfold ForcedChoice.trial_body. intros H.
mstep H. mstep H. mstep H.
destruct (nth_error prime_list i) as [entry|]; [|discriminate].
mstep H. mstep H. mstep H. mret H.
constructor; [|constructor]. split; simpl.
- eapply while_equal_ok; eauto.
- eapply while_equal_ok; eauto.
Qed.

Lemma fc_generate_ok (fuel : nat) (fs : filesystem) (base_dir : string)
  (s : rng) (trials : list ForcedChoice.trial) (s' : rng) :
  ForcedChoice.generate_trial_list fuel fs base_dir s = Ok (trials, s') ->
  Forall fc_separated trials.
Proof.
unfold ForcedChoice.generate_trial_list. intros H.
mstep H. destruct a as [[[[pos neg] neu] b] m].
mstep H. mstep H. mstep H. mstep H. mstep H. mstep H. mstep H. mstep H.
mret H.
apply shuffle_ok in E7.
eapply Permutation_Forall; [exact E7|].
eapply for_append_forall; [| |exact E6]; [|constructor].
intros ? ? ? ? Hb. eapply fc_trial_body_ok; eauto.
Qed.

Lemma gemini_masks_differ (mask_files : list string) (s : rng)
  (m1 m2 : string) (s' : rng) :
  Gemini.run_trial_masks mask_files s = Ok ((m1, m2), s') -> m2 <> m1.
Proof.
unfold Gemini.run_trial_masks. intros H.
mstep H. mstep H. apply ret_ok in H as [Hp _]. inversion Hp; subst.
apply choice_ok in E0. apply filter_In in E0 as [_ N].
apply negb_true_iff in N. apply String.eqb_neq. assumption.
Qed.

(** ** The stratified generators *)

Lemma detection_is_stratified (fs : filesystem) (base_dir : string) :
  DPrimeDetection.generate_trial_lists fs base_dir =
  stratified_generate DPrimeDetection.COMPRESSION_LEVELS
    DPrimeDetection.N_PRACTICE_REPS_PER_LEVEL DPrimeDetection.N_MAIN_REPS_PER_LEVEL
    (fun b m level => DPrimeDetection.trial_pair level b m) fs base_dir.
Proof. reflexivity. Qed.

Lemma typing_is_stratified (fs : filesystem) (base_dir : string) :
  MainTyping.generate_trial_lists fs base_dir =
  stratified_generate MainTyping.COMPRESSION_LEVELS
    MainTyping.N_PRACTICE_WORDS_PER_FOLDER MainTyping.N_MAIN_WORDS_PER_FOLDER
    (fun b m level => MainTyping.word_trial level b m) fs base_dir.
Proof. reflexivity. Qed.

Lemma bind_raise {A B : Type} (m : M A) (k : A -> M B) (s : rng) (e : exn) :
  m s = Raise e -> bind m k s = Raise e.
Proof. unfold bind. intros ->. reflexivity. Qed.

Lemma bind_step {A B : Type} (m : M A) (k : A -> M B) (s s1 : rng) (a : A) :
  m s = Ok (a, s1) -> bind m k s = k a s1.
Proof. unfold bind. intros ->. reflexivity. Qed.

Lemma roq_ret {A : Type} (a : A) : returns_or_quits (ret a).
Proof. intros s. left. exists a, s. reflexivity. Qed.

Lemma roq_quit {A : Type} : returns_or_quits (@core_quit A).
Proof. intros s. right. reflexivity. Qed.

Lemma roq_bind {A B : Type} (m : M A) (k : A -> M B) :
  returns_or_quits m -> (forall a, returns_or_quits (k a)) ->
  returns_or_quits (bind m k).
Proof.
intros Hm Hk s. destruct (Hm s) as [(a & s1 & E)|E].
- rewrite (bind_step _ _ _ _ _ E). apply Hk.
- right. apply bind_raise. assumption.
Qed.

Lemma roq_guard (c : bool) :
  returns_or_quits (if c then core_quit else ret tt).
Proof. destruct c; [apply roq_quit | apply roq_ret]. Qed.

Lemma roq_shuffle {A : Type} (x : list A) : returns_or_quits (shuffle x).
Proof.
intros s. left. destruct (shuffle_total x s) as (x' & s' & E & _). eauto.
Qed.

Lemma roq_choice {A : Type} (l : list A) : l <> [] -> returns_or_quits (choice l).
Proof.
intros Hl s. left. destruct l as [|a l]; [contradiction|].
unfold choice, bind, randbelow, ret. eauto.
Qed.

Lemma roq_listing (fs : filesystem) (d : string) :
  returns_or_quits
    (try_except_FileNotFoundError
       (l <- listdir fs d ;; ret (filter (fun f => negb (startswith f ".")) l))
       core_quit).
Proof.
intros s. unfold try_except_FileNotFoundError, listdir, bind.
destruct (fs d) as [l|]; cbn; [left; eauto | right; reflexivity].
Qed.

Lemma roq_for_each {A S : Type} (body : S -> A -> M S) (xs : list A) :
  (forall acc x, returns_or_quits (body acc x)) ->
  forall acc, returns_or_quits (for_each xs body acc).
Proof.
intros Hb. induction xs as [|x xs IH]; intros acc; simpl.
- apply roq_ret.
- apply roq_bind; auto.
Qed.

Lemma roq_for_append {A T : Type} (body : A -> M (list T)) (xs : list A)
  (lst : list T) :
  (forall x, returns_or_quits (body x)) ->
  returns_or_quits (for_append xs body lst).
Proof.
intros Hb. unfold for_append. apply roq_for_each.
intros acc x. apply roq_bind; [apply Hb | intros; apply roq_ret].
Qed.

(** A loop one of whose iterations always quits, quits. *)
Lemma for_each_quits {A S : Type} (body : S -> A -> M S) (x0 : A) :
  (forall acc x, returns_or_quits (body acc x)) ->
  (forall acc s, body acc x0 s = Raise SystemExit) ->
  forall xs, In x0 xs ->
  forall acc s, for_each xs body acc s = Raise SystemExit.
Proof.
intros Hb H0. induction xs as [|x xs IH]; intros Hin acc s; [contradiction|].
simpl. destruct (Hb acc x s) as [(acc' & s' & E)|E].
- rewrite (bind_step _ _ _ _ _ E).
  destruct Hin as [->|Hin].
  + rewrite H0 in E. discriminate.
  + apply IH. assumption.
- apply bind_raise. assumption.
Qed.

Lemma for_each_inv_prefix {A S : Type} (I : list A -> S -> Prop)
  (body : S -> A -> M S) :
  (forall pre x acc s acc' s',
      ~ In x pre -> I pre acc -> body acc x s = Ok (acc', s') ->
      I (pre ++ [x])%list acc') ->
  forall xs pre acc s r s',
    NoDup (pre ++ xs) -> I pre acc ->
    for_each xs body acc s = Ok (r, s') -> I (pre ++ xs)%list r.
Proof.
intros Hb. induction xs as [|x xs IH]; intros pre acc s r s' Hnd Hi H; simpl in H.
- mret H. rewrite app_nil_r. assumption.
- mstep H.
  replace (pre ++ x :: xs)%list with ((pre ++ [x]) ++ xs)%list
    by (rewrite <- app_assoc; reflexivity).
  eapply IH; [| |exact H].
  + rewrite <- app_assoc. exact Hnd.
  + eapply Hb; eauto.
    apply NoDup_remove_2 in Hnd. intros Hin. apply Hnd.
    apply in_or_app. left. assumption.
Qed.

Section Stratified.

Context {T : Type}.
Variable trials_of : list string -> list string -> string -> string -> M (list T).

(** *** Too few files in a folder end the run *)

Section Quits.

Hypothesis trials_total :
  forall b m level f, b <> [] -> m <> [] ->
    returns_or_quits (trials_of b m level f).

Lemma level_body_roq (b m : list string) (n_practice : nat) (fs : filesystem)
  (audio_dir : string) (needed : nat) (lists : list T * list T) (level : string) :
  b <> [] -> m <> [] ->
  returns_or_quits
    (stratified_level_body (trials_of b m) n_practice fs audio_dir needed
       lists level).
Proof.
intros Hb Hm. destruct lists as [p q]. unfold stratified_level_body.
apply roq_bind; [apply roq_listing | intros files].
apply roq_bind; [apply roq_guard | intros _].
apply roq_bind; [apply roq_shuffle | intros files'].
apply roq_bind; [apply roq_for_append; intros; apply trials_total; assumption
                | intros p'].
apply roq_bind; [apply roq_for_append; intros; apply trials_total; assumption
                | intros q'].
apply roq_ret.
Qed.

Lemma level_body_short (tr : string -> string -> M (list T)) (n_practice : nat)
  (fs : filesystem) (audio_dir : string) (needed : nat) (level : string)
  (l : list string) :
  fs (path_join audio_dir level) = Some l ->
  (List.length (usable_files l) < needed)%nat ->
  forall lists s,
    stratified_level_body tr n_practice fs audio_dir needed lists level s
    = Raise SystemExit.
Proof.
intros Hfs Hlen [p q] s. unfold stratified_level_body.
rewrite (bind_step _ _ s s (usable_files l)).
- apply bind_raise. apply Nat.ltb_lt in Hlen.
  fold (usable_files l). rewrite Hlen. reflexivity.
- unfold try_except_FileNotFoundError, listdir, bind. rewrite Hfs. reflexivity.
Qed.

Lemma roq_two_listings (fs : filesystem) (d1 d2 : string) :
  returns_or_quits
    (try_except_FileNotFoundError
       (b <- (l <- listdir fs d1 ;;
              ret (filter (fun f => negb (startswith f ".")) l)) ;;
        m <- (l <- listdir fs d2 ;;
              ret (filter (fun f => negb (startswith f ".")) l)) ;;
        ret (b, m))
       core_quit).
Proof.
intros s. unfold try_except_FileNotFoundError, listdir, bind.
destruct (fs d1) as [l1|]; cbn; [|right; reflexivity].
destruct (fs d2) as [l2|]; cbn; [left; eauto | right; reflexivity].
Qed.

Lemma is_empty_false {A : Type} (l : list A) : is_empty l = false -> l <> [].
Proof. destruct l; [discriminate | discriminate]. Qed.

Lemma stratified_short_quits (levels : list string) (n_practice n_main : nat)
  (fs : filesystem) (base_dir level : string) (l : list string) :
  In level levels ->
  fs (path_join (path_join base_dir "audio") level) = Some l ->
  (List.length (usable_files l) < n_practice + n_main)%nat ->
  forall s,
    stratified_generate levels n_practice n_main trials_of fs base_dir s
    = Raise SystemExit.
Proof.
intros Hin Hfs Hlen s. unfold stratified_generate.
destruct (roq_two_listings fs (path_join base_dir "babbling")
            (path_join base_dir "masks") s) as [([b m] & s1 & E)|E];
  [|apply bind_raise; assumption].
rewrite (bind_step _ _ _ _ _ E).
destruct (is_empty b || is_empty m) eqn:Em; [reflexivity|].
apply orb_false_iff in Em as [Eb Emk].
apply is_empty_false in Eb. apply is_empty_false in Emk.
rewrite (bind_step _ _ s1 s1 tt) by reflexivity.
apply bind_raise.
apply for_each_quits with (x0 := level).
- intros acc x. apply level_body_roq; assumption.
- intros acc s2. eapply level_body_short; eassumption.
- assumption.
Qed.

End Quits.

(** *** No prime file is used twice within a stratum *)

Section NoReuse.

Variable lvl : T -> string.
Variable prime : T -> option string.

Hypothesis trials_spec :
  forall b m level f s ts s',
    trials_of b m level f s = Ok (ts, s') ->
    Forall (fun t => lvl t = level) ts /\
    flat_map (fun t => match prime t with Some g => [g] | None => [] end) ts = [f].

Lemma pis_app (level : string) (a b : list T) :
  primes_in_stratum lvl prime level (a ++ b)%list = (primes_in_stratum lvl prime level a ++ primes_in_stratum lvl prime level b)%list.
Proof. apply flat_map_app. Qed.

Lemma pis_one_level (x level : string) (ts : list T) :
  Forall (fun t => lvl t = x) ts ->
  primes_in_stratum lvl prime level ts =
  if String.eqb x level
  then flat_map (fun t => match prime t with Some g => [g] | None => [] end) ts
  else [].
Proof.
induction 1 as [|t ts Ht _ IH]; simpl.
- destruct (String.eqb x level); reflexivity.
- rewrite IH, Ht. destruct (String.eqb x level); reflexivity.
Qed.

Lemma pis_new (b m : list string) (x level : string) (files : list string)
  (tss : list (list T)) :
  Forall2 (fun f ts => exists s1 s2, trials_of b m x f s1 = Ok (ts, s2)) files tss ->
  Forall (fun t => lvl t = x) (List.concat tss) /\
  primes_in_stratum lvl prime level (List.concat tss) = if String.eqb x level then files else [].
Proof.
induction 1 as [|f ts files tss (s1 & s2 & E) _ [IHa IHb]]; simpl.
- split; [constructor | destruct (String.eqb x level); reflexivity].
- destruct (trials_spec _ _ _ _ _ _ _ E) as [Hl Hp]. split.
  + apply Forall_app. split; assumption.
  + rewrite pis_app, IHb, (pis_one_level x level ts Hl), Hp.
    destruct (String.eqb x level); reflexivity.
Qed.

Lemma pis_absent (pre : list string) (x : string) (l : list T) :
  Forall (fun t => In (lvl t) pre) l -> ~ In x pre -> primes_in_stratum lvl prime x l = [].
Proof.
intros F Hx. induction F as [|t l Ht _ IH]; simpl; [reflexivity|].
rewrite IH. destruct (String.eqb (lvl t) x) eqn:E; [|reflexivity].
apply String.eqb_eq in E. subst. contradiction.
Qed.

Lemma slices_nodup (files : list string) (a n : nat) :
  NoDup files -> NoDup (slice files 0 a ++ slice files a (a + n)).
Proof.
intros Hnd. unfold slice. rewrite skipn_O.
replace (firstn a files) with (firstn a (firstn (a + n) files))
  by (rewrite firstn_firstn; f_equal; lia).
rewrite firstn_skipn.
rewrite <- (firstn_skipn (a + n) files) in Hnd.
apply NoDup_app_remove_r in Hnd. assumption.
Qed.

Lemma level_body_no_reuse (b m : list string) (n_practice n_main : nat)
  (fs : filesystem) (audio_dir : string) :
  fs_distinct fs ->
  forall pre x acc s acc' s',
    ~ In x pre -> no_reuse lvl prime pre acc ->
    stratified_level_body (trials_of b m) n_practice fs audio_dir
      (n_practice + n_main) acc x s = Ok (acc', s') ->
    no_reuse lvl prime (pre ++ [x]) acc'.
Proof.
intros Hfs pre x [p q] s acc' s' Hx (Fp & Fq & Hnd) H.
simpl in Fp, Fq, Hnd. unfold stratified_level_body in H.
mstep H. mstep H. mstep H. mstep H. mstep H. mret H.
apply try_quit_ok in E. mstep E. mret E.
unfold listdir in E4. destruct (fs (path_join audio_dir x)) as [l|] eqn:El;
  [|discriminate].
mret E4.
assert (Nl : NoDup (filter (fun f => negb (startswith f ".")) l))
  by (apply NoDup_filter; eapply Hfs; eassumption).
apply shuffle_ok in E1.
pose proof (Permutation_NoDup E1 Nl) as Na1.
apply for_append_spec in E2 as (tssp & -> & F2p).
apply for_append_spec in E3 as (tssq & -> & F2q).
assert (Weak : forall l0, Forall (fun t => In (lvl t) pre) l0 ->
                          Forall (fun t => In (lvl t) (pre ++ [x])%list) l0).
{ intros l0 F. eapply Forall_impl; [|exact F]. intros t Ht.
  apply in_or_app. left. assumption. }
assert (New : forall l0, Forall (fun t => lvl t = x) l0 ->
                         Forall (fun t => In (lvl t) (pre ++ [x])%list) l0).
{ intros l0 F. eapply Forall_impl; [|exact F]. intros t Ht.
  apply in_or_app. right. left. symmetry. assumption. }
split; [|split]; simpl.
- apply Forall_app. split; [auto|]. apply New.
  apply (proj1 (pis_new b m x x _ _ F2p)).
- apply Forall_app. split; [auto|]. apply New.
  apply (proj1 (pis_new b m x x _ _ F2q)).
- intros level. rewrite !pis_app.
  rewrite (proj2 (pis_new b m x level _ _ F2p)).
  rewrite (proj2 (pis_new b m x level _ _ F2q)).
  destruct (String.eqb x level) eqn:Exl.
  + apply String.eqb_eq in Exl. subst level.
    rewrite (pis_absent pre x p Fp Hx), (pis_absent pre x q Fq Hx). simpl.
    apply slices_nodup. assumption.
  + rewrite !app_nil_r. apply Hnd.
Qed.

Lemma stratified_no_reuse (levels : list string) (n_practice n_main : nat)
  (fs : filesystem) (base_dir : string) (s : rng)
  (practice main : list T) (s' : rng) :
  fs_distinct fs -> NoDup levels ->
  stratified_generate levels n_practice n_main trials_of fs base_dir s
    = Ok ((practice, main), s') ->
  forall level, NoDup (primes_in_stratum lvl prime level (practice ++ main)).
Proof.
intros Hfs Hlv H level. unfold stratified_generate in H.
mstep H. destruct a as [b m]. mstep H. mstep H. destruct a0 as [p q].
mstep H. mstep H. apply ret_ok in H as [Hp _]. inversion Hp; subst. clear Hp.
assert (Init : no_reuse lvl prime [] (@nil T, @nil T))
  by (repeat split; simpl; constructor).
pose proof (for_each_inv_prefix (no_reuse lvl prime) _
              (level_body_no_reuse b m n_practice n_main fs _ Hfs)
              levels [] ([], []) _ _ _ Hlv Init E1) as Inv.
simpl in Inv.
destruct Inv as (_ & _ & Hnd). simpl in Hnd.
apply shuffle_ok in E2. apply shuffle_ok in E3.
rewrite pis_app.
eapply Permutation_NoDup; [|apply (Hnd level)].
apply Permutation_app; unfold primes_in_stratum;
  apply Permutation_flat_map; assumption.
Qed.

End NoReuse.

End Stratified.

(** *** The two instances *)

Lemma trial_pair_total (b m : list string) (level f : string) :
  b <> [] -> m <> [] ->
  returns_or_quits (DPrimeDetection.trial_pair level b m f).
Proof.
intros Hb Hm. unfold DPrimeDetection.trial_pair,
  DPrimeDetection.present_trial, DPrimeDetection.absent_trial.
repeat (apply roq_bind; [|intros ?]);
  try (apply roq_choice; assumption); apply roq_ret.
Qed.

Lemma word_trial_total (b m : list string) (level f : string) :
  b <> [] -> m <> [] ->
  returns_or_quits (MainTyping.word_trial level b m f).
Proof.
intros Hb Hm. unfold MainTyping.word_trial.
repeat (apply roq_bind; [|intros ?]);
  try (apply roq_choice; assumption); apply roq_ret.
Qed.

Lemma trial_pair_spec (b m : list string) (level f : string) (s : rng)
  (ts : list DPrimeDetection.trial) (s' : rng) :
  DPrimeDetection.trial_pair level b m f s = Ok (ts, s') ->
  Forall (fun t => DPrimeDetection.compression_level t = level) ts /\
  flat_map (fun t => match detection_prime t with Some g => [g] | None => [] end) ts
  = [f].
Proof.
unfold DPrimeDetection.trial_pair, DPrimeDetection.present_trial,
  DPrimeDetection.absent_trial. intros H.
mstep H. mstep H. mret H.
mstep E. mstep E. mstep E. mret E.
mstep E0. mstep E0. mstep E0. mret E0.
split; [repeat constructor | reflexivity].
Qed.

Lemma word_trial_spec (b m : list string) (level f : string) (s : rng)
  (ts : list MainTyping.trial) (s' : rng) :
  MainTyping.word_trial level b m f s = Ok (ts, s') ->
  Forall (fun t => MainTyping.compression_level t = level) ts /\
  flat_map (fun t => match typing_prime t with Some g => [g] | None => [] end) ts
  = [f].
Proof.
unfold MainTyping.word_trial. intros H.
mstep H. mstep H. mstep H. mret H.
split; [repeat constructor | reflexivity].
Qed.

Lemma detection_primes_eq (level : string) (l : list DPrimeDetection.trial) :
  detection_primes level l =
  primes_in_stratum DPrimeDetection.compression_level detection_prime level l.
Proof.
unfold detection_primes, primes_in_stratum, detection_prime.
induction l as [|t l IH]; simpl; [reflexivity|].
destruct (String.eqb (DPrimeDetection.signal_type t) "present");
  destruct (String.eqb (DPrimeDetection.compression_level t) level);
  simpl; rewrite IH; reflexivity.
Qed.

Lemma typing_primes_eq (level : string) (l : list MainTyping.trial) :
  typing_primes level l =
  primes_in_stratum MainTyping.compression_level typing_prime level l.
Proof.
unfold typing_primes, primes_in_stratum, typing_prime.
induction l as [|t l IH]; simpl; [reflexivity|].
destruct (String.eqb (MainTyping.compression_level t) level);
  simpl; rewrite IH; reflexivity.
Qed.

Lemma detection_levels_distinct : NoDup DPrimeDetection.COMPRESSION_LEVELS.
Proof.
unfold DPrimeDetection.COMPRESSION_LEVELS.
repeat (constructor; [simpl; intuition discriminate|]). constructor.
Qed.

Lemma typing_levels_distinct : NoDup MainTyping.COMPRESSION_LEVELS.
Proof.
unfold MainTyping.COMPRESSION_LEVELS.
repeat (constructor; [simpl; intuition discriminate|]). constructor.
Qed.

Lemma nodup_app_disjoint {A : Type} (a b : list A) :
  NoDup (a ++ b) -> forall x, In x a -> ~ In x b.
Proof.
induction a as [|y a IH]; intros Hnd x Hin; [contradiction|].
simpl in Hnd. inversion Hnd as [|? ? Hy Hnd']; subst.
destruct Hin as [->|Hin].
- intros Hb. apply Hy. apply in_or_app. right. assumption.
- apply IH; assumption.
Qed.

Lemma example_words_distinct : NoDup example_words.
Proof.
unfold example_words.
repeat (constructor; [simpl; intuition discriminate|]). constructor.
Qed.

Lemma detection_fs_distinct : fs_distinct detection_fs.
Proof.
intros d l. unfold detection_fs.
destruct (String.eqb d "exp/babbling").
{ intros H. inversion H; subst.
  repeat (constructor; [simpl; intuition discriminate|]). constructor. }
destruct (String.eqb d "exp/masks").
{ intros H. inversion H; subst.
  repeat (constructor; [simpl; intuition discriminate|]). constructor. }
destruct (existsb _ _); [|discriminate].
intros H. inversion H; subst. apply example_words_distinct.
Qed.

(** ** Claims on the generators *)

(** C6. [generate_trial_lists] of d-prime_detection.py and of
    main_typing_experiment.py draw the two masks independently: on the
    example folder (three mask files) and the example oracle, each returns
    lists holding a trial whose two masks are the same file. *)
Theorem C6_masks_can_coincide :
  (exists practice main s',
      DPrimeDetection.generate_trial_lists detection_fs "exp" example_rng
        = Ok ((practice, main), s') /\
      exists t, In t (practice ++ main) /\
                DPrimeDetection.mask2_file t = DPrimeDetection.mask1_file t) /\
  (exists practice main s',
      MainTyping.generate_trial_lists detection_fs "exp" example_rng
        = Ok ((practice, main), s') /\
      exists t, In t (practice ++ main) /\
                MainTyping.mask2_file t = MainTyping.mask1_file t).
Proof.
split.
- do 3 eexists. split; [vm_compute; reflexivity|].
  eexists. split; [left; reflexivity | reflexivity].
- do 3 eexists. split; [vm_compute; reflexivity|].
  eexists. split; [right; left; reflexivity | reflexivity].
Qed.

(** C7. Every trial of a list returned by [generate_trial_list] of
    forced_choice.py has a distractor word different from its correct word
    (a list is returned only when the master word list has at least two
    distinct words). *)
Theorem C7_distractor_differs (fuel : nat) (fs : filesystem) (base_dir : string)
  (s : rng) (trials : list ForcedChoice.trial) (s' : rng) :
  ForcedChoice.generate_trial_list fuel fs base_dir s = Ok (trials, s') ->
  Forall (fun t => ForcedChoice.distractor_word t <> ForcedChoice.correct_word t)
         trials.
Proof.
intros H. apply fc_generate_ok in H.
eapply Forall_impl; [|exact H]. intros t [Hd _]. exact Hd.
Qed.

Lemma C7_distractor_differs_witness :
  exists trials s',
    ForcedChoice.generate_trial_list 5 forced_choice_fs "exp" example_rng
      = Ok (trials, s') /\
    List.length trials = ForcedChoice.N_TOTAL_TRIALS /\
    Forall (fun t => ForcedChoice.distractor_word t <> ForcedChoice.correct_word t)
           trials.
Proof.
do 2 eexists. split; [vm_compute; reflexivity|]. split; [reflexivity|].
eapply (C7_distractor_differs 5 forced_choice_fs "exp" example_rng).
vm_compute. reflexivity.
Defined.

(** C8. When the folder of some compression level holds fewer usable files
    than the practice and main counts together, [generate_trial_lists] of
    d-prime_detection.py and of main_typing_experiment.py end in
    [core.quit()], whatever the oracle: no list is returned. *)
Theorem C8_too_few_files_quit (fs : filesystem) (base_dir level : string)
  (l : list string) (s : rng) :
  fs (path_join (path_join base_dir "audio") level) = Some l ->
  (In level DPrimeDetection.COMPRESSION_LEVELS ->
   (List.length (usable_files l) <
    DPrimeDetection.N_PRACTICE_REPS_PER_LEVEL
    + DPrimeDetection.N_MAIN_REPS_PER_LEVEL)%nat ->
   DPrimeDetection.generate_trial_lists fs base_dir s = Raise SystemExit) /\
  (In level MainTyping.COMPRESSION_LEVELS ->
   (List.length (usable_files l) <
    MainTyping.N_PRACTICE_WORDS_PER_FOLDER
    + MainTyping.N_MAIN_WORDS_PER_FOLDER)%nat ->
   MainTyping.generate_trial_lists fs base_dir s = Raise SystemExit).
Proof.
intros Hfs. split; intros Hin Hlen.
- rewrite detection_is_stratified.
  eapply stratified_short_quits; try eassumption.
  intros b m lv f Hb Hm. apply trial_pair_total; assumption.
- rewrite typing_is_stratified.
  eapply stratified_short_quits; try eassumption.
  intros b m lv f Hb Hm. apply word_trial_total; assumption.
Qed.

(** Eight files requested from a folder holding five; two from a folder
    holding one. *)
Lemma C8_too_few_files_quit_witness :
  DPrimeDetection.generate_trial_lists (short_fs 5) "exp" example_rng
    = Raise SystemExit /\
  MainTyping.generate_trial_lists (short_fs 1) "exp" example_rng
    = Raise SystemExit.
Proof.
split.
- apply (proj1 (C8_too_few_files_quit (short_fs 5) "exp" "0.3"
                  (firstn 6 example_words) example_rng eq_refl)).
  + simpl. tauto.
  + vm_compute. lia.
- apply (proj2 (C8_too_few_files_quit (short_fs 1) "exp" "0.3"
                  (firstn 2 example_words) example_rng eq_refl)).
  + simpl. tauto.
  + vm_compute. lia.
Defined.

(** C9, as stated, fails for forced_choice.py, whose primes are drawn with
    [random.choices]: on the example folder and oracle the negative prime
    bange_compressed.wav is used by a practice trial and by a main trial. *)
Lemma C9_counterexample :
  exists trials s' t1 t2,
    ForcedChoice.generate_trial_list 5 forced_choice_fs "exp" example_rng
      = Ok (trials, s') /\
    In t1 (ForcedChoice.practice_list trials) /\
    In t2 (ForcedChoice.main_list trials) /\
    ForcedChoice.prime_valence t1 = ForcedChoice.prime_valence t2 /\
    ForcedChoice.prime_file t1 = ForcedChoice.prime_file t2.
Proof.
do 4 eexists. split; [vm_compute; reflexivity|].
split; [left; reflexivity|].
split; [right; left; reflexivity|].
split; reflexivity.
Qed.

(** C9, amended.  In the lists returned by [generate_trial_lists] of
    d-prime_detection.py and of main_typing_experiment.py, for every
    compression level the prime files of the trials of that level (the
    signal-present ones, in the detection experiment) are pairwise
    distinct across the practice and main lists together; so no prime
    file of a practice trial is the prime file of a main trial of the same
    level. *)
Theorem C9_primes_not_reused (fs : filesystem) (base_dir : string) (s : rng) :
  fs_distinct fs ->
  (forall practice main s',
      DPrimeDetection.generate_trial_lists fs base_dir s
        = Ok ((practice, main), s') ->
      forall level,
        NoDup (detection_primes level (practice ++ main)) /\
        forall f, In f (detection_primes level practice) ->
                  ~ In f (detection_primes level main)) /\
  (forall practice main s',
      MainTyping.generate_trial_lists fs base_dir s
        = Ok ((practice, main), s') ->
      forall level,
        NoDup (typing_primes level (practice ++ main)) /\
        forall f, In f (typing_primes level practice) ->
                  ~ In f (typing_primes level main)).
Proof.
intros Hfs. split; intros practice main s' H level.
- rewrite detection_is_stratified in H.
  pose proof (stratified_no_reuse _ DPrimeDetection.compression_level
                detection_prime
                (fun b m lv f s0 ts s1 => trial_pair_spec b m lv f s0 ts s1)
                _ _ _ _ _ _ _ _ _ Hfs detection_levels_distinct H level) as N.
  rewrite !detection_primes_eq. split; [exact N|].
  apply nodup_app_disjoint.
  unfold primes_in_stratum in *. rewrite <- flat_map_app. exact N.
- rewrite typing_is_stratified in H.
  pose proof (stratified_no_reuse _ MainTyping.compression_level
                typing_prime
                (fun b m lv f s0 ts s1 => word_trial_spec b m lv f s0 ts s1)
                _ _ _ _ _ _ _ _ _ Hfs typing_levels_distinct H level) as N.
  rewrite !typing_primes_eq. split; [exact N|].
  apply nodup_app_disjoint.
  unfold primes_in_stratum in *. rewrite <- flat_map_app. exact N.
Qed.

Lemma C9_primes_not_reused_witness :
  fs_distinct detection_fs /\
  (exists practice main s',
      DPrimeDetection.generate_trial_lists detection_fs "exp" example_rng
        = Ok ((practice, main), s') /\
      NoDup (detection_primes "0.3" (practice ++ main))) /\
  (exists practice main s',
      MainTyping.generate_trial_lists detection_fs "exp" example_rng
        = Ok ((practice, main), s') /\
      NoDup (typing_primes "0.3" (practice ++ main))).
Proof.
split; [exact detection_fs_distinct|]. split.
- do 3 eexists. split; [vm_compute; reflexivity|].
  eapply (proj1 (C9_primes_not_reused detection_fs "exp" example_rng
                   detection_fs_distinct)).
  vm_compute. reflexivity.
- do 3 eexists. split; [vm_compute; reflexivity|].
  eapply (proj2 (C9_primes_not_reused detection_fs "exp" example_rng
                   detection_fs_distinct)).
  vm_compute. reflexivity.
Defined.

(** * Further properties of the analysis scripts *)

Lemma analyse_report_with (ndtri : Q -> Q)
  (chi2 : table -> bool -> res chi2_result) (df : list row) :
  Analyse.compute_rate_results ndtri chi2 df
  = report_with Analyse.signif_marker ndtri chi2 df.
Proof. reflexivity. Qed.

Lemma complete_report_with (ndtri : Q -> Q)
  (chi2 : table -> bool -> res chi2_result) (df : list row) :
  DprimeComplete.compute_rate_results ndtri chi2 df
  = report_with DprimeComplete.signif_marker ndtri chi2 df.
Proof. reflexivity. Qed.

Lemma rbind_ok {A B : Type} (m : res A) (k : A -> res B) (b : B) :
  rbind m k = Ok b -> exists a, m = Ok a /\ k a = Ok b.
Proof. destruct m; simpl; try discriminate. eauto. Qed.

Lemma mapR_spec {A B : Type} (f : A -> res B) :
  forall (l : list A) (ys : list B),
    mapR f l = Ok ys -> Forall2 (fun x y => f x = Ok y) l ys.
Proof.
induction l as [|x l IH]; intros ys H; simpl in H.
- inversion H. constructor.
- apply rbind_ok in H as (y & Ey & H). apply rbind_ok in H as (ys' & Eys & H).
  inversion H; subst. constructor; auto.
Qed.

(** *** [unique] *)

Lemma existsb_Qeq_false (x : Q) (seen : list Q) :
  existsb (Qeq_bool x) seen = false -> Forall (fun s => ~ x == s) seen.
Proof.
induction seen as [|s seen IH]; simpl; intros H; [constructor|].
apply orb_false_iff in H as [H1 H2]. constructor; auto.
apply Qeq_bool_false_iff. assumption.
Qed.

Lemma unique_from_spec :
  forall (l seen : list Q),
    ForallOrdPairs (fun a b => ~ a == b) (unique_from seen l) /\
    Forall (fun u => Forall (fun s => ~ u == s) seen /\ In u l) (unique_from seen l) /\
    (forall x, In x l ->
       (exists s, In s seen /\ x == s) \/
       (exists u, In u (unique_from seen l) /\ x == u)).
Proof.
induction l as [|x l IH]; intros seen; simpl.
- split; [constructor | split; [constructor | intros y []]].
- destruct (existsb (Qeq_bool x) seen) eqn:E.
  + destruct (IH seen) as (P & F & C). split; [exact P|]. split.
    * eapply Forall_impl; [|exact F]. intros u [Hs Hin]. split; auto.
    * intros y [<-|Hy]; [|apply C; assumption].
      left. apply existsb_exists in E as (s & Hs & Es).
      exists s. split; [assumption|]. apply Qeq_bool_iff. assumption.
  + apply existsb_Qeq_false in E.
    destruct (IH (x :: seen)) as (P & F & C). split; [|split].
    * constructor; [|exact P].
      eapply Forall_impl; [|exact F]. intros u [Hs _].
      inversion Hs as [|? ? Hux _]; subst. intros Hxu. apply Hux.
      symmetry. assumption.
    * constructor; [split; [assumption | left; reflexivity]|].
      eapply Forall_impl; [|exact F]. intros u [Hs Hin]. split.
      -- inversion Hs; assumption.
      -- right. assumption.
    * intros y [<-|Hy].
      -- right. exists x. split; [left; reflexivity | reflexivity].
      -- destruct (C y Hy) as [(s & [<-|Hs] & Es)|(u & Hu & Eu)].
         ++ right. exists x. split; [left; reflexivity | assumption].
         ++ left. eauto.
         ++ right. exists u. split; [right; assumption | assumption].
Qed.

(** *** [sort_values] *)

Lemma insert_row_perm (r : result_row) :
  forall l, Permutation (r :: l) (insert_row r l).
Proof.
induction l as [|x l IH]; simpl; [reflexivity|].
destruct (Qle_bool (compression_rate r) (compression_rate x)); [reflexivity|].
eapply perm_trans; [apply perm_swap|]. apply perm_skip. assumption.
Qed.

Lemma sort_values_perm : forall l, Permutation l (sort_values l).
Proof.
induction l as [|x l IH]; simpl; [constructor|].
eapply perm_trans; [apply perm_skip; exact IH | apply insert_row_perm].
Qed.

Lemma insert_row_sorted (r : result_row) :
  forall l,
    StronglySorted rate_lt l ->
    Forall (fun x => ~ compression_rate r == compression_rate x) l ->
    StronglySorted rate_lt (insert_row r l).
Proof.
induction l as [|x l IH]; intros Hs Hd; simpl.
- constructor; constructor.
- inversion Hs as [|? ? Hs' Hx]; subst. inversion Hd as [|? ? Hrx Hd']; subst.
  destruct (Qle_bool (compression_rate r) (compression_rate x)) eqn:E.
  + apply Qle_bool_iff in E.
    assert (L : compression_rate r < compression_rate x).
    { destruct (Qlt_le_dec (compression_rate r) (compression_rate x)) as [L|L];
        [assumption|]. exfalso. apply Hrx. apply Qle_antisym; assumption. }
    constructor; [assumption|]. constructor; [exact L|].
    eapply Forall_impl; [|exact Hx]. intros y Hy. unfold rate_lt in *.
    eapply Qlt_trans; eassumption.
  + assert (L : compression_rate x < compression_rate r).
    { apply Qnot_le_lt. intros L. apply Qle_bool_iff in L. congruence. }
    constructor; [apply IH; assumption|].
    eapply Permutation_Forall; [apply insert_row_perm|].
    constructor; [exact L | exact Hx].
Qed.

Lemma sort_values_sorted :
  forall l,
    ForallOrdPairs (fun a b => ~ compression_rate a == compression_rate b) l ->
    StronglySorted rate_lt (sort_values l).
Proof.
induction l as [|x l IH]; intros H; simpl; [constructor|].
inversion H as [|? ? Hx H']; subst.
apply insert_row_sorted; [apply IH; assumption|].
eapply Permutation_Forall; [apply sort_values_perm | exact Hx].
Qed.

(** *** One row of the report *)

Lemma select_level_self (df : list row) (x : row) :
  In x df -> In x (select_level df (compression_level x)).
Proof.
intros Hin. unfold select_level. apply filter_In. split; [assumption|].
apply Qeq_bool_iff. reflexivity.
Qed.

Lemma hit_fa_disjoint_nat (l : list row) :
  (List.length (select_outcome l "Hit")
   + List.length (select_outcome l "False Alarm") <= List.length l)%nat.
Proof.
unfold select_outcome. induction l as [|x l IH]; simpl; [lia|].
destruct (String.eqb (trial_outcome x) "Hit") eqn:E1.
- apply String.eqb_eq in E1. rewrite E1. simpl. lia.
- destruct (String.eqb (trial_outcome x) "False Alarm"); simpl; lia.
Qed.

Lemma hit_fa_disjoint (l : list row) :
  (len (select_outcome l "Hit") + len (select_outcome l "False Alarm") <= len l)%Z.
Proof.
unfold len. pose proof (hit_fa_disjoint_nat l). lia.
Qed.

Lemma fractions_bounds (a b n : Z) :
  (0 <= a)%Z -> (0 <= b)%Z -> (a + b <= n)%Z -> (0 < n)%Z ->
  0 <= inject_Z a / inject_Z n /\ 0 <= inject_Z b / inject_Z n /\
  inject_Z a / inject_Z n + inject_Z b / inject_Z n <= 1.
Proof.
intros Ha Hb Hab Hn. destruct n as [|p|p]; try lia.
unfold Qdiv, Qinv, Qmult, Qplus, Qle, inject_Z. simpl.
repeat split; nia.
Qed.

Lemma stratum_rates_bounds (l : list row) :
  l <> [] ->
  0 <= outcome_count l "Hit" / inject_Z (len l) /\
  0 <= outcome_count l "False Alarm" / inject_Z (len l) /\
  outcome_count l "Hit" / inject_Z (len l)
  + outcome_count l "False Alarm" / inject_Z (len l) <= 1.
Proof.
intros Hl. unfold outcome_count. apply fractions_bounds.
- apply Nat2Z.is_nonneg.
- apply Nat2Z.is_nonneg.
- apply hit_fa_disjoint.
- unfold len. destruct l; [contradiction | simpl; lia].
Qed.

Lemma dprime_unit_finite (ndtri : Q -> Q) (h f : Q) (n : Z) :
  0 <= h -> h <= 1 -> 0 <= f -> f <= 1 -> (1 <= n)%Z ->
  exists v, Analyse.dprime ndtri h f n = Ok (XFin v).
Proof.
intros Hh0 Hh1 Hf0 Hf1 Hn.
destruct (dprime_rates_spec h f n Hn) as (h' & f' & E & _ & _ & Bh & Bf).
destruct (Bh (conj Hh0 Hh1)) as [Bh0 Bh1].
destruct (Bf (conj Hf0 Hf1)) as [Bf0 Bf1].
exists (ndtri h' - ndtri f'). unfold Analyse.dprime. rewrite E. cbn [rbind].
rewrite (norm_ppf_inside ndtri h' Bh0 Bh1), (norm_ppf_inside ndtri f' Bf0 Bf1).
reflexivity.
Qed.

Lemma report_row_spec (marker : Q -> string) (ndtri : Q -> Q)
  (chi2 : table -> bool -> res chi2_result) (df : list row) (rate : Q)
  (r : result_row) :
  select_level df rate <> [] ->
  report_row marker ndtri chi2 df rate = Ok r ->
  let S := select_level df rate in
  let h := outcome_count S "Hit" / inject_Z (len S) in
  let f := outcome_count S "False Alarm" / inject_Z (len S) in
  exists v c,
    Analyse.dprime ndtri h f (len S) = Ok (XFin v) /\
    chi2 (Analyse.obs h f (len S)) true = Ok c /\
    r = mkResult rate (XFin v) (marker (pvalue c)) h f (statistic c) (pvalue c)
                 (len S).
Proof.
intros Hne H. cbv zeta. unfold report_row in H.
destruct (rates_over_all_rows _ Hne) as [Eh Ef].
rewrite Eh in H. cbn [rbind] in H. rewrite Ef in H. cbn [rbind] in H.
destruct (stratum_rates_bounds _ Hne) as (B1 & B2 & B3).
unfold outcome_count in *.
set (h := inject_Z (len (select_outcome (select_level df rate) "Hit"))
          / inject_Z (len (select_level df rate))) in *.
set (f := inject_Z (len (select_outcome (select_level df rate) "False Alarm"))
          / inject_Z (len (select_level df rate))) in *.
assert (Hn : (1 <= len (select_level df rate))%Z).
{ unfold len. destruct (select_level df rate); [contradiction | simpl; lia]. }
destruct (dprime_unit_finite ndtri h f _ ltac:(lra) ltac:(lra) ltac:(lra)
            ltac:(lra) Hn) as (v & Ev).
rewrite Ev in H. cbn [rbind] in H.
unfold Analyse.chi_square_from_rates in H.
destruct (chi2 (Analyse.obs h f (len (select_level df rate))) true) as [c| |];
  cbn [rbind] in H; try discriminate.
inversion H; subst. exists v, c. split; [exact Ev | split; reflexivity].
Qed.

Lemma unique_levels_nonempty (df : list row) (u : Q) :
  In u (unique (map compression_level df)) -> select_level df u <> [].
Proof.
intros Hu. destruct (unique_from_spec (map compression_level df) []) as (_ & F & _).
rewrite Forall_forall in F. destruct (F u Hu) as [_ Hin].
apply in_map_iff in Hin as (x & <- & Hx).
intros E. pose proof (select_level_self df x Hx) as Hs. rewrite E in Hs.
contradiction.
Qed.

(** The rows before sorting, one for each distinct level in order of first
    appearance. *)
Lemma report_with_rows (marker : Q -> string) (ndtri : Q -> Q)
  (chi2 : table -> bool -> res chi2_result) (df : list row)
  (rows : list result_row) :
  report_with marker ndtri chi2 df = Ok rows ->
  exists results,
    Permutation results rows /\ rows = sort_values results /\
    Forall2 (fun u r => report_row marker ndtri chi2 df u = Ok r)
            (unique (map compression_level df)) results.
Proof.
unfold report_with. intros H. apply rbind_ok in H as (results & E & H).
destruct results as [|r0 results]; [discriminate|].
inversion H; subst. exists (r0 :: results).
split; [apply sort_values_perm | split; [reflexivity | apply mapR_spec; exact E]].
Qed.

Lemma report_rows_levels (marker : Q -> string) (ndtri : Q -> Q)
  (chi2 : table -> bool -> res chi2_result) (df : list row) :
  forall (us : list Q) (results : list result_row),
    Forall2 (fun u r => report_row marker ndtri chi2 df u = Ok r) us results ->
    Forall (fun u => select_level df u <> []) us ->
    map compression_rate results = us.
Proof.
induction 1 as [|u r us results E _ IH]; intros Hne; [reflexivity|].
inversion Hne as [|? ? Hu Hne']; subst. simpl. rewrite (IH Hne'). f_equal.
destruct (report_row_spec _ _ _ _ _ _ Hu E) as (v & c & _ & _ & ->). reflexivity.
Qed.

Lemma ordpairs_map_rate (results : list result_row) :
  ForallOrdPairs (fun a b => ~ a == b) (map compression_rate results) ->
  ForallOrdPairs (fun a b => ~ compression_rate a == compression_rate b) results.
Proof.
induction results as [|r results IH]; simpl; intros H; [constructor|].
inversion H as [|? ? Hr H']; subst. constructor; [|apply IH; assumption].
rewrite Forall_forall in *. intros b Hb. apply Hr. apply in_map. assumption.
Qed.

Lemma report_with_sorted (marker : Q -> string) (ndtri : Q -> Q)
  (chi2 : table -> bool -> res chi2_result) (df : list row)
  (rows : list result_row) :
  report_with marker ndtri chi2 df = Ok rows ->
  StronglySorted rate_lt rows /\
  (forall x, In x df ->
     exists r, In r rows /\ compression_rate r == compression_level x) /\
  (forall r, In r rows ->
     exists x, In x df /\ compression_rate r = compression_level x).
Proof.
intros H. destruct (report_with_rows _ _ _ _ _ H) as (results & P & -> & F).
assert (Hne : Forall (fun u => select_level df u <> [])
                     (unique (map compression_level df))).
{ apply Forall_forall. intros u Hu. apply unique_levels_nonempty. assumption. }
pose proof (report_rows_levels _ _ _ _ _ _ F Hne) as Hm.
destruct (unique_from_spec (map compression_level df) []) as (PO & FU & C).
fold (unique (map compression_level df)) in PO, FU, C.
split; [|split].
- apply sort_values_sorted. apply ordpairs_map_rate. rewrite Hm. exact PO.
- intros x Hx.
  destruct (C (compression_level x) (in_map _ _ _ Hx))
    as [(s & [] & _)|(u & Hu & Eu)].
  rewrite <- Hm in Hu. apply in_map_iff in Hu as (r & <- & Hr).
  exists r. split; [|symmetry; assumption].
  eapply Permutation_in; [exact P | exact Hr].
- intros r Hr. apply Permutation_sym in P.
  pose proof (Permutation_in _ P Hr) as Hr'.
  assert (Hu : In (compression_rate r) (unique (map compression_level df)))
    by (rewrite <- Hm; apply in_map; assumption).
  rewrite Forall_forall in FU. destruct (FU _ Hu) as [_ Hin].
  apply in_map_iff in Hin as (x & Ex & Hx). exists x. split; [assumption|].
  symmetry. assumption.
Qed.

Lemma Forall2_in_right {A B : Type} (R : A -> B -> Prop) :
  forall (us : list A) (rs : list B) (r : B),
    Forall2 R us rs -> In r rs -> exists u, In u us /\ R u r.
Proof.
induction 1 as [|u r0 us rs Hr _ IH]; intros Hin; [contradiction|].
destruct Hin as [<-|Hin].
- exists u. split; [left; reflexivity | assumption].
- destruct (IH Hin) as (u' & Hu' & HR). exists u'. split; [right|]; assumption.
Qed.

Lemma report_with_row (marker : Q -> string) (ndtri : Q -> Q)
  (chi2 : table -> bool -> res chi2_result) (df : list row)
  (rows : list result_row) (r : result_row) :
  report_with marker ndtri chi2 df = Ok rows -> In r rows ->
  let S := select_level df (compression_rate r) in
  let h := outcome_count S "Hit" / inject_Z (len S) in
  let f := outcome_count S "False Alarm" / inject_Z (len S) in
  S <> [] /\
  exists v c,
    Analyse.dprime ndtri h f (len S) = Ok (XFin v) /\
    chi2 (Analyse.obs h f (len S)) true = Ok c /\
    r = mkResult (compression_rate r) (XFin v) (marker (pvalue c)) h f
                 (statistic c) (pvalue c) (len S).
Proof.
intros H Hr. cbv zeta.
destruct (report_with_rows _ _ _ _ _ H) as (results & P & _ & F).
apply Permutation_sym in P. pose proof (Permutation_in _ P Hr) as Hr'.
destruct (Forall2_in_right _ _ _ _ F Hr') as (u & Hu & E).
pose proof (unique_levels_nonempty df u Hu) as Hne.
destruct (report_row_spec _ _ _ _ _ _ Hne E) as (v & c & Ed & Ec & Er).
assert (Eu : compression_rate r = u) by (rewrite Er; reflexivity).
rewrite Eu. split; [assumption|]. exists v, c. auto.
Qed.

(** ** Properties of the report *)

(** X1. The report has one row for each compression level of the input, in
    strictly ascending order of the level. *)
Theorem report_sorted_one_row_per_level (ndtri : Q -> Q)
  (chi2 : table -> bool -> res chi2_result) (df : list row)
  (rows : list result_row) :
  Analyse.compute_rate_results ndtri chi2 df = Ok rows \/
  DprimeComplete.compute_rate_results ndtri chi2 df = Ok rows ->
  StronglySorted rate_lt rows /\
  (forall x, In x df ->
     exists r, In r rows /\ compression_rate r == compression_level x) /\
  (forall r, In r rows ->
     exists x, In x df /\ compression_rate r = compression_level x).
Proof.
intros [H|H]; [rewrite analyse_report_with in H | rewrite complete_report_with in H];
  eapply report_with_sorted; eassumption.
Qed.

Lemma report_sorted_one_row_per_level_witness :
  exists rows,
    Analyse.compute_rate_results (fun q => q) accepting_test example_df = Ok rows /\
    map compression_rate rows = [3 # 10; 5 # 10] /\
    StronglySorted rate_lt rows.
Proof.
eexists. split; [vm_compute; reflexivity|]. split; [reflexivity|].
apply (report_sorted_one_row_per_level (fun q => q) accepting_test example_df).
left. vm_compute. reflexivity.
Defined.

(** X3. Every raw d-prime that a report of analyse.py holds is finite: no
    stratum of a returned report has a rate outside [0,1] or an empty
    count, so that the correction keeps both quantiles finite. *)
Theorem report_dprime_finite (ndtri : Q -> Q)
  (chi2 : table -> bool -> res chi2_result) (df : list row)
  (rows : list result_row) (r : result_row) :
  Analyse.compute_rate_results ndtri chi2 df = Ok rows ->
  In r rows ->
  is_finite (d_prime_raw r) = true.
Proof.
intros H Hr. rewrite analyse_report_with in H.
destruct (report_with_row _ _ _ _ _ _ H Hr) as (_ & v & c & _ & _ & Er).
rewrite Er. reflexivity.
Qed.

Lemma report_dprime_finite_witness :
  exists rows r,
    Analyse.compute_rate_results (fun q => q) accepting_test example_df
      = Ok rows /\
    In r rows /\ is_finite (d_prime_raw r) = true.
Proof.
do 2 eexists. split; [vm_compute; reflexivity|]. split; [left; reflexivity|].
eapply (report_dprime_finite (fun q => q) accepting_test example_df).
- vm_compute. reflexivity.
- left. reflexivity.
Defined.

(** *** Every input row is counted once *)

Lemma zsum_perm (l l' : list Z) : Permutation l l' -> zsum l = zsum l'.
Proof.
unfold zsum. induction 1; simpl; lia.
Qed.

Lemma zsum_cons (x : Z) (l : list Z) : zsum (x :: l) = (x + zsum l)%Z.
Proof. reflexivity. Qed.

Lemma sum_indicator_zero (q : Q) (U : list Q) :
  Forall (fun u => ~ q == u) U ->
  zsum (map (fun u => if Qeq_bool q u then 1 else 0)%Z U) = 0%Z.
Proof.
induction 1 as [|u U Hu _ IH]; cbn [map]; [reflexivity|].
apply Qeq_bool_false_iff in Hu. rewrite zsum_cons, Hu, IH. reflexivity.
Qed.

Lemma sum_indicator_once (q : Q) :
  forall U : list Q,
    ForallOrdPairs (fun a b => ~ a == b) U ->
    (exists u, In u U /\ q == u) ->
    zsum (map (fun u => if Qeq_bool q u then 1 else 0)%Z U) = 1%Z.
Proof.
induction 1 as [|u U Hu _ IH]; intros (u' & Hin & E); [contradiction|].
cbn [map]. rewrite zsum_cons. destruct (Qeq_bool q u) eqn:Eq.
- apply Qeq_bool_iff in Eq.
  rewrite sum_indicator_zero; [reflexivity|].
  eapply Forall_impl; [|exact Hu]. intros w Hw Hqw. apply Hw.
  rewrite <- Eq. assumption.
- apply Qeq_bool_false_iff in Eq. destruct Hin as [<-|Hin]; [contradiction|].
  rewrite IH; [reflexivity|]. eauto.
Qed.

Lemma len_cons {A : Type} (x : A) (l : list A) : len (x :: l) = (len l + 1)%Z.
Proof. unfold len. simpl List.length. lia. Qed.

Lemma stratum_sizes_cons (x : row) (df : list row) (U : list Q) :
  zsum (map (fun u => len (select_level (x :: df) u)) U)
  = (zsum (map (fun u => len (select_level df u)) U)
     + zsum (map (fun u => if Qeq_bool (compression_level x) u then 1 else 0) U))%Z.
Proof.
induction U as [|u U IH]; cbn [map]; [reflexivity|].
rewrite !zsum_cons, IH. unfold select_level at 1. cbn [filter].
fold (select_level df u).
destruct (Qeq_bool (compression_level x) u); [rewrite len_cons|]; lia.
Qed.

Lemma stratum_sizes_partition (U : list Q) :
  ForallOrdPairs (fun a b => ~ a == b) U ->
  forall df : list row,
    (forall x, In x df -> exists u, In u U /\ compression_level x == u) ->
    zsum (map (fun u => len (select_level df u)) U) = len df.
Proof.
intros HU. induction df as [|x df IH]; intros Hc.
- clear. induction U as [|u U IHU]; cbn [map]; [reflexivity|].
  rewrite zsum_cons, IHU. reflexivity.
- rewrite stratum_sizes_cons, IH, sum_indicator_once, len_cons; try assumption.
  + reflexivity.
  + apply Hc. left. reflexivity.
  + intros y Hy. apply Hc. right. assumption.
Qed.

Lemma report_rows_sizes (marker : Q -> string) (ndtri : Q -> Q)
  (chi2 : table -> bool -> res chi2_result) (df : list row) :
  forall (us : list Q) (results : list result_row),
    Forall2 (fun u r => report_row marker ndtri chi2 df u = Ok r) us results ->
    Forall (fun u => select_level df u <> []) us ->
    map n_trials_col results = map (fun u => len (select_level df u)) us.
Proof.
induction 1 as [|u r us results E _ IH]; intros Hne; [reflexivity|].
inversion Hne as [|? ? Hu Hne']; subst. simpl. rewrite (IH Hne'). f_equal.
destruct (report_row_spec _ _ _ _ _ _ Hu E) as (v & c & _ & _ & ->). reflexivity.
Qed.

(** X5. The trial counts of the report add up to the number of input rows:
    every row is counted in exactly one stratum. *)
Theorem report_counts_every_row_once (ndtri : Q -> Q)
  (chi2 : table -> bool -> res chi2_result) (df : list row)
  (rows : list result_row) :
  Analyse.compute_rate_results ndtri chi2 df = Ok rows \/
  DprimeComplete.compute_rate_results ndtri chi2 df = Ok rows ->
  zsum (map n_trials_col rows) = len df.
Proof.
intros H.
assert (G : exists marker, report_with marker ndtri chi2 df = Ok rows).
{ destruct H as [H|H];
    [rewrite analyse_report_with in H | rewrite complete_report_with in H]; eauto. }
destruct G as (marker & G).
destruct (report_with_rows _ _ _ _ _ G) as (results & P & _ & F).
assert (Hne : Forall (fun u => select_level df u <> [])
                     (unique (map compression_level df))).
{ apply Forall_forall. intros u Hu. apply unique_levels_nonempty. assumption. }
rewrite <- (zsum_perm _ _ (Permutation_map n_trials_col P)).
rewrite (report_rows_sizes _ _ _ _ _ _ F Hne).
destruct (unique_from_spec (map compression_level df) []) as (PO & _ & C).
apply stratum_sizes_partition; [exact PO|].
intros x Hx.
destruct (C (compression_level x) (in_map _ _ _ Hx)) as [(s & [] & _)|Hu].
exact Hu.
Qed.

Lemma report_counts_every_row_once_witness :
  exists rows,
    Analyse.compute_rate_results (fun q => q) accepting_test example_df = Ok rows /\
    zsum (map n_trials_col rows) = 6%Z.
Proof.
eexists. split; [vm_compute; reflexivity|].
apply (report_counts_every_row_once (fun q => q) accepting_test example_df).
left. vm_compute. reflexivity.
Defined.

(** ** Properties of [signif_marker] and [dprime] *)

Ltac marker_cases :=
  repeat match goal with
         | |- context [Qlt_bool ?a ?b] =>
             let E := fresh "E" in
             destruct (Qlt_bool a b) eqn:E;
             [apply Qlt_bool_iff in E | apply Qlt_bool_false_iff in E]
         end.

(** X6. A smaller p-value never gets fewer stars, in either script. *)
Theorem signif_marker_antitone (p q : Q) :
  p <= q ->
  (stars (Analyse.signif_marker q) <= stars (Analyse.signif_marker p))%nat /\
  (stars (DprimeComplete.signif_marker q)
   <= stars (DprimeComplete.signif_marker p))%nat.
Proof.
intros Hpq. unfold Analyse.signif_marker, DprimeComplete.signif_marker, stars.
split; marker_cases; simpl; try lia; exfalso; lra.
Qed.

Lemma signif_marker_antitone_witness :
  (stars (Analyse.signif_marker (3 # 100)) <= stars (Analyse.signif_marker (1 # 10000)))%nat /\
  (stars (DprimeComplete.signif_marker (3 # 100))
   <= stars (DprimeComplete.signif_marker (1 # 10000)))%nat.
Proof.
apply (signif_marker_antitone (1 # 10000) (3 # 100)). unfold Qle. simpl. lia.
Defined.

(** *** The exceptions of [dprime] *)

Lemma truediv_double (n : Z) :
  (n = 0%Z /\ truediv 1 (inject_Z (2 * n)) = Raise ZeroDivisionError) \/
  (n <> 0%Z /\ truediv 1 (inject_Z (2 * n)) = Ok (1 / inject_Z (2 * n))).
Proof.
unfold truediv. destruct n as [|p|p].
- left. split; reflexivity.
- right. split; [discriminate | reflexivity].
- right. split; [discriminate | reflexivity].
Qed.

Lemma correct_one_cases (r : Q) (n : Z) :
  (n = 0%Z /\ (r == 1 \/ r == 0) /\ correct_one r n = Raise ZeroDivisionError) \/
  ((n <> 0%Z \/ (~ r == 1 /\ ~ r == 0)) /\ exists r', correct_one r n = Ok r').
Proof.
unfold correct_one.
destruct (Qeq_bool r 1) eqn:E1; [apply Qeq_bool_iff in E1 | apply Qeq_bool_false_iff in E1].
- destruct (truediv_double n) as [[Hn Hd]|[Hn Hd]]; rewrite Hd; cbn [rbind].
  + left. auto.
  + right. split; [left; assumption|].
    destruct (Qeq_bool (1 - 1 / inject_Z (2 * n)) 0); eauto.
- cbn [rbind].
  destruct (Qeq_bool r 0) eqn:E0; [apply Qeq_bool_iff in E0 | apply Qeq_bool_false_iff in E0].
  + destruct (truediv_double n) as [[Hn Hd]|[Hn Hd]]; rewrite Hd.
    * left. auto.
    * right. split; [left; assumption | eauto].
  + right. split; [right; auto | eauto].
Qed.

(** X8. [dprime] raises nothing but [ZeroDivisionError], and raises it exactly
    when the trial count is 0 and one of the two rates is exactly 0 or 1. *)
Theorem dprime_zero_division (ndtri : Q -> Q) (h f : Q) (n : Z) :
  (Analyse.dprime ndtri h f n = Raise ZeroDivisionError <->
   n = 0%Z /\ (h == 1 \/ h == 0 \/ f == 1 \/ f == 0)) /\
  (Analyse.dprime ndtri h f n = Raise ZeroDivisionError \/
   exists v, Analyse.dprime ndtri h f n = Ok v) /\
  DprimeComplete.dprime ndtri h f n = Analyse.dprime ndtri h f n.
Proof.
assert (Cases :
  (n = 0%Z /\ (h == 1 \/ h == 0 \/ f == 1 \/ f == 0) /\
   Analyse.dprime ndtri h f n = Raise ZeroDivisionError) \/
  (~ (n = 0%Z /\ (h == 1 \/ h == 0 \/ f == 1 \/ f == 0)) /\
   exists v, Analyse.dprime ndtri h f n = Ok v)).
{ unfold Analyse.dprime. rewrite dprime_rates_unfold.
  destruct (correct_one_cases h n) as [(Hn & Hh & Eh)|(Hh & h' & Eh)];
    rewrite Eh; cbn [rbind].
  - left. repeat split; [assumption | tauto].
  - destruct (correct_one_cases f n) as [(Hn & Hf & Ef)|(Hf & f' & Ef)];
      rewrite Ef; cbn [rbind].
    + left. repeat split; [assumption | tauto].
    + right. split; [|eauto]. intros (Hn & Hr).
      destruct Hh as [Hh|[Hh1 Hh0]]; [contradiction|].
      destruct Hf as [Hf|[Hf1 Hf0]]; [contradiction|]. tauto. }
split; [|split; [|reflexivity]].
- destruct Cases as [(Hn & Hr & E)|(Hno & v & E)]; rewrite E.
  + split; auto.
  + split; [discriminate | intros H; contradiction].
- destruct Cases as [(Hn & Hr & E)|(Hno & v & E)]; rewrite E; eauto.
Qed.

(** X9. In float arithmetic, for rates in [0,1] and a trial count from 1 to
    below 2^53: exchanging the two rates negates d-prime, and equal rates
    give 0. *)
Theorem dprime_antisymmetric (ndtri : Q -> Q) (h f : Q) (n : Z) :
  0 <= h -> h <= 1 -> 0 <= f -> f <= 1 -> (1 <= n)%Z -> (n < 2 ^ 53)%Z ->
  exists v w,
    Rounded.dprime ndtri h f n = Ok (XFin v) /\
    Rounded.dprime ndtri f h n = Ok (XFin w) /\
    w == - v /\ (h = f -> v == 0).
Proof.
intros Hh0 Hh1 Hf0 Hf1 H1 H2.
destruct (rounded_correct_one_spec h n H1 H2 Hh0 Hh1) as (h' & Eh & Bh0 & Bh1).
destruct (rounded_correct_one_spec f n H1 H2 Hf0 Hf1) as (f' & Ef & Bf0 & Bf1).
exists (ndtri h' - ndtri f'), (ndtri f' - ndtri h').
unfold Rounded.dprime. rewrite !rounded_dprime_rates_unfold, Eh, Ef.
cbn [rbind].
rewrite (norm_ppf_inside ndtri h' Bh0 Bh1), (norm_ppf_inside ndtri f' Bf0 Bf1).
repeat split; try reflexivity.
- ring.
- intros ->. rewrite Eh in Ef. inversion Ef; subst. ring.
Qed.

Lemma dprime_antisymmetric_witness :
  exists v w,
    Rounded.dprime (fun q => q) 1 0 7 = Ok (XFin v) /\
    Rounded.dprime (fun q => q) 0 1 7 = Ok (XFin w) /\
    w == - v /\ (1 = 0 -> v == 0).
Proof.
apply (dprime_antisymmetric (fun q => q) 1 0 7);
  try (unfold Qle; simpl; lia); reflexivity.
Defined.

Lemma correct_one_single (r : Q) :
  r == 0 \/ r == 1 -> correct_one r 1 = Ok (1 # 2).
Proof.
intros H. unfold correct_one.
destruct (Qeq_bool r 1) eqn:E1.
- reflexivity.
- apply Qeq_bool_false_iff in E1. destruct H as [H|H]; [|contradiction].
  apply Qeq_bool_iff in H. cbn [rbind]. rewrite H. reflexivity.
Qed.

(** X11. With a trial count of 1, rates that are 0 or 1 are all corrected to 1/2:
    a stratum of a single trial gets d-prime 0 whatever its outcome. *)
Theorem dprime_single_trial_zero (ndtri : Q -> Q) (h f : Q) :
  h == 0 \/ h == 1 -> f == 0 \/ f == 1 ->
  Analyse.dprime_rates h f 1 = Ok (1 # 2, 1 # 2) /\
  exists v, Analyse.dprime ndtri h f 1 = Ok (XFin v) /\ v == 0.
Proof.
intros Hh Hf.
assert (E : Analyse.dprime_rates h f 1 = Ok (1 # 2, 1 # 2)).
{ rewrite dprime_rates_unfold, (correct_one_single h Hh). cbn [rbind].
  rewrite (correct_one_single f Hf). reflexivity. }
split; [exact E|].
exists (ndtri (1 # 2) - ndtri (1 # 2)). unfold Analyse.dprime. rewrite E.
split; [reflexivity | ring].
Qed.

Lemma dprime_single_trial_zero_witness :
  Analyse.dprime_rates 1 0 1 = Ok (1 # 2, 1 # 2) /\
  exists v, Analyse.dprime (fun q => q) 1 0 1 = Ok (XFin v) /\ v == 0.
Proof.
apply (dprime_single_trial_zero (fun q => q) 1 0); [right | left]; reflexivity.
Defined.

(** * Further properties of the trial-list generators *)

(** ** [get_word_from_filename] *)

Lemma before_underscore_app (w rest : string) :
  has_char "_" w = false -> before_underscore (w ++ String "_" rest) = w.
Proof.
induction w as [|a w IH]; simpl; intros H; [reflexivity|].
apply orb_false_iff in H as [Ha Hw]. rewrite Ha, (IH Hw). reflexivity.
Qed.

Lemma before_underscore_none (w : string) :
  has_char "_" w = false -> before_underscore w = w.
Proof.
induction w as [|a w IH]; simpl; intros H; [reflexivity|].
apply orb_false_iff in H as [Ha Hw]. rewrite Ha, (IH Hw). reflexivity.
Qed.

Lemma get_has_char (c : ascii) :
  forall (s : string) (d : nat), get d s = Some c -> has_char c s = true.
Proof.
induction s as [|a s IH]; intros d H; [destruct d; discriminate|].
destruct d as [|d]; simpl in *.
- inversion H; subst. rewrite Ascii.eqb_refl. reflexivity.
- rewrite (IH d H). apply orb_true_r.
Qed.

Lemma get_app_lt (s : string) :
  forall (w : string) (d : nat),
    (d < String.length w)%nat -> get d (w ++ s) = get d w.
Proof.
induction w as [|a w IH]; intros d H; simpl in H; [lia|].
destruct d as [|d]; simpl; [reflexivity|]. apply IH. lia.
Qed.

Lemma get_app_len (a : ascii) (s : string) :
  forall w : string, get (String.length w) (w ++ String a s) = Some a.
Proof.
induction w as [|b w IH]; simpl; [reflexivity | exact IH].
Qed.

Lemma substring_app_gt (a : ascii) (s : string) :
  forall (w : string) (d : nat),
    (String.length w < d)%nat ->
    exists rest, substring 0 d (w ++ String a s) = w ++ String a rest.
Proof.
induction w as [|b w IH]; intros d H; simpl in H.
- destruct d as [|d]; [lia|]. simpl. eauto.
- destruct d as [|d]; [lia|]. simpl.
  destruct (IH d ltac:(lia)) as (rest & ->). eauto.
Qed.

Lemma substring_app_exact (s : string) :
  forall w : string, substring 0 (String.length w) (w ++ s) = w.
Proof.
induction w as [|b w IH]; simpl.
- destruct s; reflexivity.
- rewrite IH. reflexivity.
Qed.

Lemma rfind_from_spec (c : ascii) :
  forall (s : string) (i last r : Z),
    rfind_from c s i last = r ->
    r = last \/
    ((i <= r)%Z /\ get (Z.to_nat (r - i)) s = Some c).
Proof.
induction s as [|a s IH]; intros i last r H; simpl in H; [left; auto|].
destruct (IH _ _ _ H) as [E|[Hi Hg]].
- destruct (Ascii.eqb a c) eqn:Ea; [|left; assumption].
  right. split; [lia|]. replace (Z.to_nat (r - i)) with O by lia. simpl.
  apply Ascii.eqb_eq in Ea. subst. reflexivity.
- right. split; [lia|].
  replace (Z.to_nat (r - i)) with (S (Z.to_nat (r - (i + 1)))) by lia.
  exact Hg.
Qed.

Lemma rfind_from_absent (c : ascii) :
  forall (s : string) (i last : Z),
    has_char c s = false -> rfind_from c s i last = last.
Proof.
induction s as [|a s IH]; intros i last H; simpl in *; [reflexivity|].
apply orb_false_iff in H as [Ha Hs]. rewrite Ha. apply IH. assumption.
Qed.

Lemma rfind_from_app (c : ascii) (s : string) :
  forall (w : string) (i last : Z),
    rfind_from c (w ++ s) i last
    = rfind_from c s (i + Z.of_nat (String.length w)) (rfind_from c w i last).
Proof.
induction w as [|a w IH]; intros i last; simpl String.length.
- simpl. f_equal. lia.
- cbn [append rfind_from]. rewrite IH. f_equal. lia.
Qed.

Lemma all_dots_false (w : string) :
  w <> EmptyString -> has_char "." w = false -> all_dots w = false.
Proof.
destruct w as [|a w]; [contradiction|]. simpl. intros _ H.
apply orb_false_iff in H as [Ha _]. rewrite Ha. reflexivity.
Qed.

Lemma splitext_root_keeps_prefix (w rest : string) :
  has_char "." w = false ->
  exists rest', splitext_root (w ++ String "_" rest) = w ++ String "_" rest'.
Proof.
intros Hdot. unfold splitext_root.
set (p := w ++ String "_" rest).
destruct (rfind "/" p <? rfind "." p)%Z eqn:Elt; [|exists rest; reflexivity].
destruct (all_dots _); [exists rest; reflexivity|].
apply Z.ltb_lt in Elt.
destruct (rfind_from_spec "." p 0 (-1) (rfind "." p) eq_refl) as [E|[H0 Hg]].
{ exfalso.
  destruct (rfind_from_spec "/" p 0 (-1) (rfind "/" p) eq_refl) as [E'|[H0' _]];
    unfold rfind in *; lia. }
rewrite Z.sub_0_r in Hg.
set (d := Z.to_nat (rfind "." p)) in *. clearbody d.
unfold p in *. apply substring_app_gt.
destruct (Nat.lt_trichotomy d (String.length w)) as [L|[L|L]];
  [| |exact L]; exfalso.
- rewrite get_app_lt in Hg by assumption.
  apply get_has_char in Hg. congruence.
- rewrite L, get_app_len in Hg. discriminate.
Qed.

(** X12. The word of a file name: a name [w_rest] gives [w], for every [rest],
    when [w] has no underscore and no dot; a name [w.ext] gives [w] when
    moreover [w] is not empty and neither part has a slash or another dot.
    The three experiment scripts share the function. *)
Theorem get_word_of_prefixed_name (w : string) :
  has_char "_" w = false -> has_char "." w = false ->
  (forall rest,
      DPrimeDetection.get_word_from_filename (w ++ String "_" rest) = w) /\
  (forall ext,
      w <> EmptyString -> has_char "/" w = false ->
      has_char "." ext = false -> has_char "/" ext = false ->
      DPrimeDetection.get_word_from_filename (w ++ String "." ext) = w) /\
  MainTyping.get_word_from_filename = DPrimeDetection.get_word_from_filename /\
  ForcedChoice.get_word_from_filename = DPrimeDetection.get_word_from_filename.
Proof.
intros Hu Hd. split; [|split; [|split; reflexivity]].
- intros rest. unfold DPrimeDetection.get_word_from_filename.
  destruct (splitext_root_keeps_prefix w rest Hd) as (rest' & ->).
  apply before_underscore_app. assumption.
- intros ext Hne Hs Hde Hse. unfold DPrimeDetection.get_word_from_filename.
  assert (R : splitext_root (w ++ String "." ext) = w).
  { unfold splitext_root, rfind. rewrite !rfind_from_app.
    rewrite (rfind_from_absent "/" w 0 (-1) Hs), (rfind_from_absent "." w 0 (-1) Hd).
    cbn [rfind_from]. change (Ascii.eqb "." "/") with false.
    rewrite Ascii.eqb_refl.
    rewrite (rfind_from_absent "/" ext _ _ Hse), (rfind_from_absent "." ext _ _ Hde).
    replace (-1 <? 0 + Z.of_nat (String.length w))%Z with true
      by (symmetry; apply Z.ltb_lt; lia).
    replace (Z.to_nat (-1 + 1)) with O by reflexivity.
    replace (Z.to_nat (0 + Z.of_nat (String.length w)) - 0)%nat
      with (String.length w) by lia.
    replace (Z.to_nat (0 + Z.of_nat (String.length w))) with (String.length w) by lia.
    rewrite substring_app_exact, (all_dots_false w Hne Hd). reflexivity. }
  rewrite R. apply before_underscore_none. assumption.
Qed.

Lemma get_word_of_prefixed_name_witness :
  DPrimeDetection.get_word_from_filename ("bange" ++ String "_" "compressed.wav")
    = "bange" /\
  DPrimeDetection.get_word_from_filename ("bange" ++ String "." "wav") = "bange".
Proof.
destruct (get_word_of_prefixed_name "bange" eq_refl eq_refl) as (A & B & _).
split; [apply A | apply B; [discriminate | reflexivity ..]].
Defined.

(** ** More on the stratified generators *)

Lemma returns_ret {A : Type} (a : A) : returns (ret a).
Proof. intros s. exists a, s. reflexivity. Qed.

Lemma returns_bind {A B : Type} (m : M A) (k : A -> M B) :
  returns m -> (forall a, returns (k a)) -> returns (bind m k).
Proof.
intros Hm Hk s. destruct (Hm s) as (a & s1 & E).
rewrite (bind_step _ _ _ _ _ E). apply Hk.
Qed.

Lemma returns_choice {A : Type} (l : list A) : l <> [] -> returns (choice l).
Proof.
intros Hl s. destruct l as [|a l]; [contradiction|].
unfold choice, bind, randbelow, ret. eauto.
Qed.

Lemma returns_shuffle {A : Type} (x : list A) : returns (shuffle x).
Proof.
intros s. destruct (shuffle_total x s) as (x' & s' & E & _). eauto.
Qed.

Lemma returns_for_each {A S : Type} (body : S -> A -> M S) (xs : list A) :
  (forall acc x, In x xs -> returns (body acc x)) ->
  forall acc, returns (for_each xs body acc).
Proof.
induction xs as [|x xs IH]; intros Hb acc; simpl.
- apply returns_ret.
- apply returns_bind; [apply Hb; left; reflexivity|].
  intros acc'. apply IH. intros; apply Hb; right; assumption.
Qed.

Lemma returns_for_append {A T : Type} (body : A -> M (list T)) (xs : list A)
  (lst : list T) :
  (forall x, returns (body x)) -> returns (for_append xs body lst).
Proof.
intros Hb. unfold for_append. apply returns_for_each.
intros acc x _. apply returns_bind; [apply Hb | intros; apply returns_ret].
Qed.

Lemma slice_In {A : Type} (l : list A) (a b : nat) (x : A) :
  In x (slice l a b) -> In x l.
Proof.
unfold slice. intros H.
rewrite <- (firstn_skipn b l). apply in_or_app. left.
rewrite <- (firstn_skipn a (firstn b l)). apply in_or_app. right. exact H.
Qed.

Lemma slice_length {A : Type} (l : list A) (a n : nat) :
  (a + n <= List.length l)%nat ->
  List.length (slice l 0 a) = a /\ List.length (slice l a (a + n)) = n.
Proof.
intros H. unfold slice. rewrite skipn_O, length_skipn, !length_firstn. lia.
Qed.

Lemma count_if_app {T : Type} (c : T -> bool) (a b : list T) :
  count_if c (a ++ b) = (count_if c a + count_if c b)%nat.
Proof. unfold count_if. rewrite filter_app, length_app. reflexivity. Qed.

Lemma count_if_perm {T : Type} (c : T -> bool) (a b : list T) :
  Permutation a b -> count_if c a = count_if c b.
Proof.
unfold count_if. induction 1; simpl; try congruence.
- destruct (c x); simpl; congruence.
- destruct (c x), (c y); reflexivity.
Qed.

Lemma listing_ok (fs : filesystem) (d : string) (s : rng)
  (files : list string) (s' : rng) :
  try_except_FileNotFoundError
    (l <- listdir fs d ;; ret (filter (fun f => negb (startswith f ".")) l))
    core_quit s = Ok (files, s') ->
  exists l, fs d = Some l /\ files = usable_files l.
Proof.
unfold try_except_FileNotFoundError, listdir, bind.
destruct (fs d) as [l|]; cbn; [|discriminate].
intros H. inversion H; subst. eauto.
Qed.

Lemma two_listings_ok (fs : filesystem) (d1 d2 : string) (s : rng)
  (b m : list string) (s' : rng) :
  try_except_FileNotFoundError
    (b <- (l <- listdir fs d1 ;;
           ret (filter (fun f => negb (startswith f ".")) l)) ;;
     m <- (l <- listdir fs d2 ;;
           ret (filter (fun f => negb (startswith f ".")) l)) ;;
     ret (b, m))
    core_quit s = Ok ((b, m), s') ->
  exists b0 m0,
    fs d1 = Some b0 /\ fs d2 = Some m0 /\
    b = usable_files b0 /\ m = usable_files m0.
Proof.
unfold try_except_FileNotFoundError, listdir, bind.
destruct (fs d1) as [b0|]; cbn; [|discriminate].
destruct (fs d2) as [m0|]; cbn; [|discriminate].
intros H. inversion H; subst. exists b0, m0. auto.
Qed.

Lemma level_body_ok {T : Type} (tr : string -> string -> M (list T))
  (n_practice : nat) (fs : filesystem) (audio_dir : string) (needed : nat)
  (p q : list T) (x : string) (s : rng) (p' q' : list T) (s' : rng) :
  stratified_level_body tr n_practice fs audio_dir needed (p, q) x s
    = Ok ((p', q'), s') ->
  exists l files tssp tssq,
    fs (path_join audio_dir x) = Some l /\
    (needed <= List.length (usable_files l))%nat /\
    Permutation (usable_files l) files /\
    p' = (p ++ List.concat tssp)%list /\
    q' = (q ++ List.concat tssq)%list /\
    Forall2 (fun f ts => exists s1 s2, tr x f s1 = Ok (ts, s2))
            (slice files 0 n_practice) tssp /\
    Forall2 (fun f ts => exists s1 s2, tr x f s1 = Ok (ts, s2))
            (slice files n_practice needed) tssq.
Proof.
unfold stratified_level_body. intros H.
apply bind_ok in H as (files0 & t1 & E1 & H).
apply bind_ok in H as (u & t2 & E2 & H).
apply bind_ok in H as (files & t3 & E3 & H).
apply bind_ok in H as (pl & t4 & E4 & H).
apply bind_ok in H as (ql & t5 & E5 & H).
apply ret_ok in H as [Hp _]. inversion Hp; subst. clear Hp.
apply listing_ok in E1 as (l & El & ->).
apply guard_ok in E2 as [G _]. apply Nat.ltb_ge in G.
apply shuffle_ok in E3.
apply for_append_spec in E4 as (tssp & -> & F2p).
apply for_append_spec in E5 as (tssq & -> & F2q).
exists l, files, tssp, tssq. auto 10.
Qed.

Section StratifiedMore.

Context {T : Type}.
Variable trials_of : list string -> list string -> string -> string -> M (list T).

(** *** The run returns when the folders are sufficient *)

Section Returns.

Hypothesis trials_return :
  forall b m level f, b <> [] -> m <> [] -> returns (trials_of b m level f).

Lemma level_body_returns (b m : list string) (n_practice : nat)
  (fs : filesystem) (audio_dir : string) (needed : nat)
  (lists : list T * list T) (level : string) (l : list string) :
  b <> [] -> m <> [] ->
  fs (path_join audio_dir level) = Some l ->
  (needed <= List.length (usable_files l))%nat ->
  returns (stratified_level_body (trials_of b m) n_practice fs audio_dir needed
             lists level).
Proof.
intros Hb Hm Hfs Hlen s. destruct lists as [p q]. unfold stratified_level_body.
rewrite (bind_step _ _ s s (usable_files l))
  by (unfold try_except_FileNotFoundError, listdir, bind; rewrite Hfs; reflexivity).
rewrite (bind_step _ _ s s tt).
2:{ fold (usable_files l). apply Nat.ltb_ge in Hlen. rewrite Hlen. reflexivity. }
revert s. apply returns_bind; [apply returns_shuffle | intros files].
apply returns_bind;
  [apply returns_for_append; intros; apply trials_return; assumption | intros p'].
apply returns_bind;
  [apply returns_for_append; intros; apply trials_return; assumption | intros q'].
apply returns_ret.
Qed.

Lemma stratified_returns (levels : list string) (n_practice n_main : nat)
  (fs : filesystem) (base_dir : string) :
  folders_sufficient fs base_dir levels (n_practice + n_main) ->
  returns (stratified_generate levels n_practice n_main trials_of fs base_dir).
Proof.
intros ((b & Eb & Hb) & (m & Em & Hm) & Hl) s. unfold stratified_generate.
rewrite (bind_step _ _ s s (usable_files b, usable_files m))
  by (unfold try_except_FileNotFoundError, listdir, bind; rewrite Eb, Em; reflexivity).
assert (G : is_empty (usable_files b) || is_empty (usable_files m) = false).
{ destruct (usable_files b); [contradiction|].
  destruct (usable_files m); [contradiction|]. reflexivity. }
rewrite G. rewrite (bind_step _ _ s s tt) by reflexivity.
revert s. apply returns_bind.
- apply returns_for_each. intros acc x Hx. destruct (Hl x Hx) as (l & El & Hlen).
  eapply level_body_returns; eassumption.
- intros [p q]. apply returns_bind; [apply returns_shuffle | intros p'].
  apply returns_bind; [apply returns_shuffle | intros q']. apply returns_ret.
Qed.

End Returns.

(** *** A missing or empty folder ends the run *)

Section Missing.

Hypothesis trials_total :
  forall b m level f, b <> [] -> m <> [] ->
    returns_or_quits (trials_of b m level f).

Lemma level_body_missing (tr : string -> string -> M (list T)) (n_practice : nat)
  (fs : filesystem) (audio_dir : string) (needed : nat) (level : string) :
  fs (path_join audio_dir level) = None ->
  forall lists s,
    stratified_level_body tr n_practice fs audio_dir needed lists level s
    = Raise SystemExit.
Proof.
intros Hfs [p q] s. unfold stratified_level_body. apply bind_raise.
unfold try_except_FileNotFoundError, listdir, bind. rewrite Hfs. reflexivity.
Qed.

Lemma stratified_missing_quits (levels : list string) (n_practice n_main : nat)
  (fs : filesystem) (base_dir : string) :
  folder_missing_or_empty fs base_dir levels ->
  forall s,
    stratified_generate levels n_practice n_main trials_of fs base_dir s
    = Raise SystemExit.
Proof.
intros H s. unfold stratified_generate.
destruct (fs (path_join base_dir "babbling")) as [b|] eqn:Eb.
2:{ apply bind_raise. unfold try_except_FileNotFoundError, listdir, bind.
    rewrite Eb. reflexivity. }
destruct (fs (path_join base_dir "masks")) as [m|] eqn:Em.
2:{ apply bind_raise. unfold try_except_FileNotFoundError, listdir, bind.
    rewrite Eb, Em. reflexivity. }
rewrite (bind_step _ _ s s (usable_files b, usable_files m))
  by (unfold try_except_FileNotFoundError, listdir, bind; rewrite Eb, Em; reflexivity).
destruct (is_empty (usable_files b) || is_empty (usable_files m)) eqn:G;
  [reflexivity|].
apply orb_false_iff in G as [Gb Gm].
apply is_empty_false in Gb. apply is_empty_false in Gm.
destruct H as [H|[H|[(b' & E & H)|[(m' & E & H)|(level & Hin & E)]]]].
- congruence.
- congruence.
- rewrite Eb in E. inversion E; subst. contradiction.
- rewrite Em in E. inversion E; subst. contradiction.
- rewrite (bind_step _ _ s s tt) by reflexivity. apply bind_raise.
  apply for_each_quits with (x0 := level).
  + intros acc x. apply level_body_roq; assumption.
  + intros acc s2. apply level_body_missing. assumption.
  + assumption.
Qed.

End Missing.

(** *** How many trials of a kind the lists hold *)

Section Counts.

Variable c : T -> bool.
Variable weight : string -> nat.

Hypothesis trials_count :
  forall b m level f s ts s',
    trials_of b m level f s = Ok (ts, s') -> count_if c ts = weight level.

Lemma count_new (b m : list string) (x : string) (files : list string)
  (tss : list (list T)) :
  Forall2 (fun f ts => exists s1 s2, trials_of b m x f s1 = Ok (ts, s2)) files tss ->
  count_if c (List.concat tss) = (List.length files * weight x)%nat.
Proof.
induction 1 as [|f ts files tss (s1 & s2 & E) _ IH]; simpl; [reflexivity|].
rewrite count_if_app, IH, (trials_count _ _ _ _ _ _ _ E). reflexivity.
Qed.

Lemma level_body_counts (b m : list string) (n_practice n_main : nat)
  (fs : filesystem) (audio_dir : string) :
  forall pre x acc s acc' s',
    ~ In x pre ->
    (count_if c (fst acc) = n_practice * list_sum (map weight pre) /\
     count_if c (snd acc) = n_main * list_sum (map weight pre))%nat ->
    stratified_level_body (trials_of b m) n_practice fs audio_dir
      (n_practice + n_main) acc x s = Ok (acc', s') ->
    (count_if c (fst acc') = n_practice * list_sum (map weight (pre ++ [x])) /\
     count_if c (snd acc') = n_main * list_sum (map weight (pre ++ [x])))%nat.
Proof.
intros pre x [p q] s [p' q'] s' _ [Hp Hq] H. simpl in Hp, Hq.
apply level_body_ok in H
  as (l & files & tssp & tssq & _ & G & Pf & -> & -> & F2p & F2q).
apply Permutation_length in Pf.
destruct (slice_length files n_practice n_main ltac:(lia)) as [L1 L2].
simpl. rewrite !count_if_app, (count_new _ _ _ _ _ F2p), (count_new _ _ _ _ _ F2q).
rewrite L1, L2, Hp, Hq, map_app, list_sum_app. simpl. lia.
Qed.

Lemma stratified_counts (levels : list string) (n_practice n_main : nat)
  (fs : filesystem) (base_dir : string) (s : rng)
  (practice main : list T) (s' : rng) :
  NoDup levels ->
  stratified_generate levels n_practice n_main trials_of fs base_dir s
    = Ok ((practice, main), s') ->
  (count_if c practice = n_practice * list_sum (map weight levels) /\
   count_if c main = n_main * list_sum (map weight levels))%nat.
Proof.
intros Hlv H. unfold stratified_generate in H.
mstep H. destruct a as [b m]. mstep H. mstep H. destruct a0 as [p q].
mstep H. mstep H. apply ret_ok in H as [Hp _]. inversion Hp; subst. clear Hp.
pose proof (for_each_inv_prefix
              (fun pre acc =>
                 count_if c (fst acc) = n_practice * list_sum (map weight pre) /\
                 count_if c (snd acc) = n_main * list_sum (map weight pre))%nat
              _ (level_body_counts b m n_practice n_main fs _)
              levels [] ([], []) _ _ _ Hlv
              ltac:(split; unfold count_if; simpl; lia) E1) as Inv.
simpl in Inv. destruct Inv as [I1 I2].
apply shuffle_ok in E2. apply shuffle_ok in E3.
rewrite <- (count_if_perm c _ _ E2), <- (count_if_perm c _ _ E3). auto.
Qed.

End Counts.

(** *** Where the trials come from *)

Section Provenance.

Variable from : list string -> list string -> string -> string -> T -> Prop.

Hypothesis trials_from :
  forall b m level f s ts s',
    trials_of b m level f s = Ok (ts, s') -> Forall (from b m level f) ts.

Lemma from_new (P : T -> Prop) (b m : list string) (x : string)
  (files : list string) (tss : list (list T)) :
  (forall f t, In f files -> from b m x f t -> P t) ->
  Forall2 (fun f ts => exists s1 s2, trials_of b m x f s1 = Ok (ts, s2)) files tss ->
  Forall P (List.concat tss).
Proof.
intros HP F. induction F as [|f ts files tss (s1 & s2 & E) _ IH]; simpl;
  [constructor|].
apply Forall_app. split.
- eapply Forall_impl; [|exact (trials_from _ _ _ _ _ _ _ E)].
  intros t Ht. eapply HP; [left; reflexivity | exact Ht].
- apply IH. intros f' t Hf. apply HP. right. assumption.
Qed.

Lemma stratified_from (levels : list string) (n_practice n_main : nat)
  (fs : filesystem) (base_dir : string) (s : rng)
  (practice main : list T) (s' : rng) :
  stratified_generate levels n_practice n_main trials_of fs base_dir s
    = Ok ((practice, main), s') ->
  stratified_provenance from fs base_dir levels (practice ++ main).
Proof.
intros H. unfold stratified_generate in H.
mstep H. destruct a as [b m]. mstep H. mstep H. destruct a0 as [p q].
mstep H. mstep H. apply ret_ok in H as [Hp _]. inversion Hp; subst. clear Hp.
apply two_listings_ok in E as (b0 & m0 & Eb & Em & -> & ->).
exists b0, m0. split; [assumption | split; [assumption|]].
set (P := fun t : T =>
            exists level files f,
              In level levels /\
              fs (path_join (path_join base_dir "audio") level) = Some files /\
              In f (usable_files files) /\
              from (usable_files b0) (usable_files m0) level f t).
assert (Inv : Forall P (fst (p, q)) /\ Forall P (snd (p, q))).
{ eapply (for_each_inv (fun acc => Forall P (fst acc) /\ Forall P (snd acc)));
    [| |exact E1]; [|split; constructor].
  intros [p0 q0] x ? [p1 q1] ? Hx [Fp Fq] Hb. simpl in Fp, Fq.
  apply level_body_ok in Hb
    as (l & files & tssp & tssq & El & _ & Pf & -> & -> & F2p & F2q).
  assert (New : forall f t, In f files ->
                  from (usable_files b0) (usable_files m0) x f t -> P t).
  { intros f t Hf Ht. exists x, l, f. repeat split; try assumption.
    eapply Permutation_in; [apply Permutation_sym; exact Pf | exact Hf]. }
  simpl. split; apply Forall_app; split; try assumption.
  - eapply from_new; [|exact F2p]. intros f t Hf. apply New.
    eapply slice_In; eassumption.
  - eapply from_new; [|exact F2q]. intros f t Hf. apply New.
    eapply slice_In; eassumption. }
destruct Inv as [Fp Fq].
apply shuffle_ok in E2. apply shuffle_ok in E3.
apply Forall_app. split;
  [eapply Permutation_Forall; [exact E2 | exact Fp]
  |eapply Permutation_Forall; [exact E3 | exact Fq]].
Qed.

End Provenance.

End StratifiedMore.

(** *** The two instances, continued *)

Lemma trial_pair_returns (b m : list string) (level f : string) :
  b <> [] -> m <> [] -> returns (DPrimeDetection.trial_pair level b m f).
Proof.
intros Hb Hm. unfold DPrimeDetection.trial_pair,
  DPrimeDetection.present_trial, DPrimeDetection.absent_trial.
repeat (apply returns_bind; [|intros ?]);
  try (apply returns_choice; assumption); apply returns_ret.
Qed.

Lemma word_trial_returns (b m : list string) (level f : string) :
  b <> [] -> m <> [] -> returns (MainTyping.word_trial level b m f).
Proof.
intros Hb Hm. unfold MainTyping.word_trial.
repeat (apply returns_bind; [|intros ?]);
  try (apply returns_choice; assumption); apply returns_ret.
Qed.

Lemma trial_pair_run (b m : list string) (level f : string) (s : rng)
  (ts : list DPrimeDetection.trial) (s' : rng) :
  DPrimeDetection.trial_pair level b m f s = Ok (ts, s') ->
  exists b1 m1 m2 b2 m3 m4,
    In b1 b /\ In m1 m /\ In m2 m /\ In b2 b /\ In m3 m /\ In m4 m /\
    ts = [DPrimeDetection.mkTrial "present" level f
            (DPrimeDetection.get_word_from_filename f) b1 m1 m2;
          DPrimeDetection.mkTrial "absent" level "SILENCE" "NA" b2 m3 m4].
Proof.
unfold DPrimeDetection.trial_pair, DPrimeDetection.present_trial,
  DPrimeDetection.absent_trial. intros H.
apply bind_ok in H as (p & t1 & Ep & H).
apply bind_ok in H as (a & t2 & Ea & H).
apply ret_ok in H as [-> _].
apply bind_ok in Ep as (b1 & u1 & E1 & Ep).
apply bind_ok in Ep as (m1 & u2 & E2 & Ep).
apply bind_ok in Ep as (m2 & u3 & E3 & Ep).
apply ret_ok in Ep as [-> _].
apply bind_ok in Ea as (b2 & v1 & F1 & Ea).
apply bind_ok in Ea as (m3 & v2 & F2 & Ea).
apply bind_ok in Ea as (m4 & v3 & F3 & Ea).
apply ret_ok in Ea as [-> _].
apply choice_ok in E1, E2, E3, F1, F2, F3.
exists b1, m1, m2, b2, m3, m4. auto 10.
Qed.

Lemma word_trial_run (b m : list string) (level f : string) (s : rng)
  (ts : list MainTyping.trial) (s' : rng) :
  MainTyping.word_trial level b m f s = Ok (ts, s') ->
  exists b1 m1 m2,
    In b1 b /\ In m1 m /\ In m2 m /\
    ts = [MainTyping.mkTrial level f (MainTyping.get_word_from_filename f)
            b1 m1 m2].
Proof.
unfold MainTyping.word_trial. intros H.
apply bind_ok in H as (b1 & u1 & E1 & H).
apply bind_ok in H as (m1 & u2 & E2 & H).
apply bind_ok in H as (m2 & u3 & E3 & H).
apply ret_ok in H as [-> _].
apply choice_ok in E1, E2, E3. exists b1, m1, m2. auto.
Qed.

Lemma detection_sum_one (level : string) :
  In level DPrimeDetection.COMPRESSION_LEVELS ->
  list_sum (map (fun x => if String.eqb x level then 1 else 0)%nat
                DPrimeDetection.COMPRESSION_LEVELS) = 1%nat.
Proof.
unfold DPrimeDetection.COMPRESSION_LEVELS. simpl.
intros H. repeat (destruct H as [<-|H]; [reflexivity|]). contradiction.
Qed.

Lemma typing_sum_one (level : string) :
  In level MainTyping.COMPRESSION_LEVELS ->
  list_sum (map (fun x => if String.eqb x level then 1 else 0)%nat
                MainTyping.COMPRESSION_LEVELS) = 1%nat.
Proof.
unfold MainTyping.COMPRESSION_LEVELS. simpl.
intros H. repeat (destruct H as [<-|H]; [reflexivity|]). contradiction.
Qed.

Lemma sum_constant (k : nat) (l : list string) :
  list_sum (map (fun _ => k) l) = (List.length l * k)%nat.
Proof. induction l as [|x l IH]; simpl; [reflexivity | rewrite IH; lia]. Qed.

Lemma count_if_all {T : Type} (l : list T) :
  count_if (fun _ => true) l = List.length l.
Proof.
unfold count_if. induction l as [|x l IH]; simpl; [reflexivity | congruence].
Qed.

(** ** Properties of the stratified generators *)

(** X13. When the babbling and masks folders each hold a usable file and every
    level folder holds at least the practice and main counts together,
    [generate_trial_lists] of both scripts returns its two lists, whatever
    the random draws. *)
Theorem stratified_generators_return (fs : filesystem) (base_dir : string)
  (s : rng) :
  (folders_sufficient fs base_dir DPrimeDetection.COMPRESSION_LEVELS
     (DPrimeDetection.N_PRACTICE_REPS_PER_LEVEL
      + DPrimeDetection.N_MAIN_REPS_PER_LEVEL) ->
   exists practice main s',
     DPrimeDetection.generate_trial_lists fs base_dir s
       = Ok ((practice, main), s')) /\
  (folders_sufficient fs base_dir MainTyping.COMPRESSION_LEVELS
     (MainTyping.N_PRACTICE_WORDS_PER_FOLDER
      + MainTyping.N_MAIN_WORDS_PER_FOLDER) ->
   exists practice main s',
     MainTyping.generate_trial_lists fs base_dir s = Ok ((practice, main), s')).
Proof.
split; intros H.
- rewrite detection_is_stratified.
  destruct (stratified_returns
              (fun b m level => DPrimeDetection.trial_pair level b m)
              (fun b m level f Hb Hm => trial_pair_returns b m level f Hb Hm)
              _ _ _ fs base_dir H s) as ([p q] & s' & E).
  eauto.
- rewrite typing_is_stratified.
  destruct (stratified_returns
              (fun b m level => MainTyping.word_trial level b m)
              (fun b m level f Hb Hm => word_trial_returns b m level f Hb Hm)
              _ _ _ fs base_dir H s) as ([p q] & s' & E).
  eauto.
Qed.

Lemma detection_fs_sufficient (levels : list string) (needed : nat) :
  incl levels MainTyping.COMPRESSION_LEVELS -> (needed <= 8)%nat ->
  folders_sufficient detection_fs "exp" levels needed.
Proof.
intros Hi Hn. split; [|split].
- eexists. split; [reflexivity | discriminate].
- eexists. split; [reflexivity | discriminate].
- intros level Hl. apply Hi in Hl. exists example_words.
  split; [|vm_compute; lia].
  unfold MainTyping.COMPRESSION_LEVELS in Hl. simpl in Hl.
  repeat (destruct Hl as [<-|Hl]; [reflexivity|]). contradiction.
Qed.

Lemma stratified_generators_return_witness :
  (exists practice main s',
     DPrimeDetection.generate_trial_lists detection_fs "exp" example_rng
       = Ok ((practice, main), s')) /\
  (exists practice main s',
     MainTyping.generate_trial_lists detection_fs "exp" example_rng
       = Ok ((practice, main), s')).
Proof.
split.
- apply (proj1 (stratified_generators_return detection_fs "exp" example_rng)).
  apply detection_fs_sufficient; [|vm_compute; lia].
  intros x Hx. unfold DPrimeDetection.COMPRESSION_LEVELS in Hx.
  unfold MainTyping.COMPRESSION_LEVELS. simpl in *. tauto.
- apply (proj2 (stratified_generators_return detection_fs "exp" example_rng)).
  apply detection_fs_sufficient; [|vm_compute; lia].
  intros x Hx. exact Hx.
Defined.

(** X14. A missing babbling, masks or level folder, or a babbling or masks
    folder without usable file, ends [generate_trial_lists] of both scripts
    in [core.quit()]. *)
Theorem stratified_generators_quit_on_missing_folder (fs : filesystem)
  (base_dir : string) (s : rng) :
  (folder_missing_or_empty fs base_dir DPrimeDetection.COMPRESSION_LEVELS ->
   DPrimeDetection.generate_trial_lists fs base_dir s = Raise SystemExit) /\
  (folder_missing_or_empty fs base_dir MainTyping.COMPRESSION_LEVELS ->
   MainTyping.generate_trial_lists fs base_dir s = Raise SystemExit).
Proof.
split; intros H.
- rewrite detection_is_stratified.
  apply stratified_missing_quits; [|assumption].
  intros b m lv f Hb Hm. apply trial_pair_total; assumption.
- rewrite typing_is_stratified.
  apply stratified_missing_quits; [|assumption].
  intros b m lv f Hb Hm. apply word_trial_total; assumption.
Qed.

(** The example folder has levels 0.1 to 0.8; an experiment folder one
    level up has none of the folders. *)
Lemma stratified_generators_quit_on_missing_folder_witness :
  DPrimeDetection.generate_trial_lists detection_fs "elsewhere" example_rng
    = Raise SystemExit /\
  MainTyping.generate_trial_lists detection_fs "elsewhere" example_rng
    = Raise SystemExit.
Proof.
split.
- apply (proj1 (stratified_generators_quit_on_missing_folder
                  detection_fs "elsewhere" example_rng)).
  left. reflexivity.
- apply (proj2 (stratified_generators_quit_on_missing_folder
                  detection_fs "elsewhere" example_rng)).
  left. reflexivity.
Defined.

Lemma detection_counts (fs : filesystem) (base_dir : string) (s : rng)
  (practice main : list DPrimeDetection.trial) (s' : rng) :
  DPrimeDetection.generate_trial_lists fs base_dir s = Ok ((practice, main), s') ->
  (forall level sig,
      In level DPrimeDetection.COMPRESSION_LEVELS ->
      sig = "present" \/ sig = "absent" ->
      count_if (detection_class level sig) practice
        = DPrimeDetection.N_PRACTICE_REPS_PER_LEVEL /\
      count_if (detection_class level sig) main
        = DPrimeDetection.N_MAIN_REPS_PER_LEVEL) /\
  List.length practice
    = (2 * List.length DPrimeDetection.COMPRESSION_LEVELS
       * DPrimeDetection.N_PRACTICE_REPS_PER_LEVEL)%nat /\
  List.length main
    = (2 * List.length DPrimeDetection.COMPRESSION_LEVELS
       * DPrimeDetection.N_MAIN_REPS_PER_LEVEL)%nat.
Proof.
intros H. rewrite detection_is_stratified in H. split.
- intros level sig Hl Hs.
  destruct (stratified_counts
              (fun b m lv => DPrimeDetection.trial_pair lv b m)
              (detection_class level sig)
              (fun x => if String.eqb x level then 1 else 0)%nat) with
    (levels := DPrimeDetection.COMPRESSION_LEVELS)
    (n_practice := DPrimeDetection.N_PRACTICE_REPS_PER_LEVEL)
    (n_main := DPrimeDetection.N_MAIN_REPS_PER_LEVEL)
    (fs := fs) (base_dir := base_dir) (s := s) (practice := practice)
    (main := main) (s' := s') as [C1 C2].
  + intros b m lv f s0 ts s1 E.
    apply trial_pair_run in E as (b1 & m1 & m2 & b2 & m3 & m4 & _ & _ & _ & _ & _ & _ & ->).
    unfold count_if, detection_class. simpl.
    destruct (String.eqb lv level); simpl; [|reflexivity].
    destruct Hs as [-> | ->]; reflexivity.
  + apply detection_levels_distinct.
  + exact H.
  + rewrite C1, C2, (detection_sum_one level Hl). lia.
- destruct (stratified_counts
              (fun b m lv => DPrimeDetection.trial_pair lv b m)
              (fun _ => true) (fun _ => 2%nat)) with
    (levels := DPrimeDetection.COMPRESSION_LEVELS)
    (n_practice := DPrimeDetection.N_PRACTICE_REPS_PER_LEVEL)
    (n_main := DPrimeDetection.N_MAIN_REPS_PER_LEVEL)
    (fs := fs) (base_dir := base_dir) (s := s) (practice := practice)
    (main := main) (s' := s') as [C1 C2].
  + intros b m lv f s0 ts s1 E.
    apply trial_pair_run in E as (b1 & m1 & m2 & b2 & m3 & m4 & _ & _ & _ & _ & _ & _ & ->).
    reflexivity.
  + apply detection_levels_distinct.
  + exact H.
  + rewrite !count_if_all, sum_constant in *. lia.
Qed.

(** X15. The lists of the detection experiment are balanced: for every
    compression level the practice list holds as many signal-present as
    signal-absent trials, [N_PRACTICE_REPS_PER_LEVEL] of each, the main list
    [N_MAIN_REPS_PER_LEVEL] of each; the lists hold nothing else. *)
Theorem detection_lists_balanced (fs : filesystem) (base_dir : string) (s : rng)
  (practice main : list DPrimeDetection.trial) (s' : rng) :
  DPrimeDetection.generate_trial_lists fs base_dir s = Ok ((practice, main), s') ->
  (forall level sig,
      In level DPrimeDetection.COMPRESSION_LEVELS ->
      sig = "present" \/ sig = "absent" ->
      count_if (detection_class level sig) practice
        = DPrimeDetection.N_PRACTICE_REPS_PER_LEVEL /\
      count_if (detection_class level sig) main
        = DPrimeDetection.N_MAIN_REPS_PER_LEVEL) /\
  List.length practice
    = (2 * List.length DPrimeDetection.COMPRESSION_LEVELS
       * DPrimeDetection.N_PRACTICE_REPS_PER_LEVEL)%nat /\
  List.length main
    = (2 * List.length DPrimeDetection.COMPRESSION_LEVELS
       * DPrimeDetection.N_MAIN_REPS_PER_LEVEL)%nat.
Proof. apply detection_counts. Qed.

Lemma detection_lists_balanced_witness :
  exists practice main s',
    DPrimeDetection.generate_trial_lists detection_fs "exp" example_rng
      = Ok ((practice, main), s') /\
    List.length practice = 14%nat /\ List.length main = 98%nat /\
    count_if (detection_class "0.3" "absent") main = 7%nat.
Proof.
do 3 eexists. split; [vm_compute; reflexivity|].
split; [reflexivity|]. split; [reflexivity|].
refine (proj2 (proj1 (detection_lists_balanced detection_fs "exp" example_rng
                        _ _ _ _) "0.3" "absent" _ _)).
- vm_compute. reflexivity.
- simpl. tauto.
- right. reflexivity.
Defined.

(** X16. The lists of the typing experiment hold, for every compression level,
    [N_PRACTICE_WORDS_PER_FOLDER] practice trials and
    [N_MAIN_WORDS_PER_FOLDER] main trials, and nothing else. *)
Theorem typing_lists_stratified (fs : filesystem) (base_dir : string) (s : rng)
  (practice main : list MainTyping.trial) (s' : rng) :
  MainTyping.generate_trial_lists fs base_dir s = Ok ((practice, main), s') ->
  (forall level,
      In level MainTyping.COMPRESSION_LEVELS ->
      count_if (typing_class level) practice
        = MainTyping.N_PRACTICE_WORDS_PER_FOLDER /\
      count_if (typing_class level) main = MainTyping.N_MAIN_WORDS_PER_FOLDER) /\
  List.length practice
    = (List.length MainTyping.COMPRESSION_LEVELS
       * MainTyping.N_PRACTICE_WORDS_PER_FOLDER)%nat /\
  List.length main
    = (List.length MainTyping.COMPRESSION_LEVELS
       * MainTyping.N_MAIN_WORDS_PER_FOLDER)%nat.
Proof.
intros H. rewrite typing_is_stratified in H. split.
- intros level Hl.
  destruct (stratified_counts
              (fun b m lv => MainTyping.word_trial lv b m)
              (typing_class level)
              (fun x => if String.eqb x level then 1 else 0)%nat) with
    (levels := MainTyping.COMPRESSION_LEVELS)
    (n_practice := MainTyping.N_PRACTICE_WORDS_PER_FOLDER)
    (n_main := MainTyping.N_MAIN_WORDS_PER_FOLDER)
    (fs := fs) (base_dir := base_dir) (s := s) (practice := practice)
    (main := main) (s' := s') as [C1 C2].
  + intros b m lv f s0 ts s1 E.
    apply word_trial_run in E as (b1 & m1 & m2 & _ & _ & _ & ->).
    unfold count_if, typing_class. simpl.
    destruct (String.eqb lv level); reflexivity.
  + apply typing_levels_distinct.
  + exact H.
  + rewrite C1, C2, (typing_sum_one level Hl). lia.
- destruct (stratified_counts
              (fun b m lv => MainTyping.word_trial lv b m)
              (fun _ => true) (fun _ => 1%nat)) with
    (levels := MainTyping.COMPRESSION_LEVELS)
    (n_practice := MainTyping.N_PRACTICE_WORDS_PER_FOLDER)
    (n_main := MainTyping.N_MAIN_WORDS_PER_FOLDER)
    (fs := fs) (base_dir := base_dir) (s := s) (practice := practice)
    (main := main) (s' := s') as [C1 C2].
  + intros b m lv f s0 ts s1 E.
    apply word_trial_run in E as (b1 & m1 & m2 & _ & _ & _ & ->).
    reflexivity.
  + apply typing_levels_distinct.
  + exact H.
  + rewrite !count_if_all, sum_constant in *. lia.
Qed.

Lemma typing_lists_stratified_witness :
  exists practice main s',
    MainTyping.generate_trial_lists detection_fs "exp" example_rng
      = Ok ((practice, main), s') /\
    List.length practice = 8%nat /\ List.length main = 8%nat /\
    count_if (typing_class "0.8") practice = 1%nat.
Proof.
do 3 eexists. split; [vm_compute; reflexivity|].
split; [reflexivity|]. split; [reflexivity|].
refine (proj1 (proj1 (typing_lists_stratified detection_fs "exp" example_rng
                        _ _ _ _) "0.8" _)).
- vm_compute. reflexivity.
- simpl. tauto.
Defined.

(** X17. Every trial of the returned lists is made from the folders: its level
    is one of [COMPRESSION_LEVELS], its babbling and mask files are usable
    files of the babbling and masks folders, a signal-present trial (every
    trial, in the typing experiment) has a usable file of its level folder as
    prime and the word of that file as correct word, a signal-absent trial
    has SILENCE and NA. *)
Theorem stratified_trials_come_from_folders (fs : filesystem)
  (base_dir : string) (s : rng) :
  (forall practice main s',
      DPrimeDetection.generate_trial_lists fs base_dir s
        = Ok ((practice, main), s') ->
      stratified_provenance detection_trial_from fs base_dir
        DPrimeDetection.COMPRESSION_LEVELS (practice ++ main)) /\
  (forall practice main s',
      MainTyping.generate_trial_lists fs base_dir s = Ok ((practice, main), s') ->
      stratified_provenance typing_trial_from fs base_dir
        MainTyping.COMPRESSION_LEVELS (practice ++ main)).
Proof.
split; intros practice main s' H.
- rewrite detection_is_stratified in H.
  eapply stratified_from; [|exact H].
  intros b m lv f s0 ts s1 E.
  apply trial_pair_run in E
    as (b1 & m1 & m2 & b2 & m3 & m4 & ? & ? & ? & ? & ? & ? & ->).
  constructor; [|constructor; [|constructor]];
    unfold detection_trial_from; simpl; auto 10.
- rewrite typing_is_stratified in H.
  eapply stratified_from; [|exact H].
  intros b m lv f s0 ts s1 E.
  apply word_trial_run in E as (b1 & m1 & m2 & ? & ? & ? & ->).
  constructor; [|constructor]. unfold typing_trial_from. simpl. auto 10.
Qed.

Lemma stratified_trials_come_from_folders_witness :
  exists practice main s',
    DPrimeDetection.generate_trial_lists detection_fs "exp" example_rng
      = Ok ((practice, main), s') /\
    stratified_provenance detection_trial_from detection_fs "exp"
      DPrimeDetection.COMPRESSION_LEVELS (practice ++ main).
Proof.
do 3 eexists. split; [vm_compute; reflexivity|].
eapply (proj1 (stratified_trials_come_from_folders detection_fs "exp" example_rng)).
vm_compute. reflexivity.
Defined.

(** ** forced_choice.py: the generated list *)

Lemma while_equal_from (redraw : M string) (fixed : string) (fuel : nat) :
  forall (var : string) (s : rng) (v : string) (s' : rng),
    while_equal fuel fixed var redraw s = Ok (v, s') ->
    v = var \/ exists s1 s2, redraw s1 = Ok (v, s2).
Proof.
induction fuel as [|k IH]; intros var s v s' H; simpl in H;
  destruct (String.eqb var fixed) eqn:E.
- discriminate.
- apply ret_ok in H as [-> _]. left. reflexivity.
- apply bind_ok in H as (c & s1 & Ec & H).
  destruct (IH _ _ _ _ H) as [->|?]; [right; eauto | right; assumption].
- apply ret_ok in H as [-> _]. left. reflexivity.
Qed.

Lemma fc_trial_body_run (fuel : nat) (prime_list : list ForcedChoice.prime)
  (words babbling masks : list string) (i : nat) (s : rng)
  (ts : list ForcedChoice.trial) (s' : rng) :
  ForcedChoice.trial_body fuel prime_list words babbling masks i s = Ok (ts, s') ->
  exists entry m1 m2 d bf,
    nth_error prime_list i = Some entry /\
    In m1 masks /\ In m2 masks /\ In d words /\ In bf babbling /\
    ts = [ForcedChoice.mkTrial (i + 1) (ForcedChoice.file entry)
            (ForcedChoice.valence entry) (ForcedChoice.word entry) d bf m1 m2].
Proof.
unfold ForcedChoice.trial_body. intros H.
apply bind_ok in H as (m1 & t1 & E1 & H).
apply bind_ok in H as (m2 & t2 & E2 & H).
apply bind_ok in H as (m2' & t3 & E3 & H).
destruct (nth_error prime_list i) as [entry|]; [|discriminate].
apply bind_ok in H as (d & t4 & E4 & H).
apply bind_ok in H as (d' & t5 & E5 & H).
apply bind_ok in H as (bf & t6 & E6 & H).
apply ret_ok in H as [-> _].
apply choice_ok in E1, E2, E4, E6.
assert (Hm : In m2' masks).
{ destruct (while_equal_from _ _ _ _ _ _ _ E3) as [->|(u1 & u2 & Hc)];
    [assumption | eapply choice_ok; eassumption]. }
assert (Hd : In d' words).
{ destruct (while_equal_from _ _ _ _ _ _ _ E5) as [->|(u1 & u2 & Hc)];
    [assumption | eapply choice_ok; eassumption]. }
exists entry, m1, m2', d', bf. auto 10.
Qed.

Lemma five_listings_ok (fs : filesystem) (base_dir : string) (s : rng)
  (pos neg neu b m : list string) (s' : rng) :
  try_except_FileNotFoundError
    (pos <- ForcedChoice.get_files_from_dir fs
              (path_join (path_join base_dir "primes") "positive") ;;
     neg <- ForcedChoice.get_files_from_dir fs
              (path_join (path_join base_dir "primes") "negative") ;;
     neu <- ForcedChoice.get_files_from_dir fs
              (path_join (path_join base_dir "primes") "neutrale") ;;
     b <- ForcedChoice.get_files_from_dir fs (path_join base_dir "babbling") ;;
     m <- ForcedChoice.get_files_from_dir fs (path_join base_dir "masks") ;;
     ret (pos, neg, neu, b, m))
    core_quit s = Ok ((pos, neg, neu, b, m), s') ->
  exists pos0 neg0 neu0 b0 m0,
    fc_folders fs base_dir pos0 neg0 neu0 b0 m0 /\
    pos = usable_files pos0 /\ neg = usable_files neg0 /\
    neu = usable_files neu0 /\ b = usable_files b0 /\ m = usable_files m0 /\
    s' = s.
Proof.
unfold try_except_FileNotFoundError, ForcedChoice.get_files_from_dir, listdir,
  bind, fc_folders.
destruct (fs (path_join (path_join base_dir "primes") "positive")) as [pos0|];
  cbn [ret raise core_quit]; [|discriminate].
destruct (fs (path_join (path_join base_dir "primes") "negative")) as [neg0|];
  cbn [ret raise core_quit]; [|discriminate].
destruct (fs (path_join (path_join base_dir "primes") "neutrale")) as [neu0|];
  cbn [ret raise core_quit]; [|discriminate].
destruct (fs (path_join base_dir "babbling")) as [b0|]; cbn [ret raise core_quit]; [|discriminate].
destruct (fs (path_join base_dir "masks")) as [m0|]; cbn [ret raise core_quit]; [|discriminate].
intros H. inversion H; subst. exists pos0, neg0, neu0, b0, m0. auto 12.
Qed.

Lemma five_listings_run (fs : filesystem) (base_dir : string) (s : rng)
  (pos neg neu b m : list string) :
  fc_folders fs base_dir pos neg neu b m ->
  try_except_FileNotFoundError
    (pos <- ForcedChoice.get_files_from_dir fs
              (path_join (path_join base_dir "primes") "positive") ;;
     neg <- ForcedChoice.get_files_from_dir fs
              (path_join (path_join base_dir "primes") "negative") ;;
     neu <- ForcedChoice.get_files_from_dir fs
              (path_join (path_join base_dir "primes") "neutrale") ;;
     b <- ForcedChoice.get_files_from_dir fs (path_join base_dir "babbling") ;;
     m <- ForcedChoice.get_files_from_dir fs (path_join base_dir "masks") ;;
     ret (pos, neg, neu, b, m))
    core_quit s
  = Ok ((usable_files pos, usable_files neg, usable_files neu,
         usable_files b, usable_files m), s).
Proof.
intros (E1 & E2 & E3 & E4 & E5).
unfold try_except_FileNotFoundError, ForcedChoice.get_files_from_dir, listdir,
  bind. rewrite E1. cbn [ret raise core_quit]. rewrite E2. cbn [ret raise core_quit].
rewrite E3. cbn [ret raise core_quit]. rewrite E4. cbn [ret raise core_quit].
rewrite E5. reflexivity.
Qed.

(** What a returned list is made of. *)
Lemma fc_generate_decompose (fuel : nat) (fs : filesystem) (base_dir : string)
  (s : rng) (trials : list ForcedChoice.trial) (s' : rng) :
  ForcedChoice.generate_trial_list fuel fs base_dir s = Ok (trials, s') ->
  exists pos neg neu b m pc nc uc pl tss,
    fc_folders fs base_dir pos neg neu b m /\
    fc_folders_accepted pos neg neu b m /\
    (Forall (fun f => In f (usable_files pos)) pc /\
     List.length pc = ForcedChoice.N_POS_PRIMES) /\
    (Forall (fun f => In f (usable_files neg)) nc /\
     List.length nc = ForcedChoice.N_NEG_PRIMES) /\
    (Forall (fun f => In f (usable_files neu)) uc /\
     List.length uc = ForcedChoice.N_NEU_PRIMES) /\
    Permutation
      (map (fun f => ForcedChoice.mkPrime f "positive"
                       (ForcedChoice.get_word_from_filename f)) pc
       ++ map (fun f => ForcedChoice.mkPrime f "negative"
                          (ForcedChoice.get_word_from_filename f)) nc
       ++ map (fun f => ForcedChoice.mkPrime f "neutral"
                          (ForcedChoice.get_word_from_filename f)) uc) pl /\
    Forall2 (fun i ts =>
               exists s1 s2,
                 ForcedChoice.trial_body fuel pl (master_words pos neg neu)
                   (usable_files b) (usable_files m) i s1 = Ok (ts, s2))
            (seq 0 ForcedChoice.N_TOTAL_TRIALS) tss /\
    Permutation (List.concat tss) trials.
Proof.
unfold ForcedChoice.generate_trial_list. intros H.
apply bind_ok in H as ([[[[pos neg] neu] b] m] & t1 & E1 & H).
apply bind_ok in H as (u1 & t2 & G1 & H).
apply bind_ok in H as (u2 & t3 & G2 & H).
apply bind_ok in H as (pc & t4 & Ep & H).
apply bind_ok in H as (nc & t5 & En & H).
apply bind_ok in H as (uc & t6 & Eu & H).
apply bind_ok in H as (pl & t7 & Es & H).
apply bind_ok in H as (gen & t8 & Eg & H).
apply bind_ok in H as (out & t9 & Eo & H).
apply ret_ok in H as [-> _].
apply five_listings_ok in E1
  as (pos0 & neg0 & neu0 & b0 & m0 & F & -> & -> & -> & -> & -> & _).
apply guard_ok in G1 as [G1 _]. apply guard_ok in G2 as [G2 _].
apply Nat.ltb_ge in G2.
repeat (apply orb_false_iff in G1 as [G1 ?]).
apply choices_ok in Ep, En, Eu. apply shuffle_ok in Es, Eo.
apply for_append_spec in Eg as (tss & -> & F2).
exists pos0, neg0, neu0, b0, m0, pc, nc, uc, pl, tss.
split; [exact F|]. split.
{ unfold fc_folders_accepted. repeat split; try (apply is_empty_false; assumption).
  exact G2. }
split; [exact Ep|]. split; [exact En|]. split; [exact Eu|].
split; [rewrite <- app_assoc in Es; exact Es|].
split; [exact F2 | exact Eo].
Qed.

Lemma fc_rows_of_entries (fuel : nat) (pl : list ForcedChoice.prime)
  (words babbling masks : list string) :
  forall (n a : nat) (tss : list (list ForcedChoice.trial)),
    Forall2 (fun i ts =>
               exists s1 s2,
                 ForcedChoice.trial_body fuel pl words babbling masks i s1
                 = Ok (ts, s2)) (seq a n) tss ->
    map entry_of (List.concat tss) = firstn n (skipn a pl) /\
    map ForcedChoice.trial_i (List.concat tss) = seq (a + 1) n.
Proof.
induction n as [|n IH]; intros a tss F; simpl in F.
- inversion F; subst. simpl. split; reflexivity.
- inversion F as [|i ts rest tss' (s1 & s2 & E) F']; subst.
  destruct (IH _ _ F') as (I1 & I2).
  apply fc_trial_body_run in E
    as (entry & m1 & m2 & d & bf & Hn & _ & _ & _ & _ & ->).
  simpl List.concat. cbn [map app]. rewrite I1, I2.
  assert (Hs : skipn a pl = entry :: skipn (S a) pl).
  { clear -Hn. revert a Hn. induction pl as [|e pl IHp]; intros a Hn.
    - destruct a; discriminate.
    - destruct a as [|a]; simpl in *.
      + inversion Hn. reflexivity.
      + apply IHp. assumption. }
  rewrite Hs. cbn [firstn]. unfold entry_of. cbn.
  destruct entry as [f v w]. cbn.
  split; [reflexivity|]. f_equal.
Qed.

Lemma count_valence_entries (v : string) (l : list ForcedChoice.trial) :
  count_if (has_valence v) l
  = count_if (fun e => String.eqb (ForcedChoice.valence e) v) (map entry_of l).
Proof.
unfold count_if, has_valence. induction l as [|t l IH]; simpl; [reflexivity|].
destruct (String.eqb (ForcedChoice.prime_valence t) v); simpl; congruence.
Qed.

Lemma count_valence_made (v v0 : string) (g : string -> string) (l : list string) :
  count_if (fun e => String.eqb (ForcedChoice.valence e) v)
           (map (fun f => ForcedChoice.mkPrime f v0 (g f)) l)
  = if String.eqb v0 v then List.length l else O.
Proof.
unfold count_if. induction l as [|f l IH]; simpl.
- destruct (String.eqb v0 v); reflexivity.
- destruct (String.eqb v0 v); simpl; congruence.
Qed.

Lemma fc_entries (fuel : nat) (fs : filesystem) (base_dir : string)
  (s : rng) (trials : list ForcedChoice.trial) (s' : rng) :
  ForcedChoice.generate_trial_list fuel fs base_dir s = Ok (trials, s') ->
  exists pos neg neu b m pc nc uc,
    fc_folders fs base_dir pos neg neu b m /\
    fc_folders_accepted pos neg neu b m /\
    (Forall (fun f => In f (usable_files pos)) pc /\
     List.length pc = ForcedChoice.N_POS_PRIMES) /\
    (Forall (fun f => In f (usable_files neg)) nc /\
     List.length nc = ForcedChoice.N_NEG_PRIMES) /\
    (Forall (fun f => In f (usable_files neu)) uc /\
     List.length uc = ForcedChoice.N_NEU_PRIMES) /\
    Permutation
      (map (fun f => ForcedChoice.mkPrime f "positive"
                       (ForcedChoice.get_word_from_filename f)) pc
       ++ map (fun f => ForcedChoice.mkPrime f "negative"
                          (ForcedChoice.get_word_from_filename f)) nc
       ++ map (fun f => ForcedChoice.mkPrime f "neutral"
                          (ForcedChoice.get_word_from_filename f)) uc)
      (map entry_of trials) /\
    Permutation (map ForcedChoice.trial_i trials)
                (seq 1 ForcedChoice.N_TOTAL_TRIALS) /\
    Forall (fun t =>
              In (ForcedChoice.distractor_word t) (master_words pos neg neu) /\
              In (ForcedChoice.babbling_file t) (usable_files b) /\
              In (ForcedChoice.mask1_file t) (usable_files m) /\
              In (ForcedChoice.mask2_file t) (usable_files m)) trials.
Proof.
intros H. apply fc_generate_decompose in H
  as (pos & neg & neu & b & m & pc & nc & uc & pl & tss
      & F & A & Hp & Hn & Hu & Ppl & F2 & Pt).
exists pos, neg, neu, b, m, pc, nc, uc.
split; [exact F|]. split; [exact A|].
split; [exact Hp|]. split; [exact Hn|]. split; [exact Hu|].
destruct (fc_rows_of_entries _ _ _ _ _ _ _ _ F2) as (R1 & R2).
assert (Lpl : List.length pl = ForcedChoice.N_TOTAL_TRIALS).
{ rewrite <- (Permutation_length Ppl), !length_app, !length_map.
  destruct Hp as [_ ->], Hn as [_ ->], Hu as [_ ->]. reflexivity. }
simpl skipn in R1. rewrite firstn_all2 in R1 by lia.
split; [|split].
- eapply perm_trans; [exact Ppl|]. rewrite <- R1.
  apply Permutation_map. exact Pt.
- change (seq 1 ForcedChoice.N_TOTAL_TRIALS)
    with (seq (0 + 1) ForcedChoice.N_TOTAL_TRIALS).
  rewrite <- R2. apply Permutation_map, Permutation_sym. exact Pt.
- eapply Permutation_Forall; [exact Pt|].
  clear -F2. induction F2 as [|i ts is' tss (s1 & s2 & E) _ IH]; simpl;
    [constructor|].
  apply fc_trial_body_run in E
    as (entry & m1 & m2 & d & bf & _ & ? & ? & ? & ? & ->).
  constructor; [simpl; auto | exact IH].
Qed.

(** X18. A returned list has [N_TOTAL_TRIALS] trials, numbered 1 to
    [N_TOTAL_TRIALS] in some order, [N_POS_PRIMES] of them with a positive
    prime, [N_NEG_PRIMES] with a negative and [N_NEU_PRIMES] with a neutral
    one. *)
Theorem forced_choice_list_shape (fuel : nat) (fs : filesystem)
  (base_dir : string) (s : rng) (trials : list ForcedChoice.trial) (s' : rng) :
  ForcedChoice.generate_trial_list fuel fs base_dir s = Ok (trials, s') ->
  List.length trials = ForcedChoice.N_TOTAL_TRIALS /\
  Permutation (map ForcedChoice.trial_i trials)
              (seq 1 ForcedChoice.N_TOTAL_TRIALS) /\
  count_if (has_valence "positive") trials = ForcedChoice.N_POS_PRIMES /\
  count_if (has_valence "negative") trials = ForcedChoice.N_NEG_PRIMES /\
  count_if (has_valence "neutral") trials = ForcedChoice.N_NEU_PRIMES.
Proof.
intros H. apply fc_entries in H
  as (pos & neg & neu & b & m & pc & nc & uc
      & _ & _ & [_ Lp] & [_ Ln] & [_ Lu] & Pe & Pi & _).
split; [|split; [exact Pi|]].
- rewrite <- (length_map ForcedChoice.trial_i), (Permutation_length Pi).
  apply length_seq.
- rewrite !count_valence_entries.
  rewrite <- !(count_if_perm _ _ _ Pe), !count_if_app, !count_valence_made.
  simpl. rewrite Lp, Ln, Lu. repeat split; lia.
Qed.

Lemma forced_choice_list_shape_witness :
  exists trials s',
    ForcedChoice.generate_trial_list 5 forced_choice_fs "exp" example_rng
      = Ok (trials, s') /\
    List.length trials = 10%nat /\
    count_if (has_valence "positive") trials = 4%nat.
Proof.
do 2 eexists. split; [vm_compute; reflexivity|]. split; [reflexivity|].
refine (proj1 (proj2 (proj2 (forced_choice_list_shape 5 forced_choice_fs "exp"
                                example_rng _ _ _)))).
vm_compute. reflexivity.
Defined.

(** X19. [main] cuts a returned list into a practice list of [N_PRACTICE_TRIALS]
    and a main list of [N_MAIN_TRIALS] trials that together are the whole
    list: no generated trial is dropped. *)
Theorem forced_choice_phases_partition (fuel : nat) (fs : filesystem)
  (base_dir : string) (s : rng) (trials : list ForcedChoice.trial) (s' : rng) :
  ForcedChoice.generate_trial_list fuel fs base_dir s = Ok (trials, s') ->
  (ForcedChoice.practice_list trials ++ ForcedChoice.main_list trials)%list
    = trials /\
  List.length (ForcedChoice.practice_list trials) = ForcedChoice.N_PRACTICE_TRIALS /\
  List.length (ForcedChoice.main_list trials) = ForcedChoice.N_MAIN_TRIALS.
Proof.
intros H. apply fc_entries in H
  as (pos & neg & neu & b & m & pc & nc & uc & _ & _ & _ & _ & _ & _ & Pi & _).
assert (L : List.length trials = 10%nat).
{ rewrite <- (length_map ForcedChoice.trial_i), (Permutation_length Pi).
  apply length_seq. }
change ((firstn 2 trials ++ skipn 2 (firstn 10 trials))%list = trials /\
        List.length (firstn 2 trials) = 2%nat /\
        List.length (skipn 2 (firstn 10 trials)) = 8%nat).
rewrite (firstn_all2 (n := 10) trials) by (rewrite L; apply Nat.le_refl).
split; [apply firstn_skipn|].
rewrite length_firstn, length_skipn, L. split; reflexivity.
Qed.

Lemma forced_choice_phases_partition_witness :
  exists trials s',
    ForcedChoice.generate_trial_list 5 forced_choice_fs "exp" example_rng
      = Ok (trials, s') /\
    (ForcedChoice.practice_list trials ++ ForcedChoice.main_list trials)%list
      = trials.
Proof.
do 2 eexists. split; [vm_compute; reflexivity|].
refine (proj1 (forced_choice_phases_partition 5 forced_choice_fs "exp"
                 example_rng _ _ _)).
vm_compute. reflexivity.
Defined.

Lemma in_made (v : string) (l : list string) (e : ForcedChoice.prime) :
  In e (map (fun f => ForcedChoice.mkPrime f v
                        (ForcedChoice.get_word_from_filename f)) l) ->
  ForcedChoice.valence e = v /\ In (ForcedChoice.file e) l /\
  ForcedChoice.word e = ForcedChoice.get_word_from_filename (ForcedChoice.file e).
Proof.
intros H. apply in_map_iff in H as (f & <- & Hf). simpl. auto.
Qed.

(** X20. Every trial of a returned list is made from the folders: the prime
    file is a usable file of the folder [run_trial] will load it from, the
    correct word is the word of that file, the distractor is a word of the
    master list, and the babbling and mask files are usable files of their
    folders. *)
Theorem forced_choice_trials_come_from_folders (fuel : nat) (fs : filesystem)
  (base_dir : string) (s : rng) (trials : list ForcedChoice.trial) (s' : rng) :
  ForcedChoice.generate_trial_list fuel fs base_dir s = Ok (trials, s') ->
  exists pos neg neu b m,
    fc_folders fs base_dir pos neg neu b m /\
    fc_folders_accepted pos neg neu b m /\
    Forall (fc_trial_from fs base_dir pos neg neu b m) trials.
Proof.
intros H. apply fc_entries in H
  as (pos & neg & neu & b & m & pc & nc & uc
      & F & A & [Fp _] & [Fn _] & [Fu _] & Pe & _ & Fo).
exists pos, neg, neu, b, m. split; [exact F|]. split; [exact A|].
rewrite Forall_forall in *. intros t Ht.
destruct (Fo t Ht) as (Hd & Hb & Hm1 & Hm2).
assert (He : In (entry_of t)
               (map (fun f => ForcedChoice.mkPrime f "positive"
                                (ForcedChoice.get_word_from_filename f)) pc
                ++ map (fun f => ForcedChoice.mkPrime f "negative"
                                   (ForcedChoice.get_word_from_filename f)) nc
                ++ map (fun f => ForcedChoice.mkPrime f "neutral"
                                   (ForcedChoice.get_word_from_filename f)) uc)).
{ eapply Permutation_in; [apply Permutation_sym; exact Pe|].
  apply in_map. exact Ht. }
destruct F as (E1 & E2 & E3 & _ & _).
unfold fc_trial_from.
apply in_app_or in He as [He|He]; [|apply in_app_or in He as [He|He]];
  apply in_made in He as (Hv & Hf & Hw); simpl in Hv, Hf, Hw;
  rewrite Hv; (split; [|auto]).
- exists pos. split; [exact E1 | auto].
- exists neg. split; [exact E2 | auto].
- exists neu. split; [exact E3 | auto].
Qed.

Lemma forced_choice_trials_come_from_folders_witness :
  exists trials s' pos neg neu b m,
    ForcedChoice.generate_trial_list 5 forced_choice_fs "exp" example_rng
      = Ok (trials, s') /\
    Forall (fc_trial_from forced_choice_fs "exp" pos neg neu b m) trials.
Proof.
destruct (forced_choice_trials_come_from_folders 5 forced_choice_fs "exp"
            example_rng
            (match ForcedChoice.generate_trial_list 5 forced_choice_fs "exp"
                     example_rng with
             | Ok (t, _) => t
             | _ => []
             end)
            (match ForcedChoice.generate_trial_list 5 forced_choice_fs "exp"
                     example_rng with
             | Ok (_, r) => r
             | _ => example_rng
             end))
  as (pos & neg & neu & b & m & _ & _ & F).
- vm_compute. reflexivity.
- do 2 eexists. exists pos, neg, neu, b, m. split; [vm_compute; reflexivity|].
  exact F.
Defined.

(** ** forced_choice.py: how a run ends *)

Lemma returns_never_raises {A : Type} (m : M A) : returns m -> never_raises m.
Proof. intros H s. destruct (H s) as (a & s' & ->). exact I. Qed.

Lemma nr_bind {A B : Type} (m : M A) (k : A -> M B) :
  never_raises m ->
  (forall a s s', m s = Ok (a, s') -> never_raises (k a)) ->
  never_raises (bind m k).
Proof.
intros Hm Hk s. specialize (Hm s). unfold bind.
destruct (m s) as [[a s1]|e|] eqn:E; [|contradiction|exact I].
exact (Hk a s s1 E s1).
Qed.

Lemma nr_ret {A : Type} (a : A) : never_raises (ret a).
Proof. intros s. exact I. Qed.

Lemma nr_choice {A : Type} (l : list A) : l <> [] -> never_raises (choice l).
Proof. intros H. apply returns_never_raises, returns_choice, H. Qed.

Lemma nr_choices {A : Type} (l : list A) (k : nat) :
  l <> [] -> never_raises (choices l k).
Proof.
intros H. induction k as [|k IH]; simpl; [apply nr_ret|].
apply nr_bind; [apply nr_choice, H|]. intros x _ _ _.
apply nr_bind; [exact IH|]. intros; apply nr_ret.
Qed.

Lemma nr_while_equal (redraw : M string) (fixed : string) (fuel : nat) :
  never_raises redraw ->
  forall var, never_raises (while_equal fuel fixed var redraw).
Proof.
intros Hr. induction fuel as [|k IH]; intros var; simpl;
  destruct (String.eqb var fixed).
- intros s. exact I.
- apply nr_ret.
- apply nr_bind; [exact Hr|]. intros; apply IH.
- apply nr_ret.
Qed.

Lemma nr_for_each {A S : Type} (body : S -> A -> M S) (xs : list A) :
  (forall acc x, In x xs -> never_raises (body acc x)) ->
  forall acc, never_raises (for_each xs body acc).
Proof.
induction xs as [|x xs IH]; intros Hb acc; simpl.
- apply nr_ret.
- apply nr_bind; [apply Hb; left; reflexivity|].
  intros acc' _ _ _. apply IH. intros; apply Hb; right; assumption.
Qed.

Lemma nr_for_append {A T : Type} (body : A -> M (list T)) (xs : list A)
  (lst : list T) :
  (forall x, In x xs -> never_raises (body x)) ->
  never_raises (for_append xs body lst).
Proof.
intros Hb. unfold for_append. apply nr_for_each.
intros acc x Hx. apply nr_bind; [apply Hb, Hx | intros; apply nr_ret].
Qed.

Lemma fc_trial_body_never_raises (fuel : nat) (pl : list ForcedChoice.prime)
  (words babbling masks : list string) (i : nat) :
  (i < List.length pl)%nat -> words <> [] -> babbling <> [] -> masks <> [] ->
  never_raises (ForcedChoice.trial_body fuel pl words babbling masks i).
Proof.
intros Hi Hw Hb Hm. unfold ForcedChoice.trial_body.
apply nr_bind; [apply nr_choice, Hm|]. intros m1 _ _ _.
apply nr_bind; [apply nr_choice, Hm|]. intros m2 _ _ _.
apply nr_bind; [apply nr_while_equal, nr_choice, Hm|]. intros m2' _ _ _.
destruct (nth_error pl i) as [entry|] eqn:E.
- apply nr_bind; [apply nr_choice, Hw|]. intros d _ _ _.
  apply nr_bind; [apply nr_while_equal, nr_choice, Hw|]. intros d' _ _ _.
  apply nr_bind; [apply nr_choice, Hb|]. intros; apply nr_ret.
- apply nth_error_None in E. lia.
Qed.

Lemma is_empty_true {A : Type} (l : list A) : is_empty l = true -> l = [].
Proof. destruct l; [reflexivity | discriminate]. Qed.

Lemma fc_folders_unique (fs : filesystem) (base_dir : string)
  (pos neg neu b m pos' neg' neu' b' m' : list string) :
  fc_folders fs base_dir pos neg neu b m ->
  fc_folders fs base_dir pos' neg' neu' b' m' ->
  pos' = pos /\ neg' = neg /\ neu' = neu /\ b' = b /\ m' = m.
Proof.
intros (E1 & E2 & E3 & E4 & E5) (F1 & F2 & F3 & F4 & F5).
rewrite E1 in F1. rewrite E2 in F2. rewrite E3 in F3. rewrite E4 in F4.
rewrite E5 in F5. inversion F1; inversion F2; inversion F3; inversion F4;
inversion F5. auto.
Qed.

Lemma five_listings_missing (fs : filesystem) (base_dir : string) (s : rng) :
  ~ (exists pos neg neu b m, fc_folders fs base_dir pos neg neu b m) ->
  try_except_FileNotFoundError
    (pos <- ForcedChoice.get_files_from_dir fs
              (path_join (path_join base_dir "primes") "positive") ;;
     neg <- ForcedChoice.get_files_from_dir fs
              (path_join (path_join base_dir "primes") "negative") ;;
     neu <- ForcedChoice.get_files_from_dir fs
              (path_join (path_join base_dir "primes") "neutrale") ;;
     b <- ForcedChoice.get_files_from_dir fs (path_join base_dir "babbling") ;;
     m <- ForcedChoice.get_files_from_dir fs (path_join base_dir "masks") ;;
     ret (pos, neg, neu, b, m))
    core_quit s
  = Raise SystemExit.
Proof.
intros N.
unfold try_except_FileNotFoundError, ForcedChoice.get_files_from_dir, listdir,
  bind.
destruct (fs (path_join (path_join base_dir "primes") "positive")) as [pos0|] eqn:E1;
  cbn [ret raise core_quit]; [|reflexivity].
destruct (fs (path_join (path_join base_dir "primes") "negative")) as [neg0|] eqn:E2;
  cbn [ret raise core_quit]; [|reflexivity].
destruct (fs (path_join (path_join base_dir "primes") "neutrale")) as [neu0|] eqn:E3;
  cbn [ret raise core_quit]; [|reflexivity].
destruct (fs (path_join base_dir "babbling")) as [b0|] eqn:E4;
  cbn [ret raise core_quit]; [|reflexivity].
destruct (fs (path_join base_dir "masks")) as [m0|] eqn:E5;
  cbn [ret raise core_quit]; [|reflexivity].
exfalso. apply N. exists pos0, neg0, neu0, b0, m0. unfold fc_folders. auto.
Qed.

(** The two ways a run can go: the folders are refused and the run quits,
    or they are accepted and the run raises nothing. *)
Lemma fc_generate_cases (fuel : nat) (fs : filesystem) (base_dir : string)
  (s : rng) :
  (~ fc_usable fs base_dir /\
   ForcedChoice.generate_trial_list fuel fs base_dir s = Raise SystemExit) \/
  (fc_usable fs base_dir /\
   forall e, ForcedChoice.generate_trial_list fuel fs base_dir s <> Raise e).
Proof.
destruct (fs (path_join (path_join base_dir "primes") "positive")) as [pos|] eqn:E1;
[destruct (fs (path_join (path_join base_dir "primes") "negative")) as [neg|] eqn:E2;
 [destruct (fs (path_join (path_join base_dir "primes") "neutrale")) as [neu|] eqn:E3;
  [destruct (fs (path_join base_dir "babbling")) as [b|] eqn:E4;
   [destruct (fs (path_join base_dir "masks")) as [m|] eqn:E5|]|]|]|].
2-6: left; assert (N : ~ exists pos neg neu b m,
                         fc_folders fs base_dir pos neg neu b m)
       by (intros (? & ? & ? & ? & ? & F1 & F2 & F3 & F4 & F5); congruence);
     (split; [intros (p1 & p2 & p3 & p4 & p5 & F & _); apply N; eauto 8|]);
     unfold ForcedChoice.generate_trial_list; apply bind_raise;
     apply five_listings_missing; exact N.
assert (F : fc_folders fs base_dir pos neg neu b m)
  by (unfold fc_folders; auto).
unfold ForcedChoice.generate_trial_list.
rewrite (bind_step _ _ _ _ _ (five_listings_run fs base_dir s _ _ _ _ _ F)).
cbv beta iota.
destruct (is_empty (usable_files pos) || is_empty (usable_files neg)
          || is_empty (usable_files neu) || is_empty (usable_files b)
          || is_empty (usable_files m)) eqn:G1.
{ left. split; [|reflexivity].
  intros (p1 & p2 & p3 & p4 & p5 & F' & A).
  destruct (fc_folders_unique _ _ _ _ _ _ _ _ _ _ _ _ F F')
    as (-> & -> & -> & -> & ->).
  destruct A as (A1 & A2 & A3 & A4 & A5 & _).
  repeat (apply orb_true_iff in G1 as [G1|G1]);
    apply is_empty_true in G1; contradiction. }
rewrite (bind_step _ _ s s tt) by reflexivity.
fold (master_words pos neg neu).
destruct (Nat.ltb (List.length (master_words pos neg neu)) 2) eqn:G2.
{ left. split; [|reflexivity].
  intros (p1 & p2 & p3 & p4 & p5 & F' & A).
  destruct (fc_folders_unique _ _ _ _ _ _ _ _ _ _ _ _ F F')
    as (-> & -> & -> & -> & ->).
  destruct A as (_ & _ & _ & _ & _ & A6).
  apply Nat.ltb_lt in G2. lia. }
rewrite (bind_step _ _ s s tt) by reflexivity.
apply Nat.ltb_ge in G2.
repeat (apply orb_false_iff in G1 as [G1 ?]).
repeat match goal with
       | H : is_empty _ = false |- _ => apply is_empty_false in H
       end.
right. split.
{ exists pos, neg, neu, b, m. split; [exact F|].
  unfold fc_folders_accepted. auto 10. }
assert (Hw : master_words pos neg neu <> []).
{ destruct (master_words pos neg neu); [simpl in G2; lia | discriminate]. }
match goal with
| |- forall e, ?run s <> Raise e =>
    assert (NR : never_raises run); [|intros e Ee; specialize (NR s);
                                      rewrite Ee in NR; exact NR]
end.
apply nr_bind; [apply nr_choices; assumption|]. intros pc s1 s2 Ep.
apply nr_bind; [apply nr_choices; assumption|]. intros nc s3 s4 En.
apply nr_bind; [apply nr_choices; assumption|]. intros uc s5 s6 Eu.
apply nr_bind; [apply returns_never_raises, returns_shuffle|].
intros pl s7 s8 Es.
apply nr_bind; [|intros gen _ _ _;
                 apply nr_bind; [apply returns_never_raises, returns_shuffle|];
                 intros; apply nr_ret].
apply nr_for_append. intros i Hi. apply in_seq in Hi.
apply fc_trial_body_never_raises; try assumption.
apply choices_ok in Ep as [_ Lp], En as [_ Ln], Eu as [_ Lu].
apply shuffle_ok in Es. rewrite <- (Permutation_length Es).
rewrite !length_app, !length_map, Lp, Ln, Lu.
unfold ForcedChoice.N_TOTAL_TRIALS, ForcedChoice.N_PRACTICE_TRIALS,
  ForcedChoice.N_MAIN_TRIALS, ForcedChoice.N_POS_PRIMES,
  ForcedChoice.N_NEG_PRIMES, ForcedChoice.N_NEU_PRIMES in *. lia.
Qed.

(** X21. When the five folders can be listed, a run of [generate_trial_list]
    ends in an exception exactly when a folder has no usable file or the
    prime files give fewer than two different words, and the exception is
    then the [SystemExit] of [core.quit()]: with accepted folders no draw is
    made from an empty list and [prime_list[i]] is never out of range. *)
Theorem forced_choice_raises_only_quit (fuel : nat) (fs : filesystem)
  (base_dir : string) (pos neg neu b m : list string) (s : rng) (e : exn) :
  fc_folders fs base_dir pos neg neu b m ->
  (ForcedChoice.generate_trial_list fuel fs base_dir s = Raise e <->
   e = SystemExit /\ ~ fc_folders_accepted pos neg neu b m).
Proof.
intros F.
destruct (fc_generate_cases fuel fs base_dir s) as [[N E]|[U E]]; split.
- intros H. rewrite E in H. inversion H. split; [reflexivity|].
  intros A. apply N. exists pos, neg, neu, b, m. auto.
- intros [-> _]. exact E.
- intros H. destruct (E e H).
- intros [_ N]. exfalso. apply N.
  destruct U as (p1 & p2 & p3 & p4 & p5 & F' & A).
  destruct (fc_folders_unique _ _ _ _ _ _ _ _ _ _ _ _ F F')
    as (-> & -> & -> & -> & ->).
  exact A.
Qed.

Lemma forced_choice_raises_only_quit_witness :
  ForcedChoice.generate_trial_list 5 hidden_only_fs "exp" example_rng
  = Raise SystemExit.
Proof.
apply (proj2 (forced_choice_raises_only_quit 5 hidden_only_fs "exp"
                ["glad_compressed.wav"; "rolig_compressed.wav"]
                [".DS_Store"]
                ["bord_compressed.wav"; "stol_compressed.wav";
                 "lampe_compressed.wav"]
                example_babbling example_masks example_rng SystemExit
                ltac:(repeat split; reflexivity))).
split; [reflexivity|].
intros (_ & A & _). apply A. reflexivity.
Defined.

(** X22. With a masks folder whose usable files are all the same file (one file,
    in a real folder) the loop that redraws the second mask never ends:
    whatever number of iterations is allowed, the run uses them up. *)
Theorem forced_choice_single_mask_never_returns (fuel : nat) (fs : filesystem)
  (base_dir : string) (pos neg neu b m : list string) (s : rng) :
  fc_folders fs base_dir pos neg neu b m ->
  fc_folders_accepted pos neg neu b m ->
  (forall x y, In x (usable_files m) -> In y (usable_files m) -> x = y) ->
  ForcedChoice.generate_trial_list fuel fs base_dir s = OutOfFuel.
Proof.
intros F A Hm.
destruct (fc_generate_cases fuel fs base_dir s) as [[N _]|[_ E]].
{ exfalso. apply N. exists pos, neg, neu, b, m. auto. }
destruct (ForcedChoice.generate_trial_list fuel fs base_dir s)
  as [[trials s']|e|] eqn:R; [|destruct (E e eq_refl)|reflexivity].
exfalso.
pose proof (fc_generate_ok _ _ _ _ _ _ R) as Sep.
destruct (fc_entries _ _ _ _ _ _ R)
  as (p1 & p2 & p3 & p4 & p5 & pc & nc & uc
      & F' & _ & _ & _ & _ & _ & Pi & Fo).
destruct (fc_folders_unique _ _ _ _ _ _ _ _ _ _ _ _ F F')
  as (-> & -> & -> & -> & ->).
destruct trials as [|t trials];
  [apply Permutation_length in Pi; discriminate Pi|].
inversion Sep as [|? ? [_ Hne] _]; subst.
inversion Fo as [|? ? (_ & _ & H1 & H2) _]; subst.
apply Hne. apply Hm; assumption.
Qed.

Lemma forced_choice_single_mask_never_returns_witness :
  ForcedChoice.generate_trial_list 7 single_mask_fs "exp" example_rng
  = OutOfFuel.
Proof.
apply (forced_choice_single_mask_never_returns 7 single_mask_fs "exp"
         ["glad_compressed.wav"; "rolig_compressed.wav"]
         ["bange_compressed.wav"; "vred_compressed.wav"]
         ["bord_compressed.wav"; "stol_compressed.wav"; "lampe_compressed.wav"]
         example_babbling [".DS_Store"; "mask_1.wav"] example_rng).
- repeat split; reflexivity.
- repeat split; try (vm_compute; discriminate). vm_compute. lia.
- vm_compute. intros x y [<-|[]] [<-|[]]. reflexivity.
Defined.

(** * Properties of the response handling *)

(** ** d-prime_detection.py *)

Lemma main_loop_step (respond : nat -> option string) (n : nat)
  (t : DPrimeDetection.trial) (trials : list DPrimeDetection.trial) :
  key_is (respond n) DetectionSession.QUIT_KEY = false ->
  DetectionSession.main_loop respond n (t :: trials)
  = (DetectionSession.AddData (fst (DetectionSession.run_trial t (respond n)))
       :: DetectionSession.NextEntry
       :: (if existsb (Nat.eqb n) DetectionSession.MAIN_TRIAL_BREAK_POINTS
           then [DetectionSession.BreakMessage (n + 1)
                   DetectionSession.N_MAIN_TRIALS]
           else [])
       ++ fst (DetectionSession.main_loop respond (S n) trials),
     snd (DetectionSession.main_loop respond (S n) trials)).
Proof.
intros Q. cbn [DetectionSession.main_loop DetectionSession.run_trial].
rewrite Q. cbn [key_is].
destruct (DetectionSession.main_loop respond (S n) trials) as [later q].
reflexivity.
Qed.


Lemma break_messages_step (r : DetectionSession.data_row) (b : bool) (x y : nat)
  (later : list DetectionSession.event) :
  break_messages (DetectionSession.AddData r :: DetectionSession.NextEntry
        :: (if b then [DetectionSession.BreakMessage x y] else []) ++ later)
  = ((if b then [(x, y)] else []) ++ break_messages later)%list.
Proof. destruct b; reflexivity. Qed.






Lemma main_loop_breaks (respond : nat -> option string) :
  (forall n, respond n <> Some DetectionSession.QUIT_KEY) ->
  forall trials n,
    break_messages (fst (DetectionSession.main_loop respond n trials))
    = map (fun k => (k + 1, DetectionSession.N_MAIN_TRIALS)%nat)
        (filter (fun k => existsb (Nat.eqb k)
                            DetectionSession.MAIN_TRIAL_BREAK_POINTS)
                (seq n (List.length trials))).
Proof.
intros Hr. induction trials as [|t trials IH]; intros n.
- reflexivity.
- assert (Q : key_is (respond n) DetectionSession.QUIT_KEY = false).
  { destruct (key_is (respond n) DetectionSession.QUIT_KEY) eqn:K;
      [|reflexivity].
    exfalso. apply (Hr n). destruct (respond n) as [k|]; [|discriminate].
    simpl in K. apply String.eqb_eq in K. congruence. }
  rewrite (main_loop_step _ _ _ _ Q). cbn [fst].
  rewrite break_messages_step, IH. cbn [List.length seq filter].
  destruct (existsb (Nat.eqb n) DetectionSession.MAIN_TRIAL_BREAK_POINTS);
    reflexivity.
Qed.

(** X24. In a main session of the detection experiment that is not quit the
    break message is shown three times, after trials 30, 60 and 90 of 98:
    the break points 119 and 149 lie beyond the end of the list. *)
Theorem detection_breaks_shown (fs : filesystem) (base_dir : string)
  (s : rng) (practice main : list DPrimeDetection.trial) (s' : rng)
  (respond : nat -> option string) :
  DPrimeDetection.generate_trial_lists fs base_dir s = Ok ((practice, main), s') ->
  (forall n, respond n <> Some DetectionSession.QUIT_KEY) ->
  break_messages (fst (DetectionSession.main_loop respond 0 main))
  = [(30, 98); (60, 98); (90, 98)]%nat.
Proof.
intros H Hr. rewrite (main_loop_breaks respond Hr).
destruct (detection_counts _ _ _ _ _ _ H) as (_ & _ & ->). reflexivity.
Qed.

Lemma detection_breaks_shown_witness :
  exists practice main s',
    DPrimeDetection.generate_trial_lists detection_fs "exp" example_rng
      = Ok ((practice, main), s') /\
    break_messages (fst (DetectionSession.main_loop (fun _ => Some "m") 0 main))
    = [(30, 98); (60, 98); (90, 98)]%nat.
Proof.
do 3 eexists. split; [vm_compute; reflexivity|].
eapply (detection_breaks_shown detection_fs "exp" example_rng _ _ _
         (fun _ => Some "m")).
- vm_compute. reflexivity.
- intros n. discriminate.
Defined.

(** ** forced_choice.py *)

(** X25. For a trial of a generated list and a choice key, whatever the side
    the words are put on: the response is scored as accurate exactly when
    the word on the side of the key is the correct word. *)
Theorem forced_choice_accuracy_sound (fuel : nat) (fs : filesystem)
  (base_dir : string) (s : rng) (trials : list ForcedChoice.trial) (s' : rng)
  (t : ForcedChoice.trial) (random_random : Q) (key : string) :
  ForcedChoice.generate_trial_list fuel fs base_dir s = Ok (trials, s') ->
  In t trials ->
  In key ForcedChoiceSession.CHOICE_KEYS ->
  let row := fst (ForcedChoiceSession.run_trial t random_random (Some key)) in
  (ForcedChoiceSession.accuracy row = 1%Z <->
   chosen_word row key = ForcedChoice.correct_word t) /\
  (ForcedChoiceSession.accuracy row = 0%Z <->
   chosen_word row key = ForcedChoice.distractor_word t).
Proof.
intros H Ht Hk row.
pose proof (fc_generate_ok _ _ _ _ _ _ H) as Sep.
rewrite Forall_forall in Sep. destruct (Sep t Ht) as [Hd _].
unfold row, ForcedChoiceSession.run_trial, chosen_word.
destruct (Qlt_bool (1 # 2) random_random); simpl;
  destruct Hk as [<- | [<- | []]]; simpl; repeat split;
  try reflexivity; try discriminate; intros E; congruence.
Qed.

Lemma forced_choice_accuracy_sound_witness :
  exists trials s' t,
    ForcedChoice.generate_trial_list 5 forced_choice_fs "exp" example_rng
      = Ok (trials, s') /\
    In t trials /\
    (ForcedChoiceSession.accuracy
       (fst (ForcedChoiceSession.run_trial t (3 # 4) (Some "left"))) = 1%Z <->
     chosen_word (fst (ForcedChoiceSession.run_trial t (3 # 4) (Some "left")))
                 "left"
     = ForcedChoice.correct_word t).
Proof.
do 3 eexists. split; [vm_compute; reflexivity|]. split; [left; reflexivity|].
refine (proj1 (forced_choice_accuracy_sound 5 forced_choice_fs "exp"
                 example_rng _ _ _ (3 # 4) "left" _ _ _)).
- vm_compute. reflexivity.
- left. reflexivity.
- left. reflexivity.
Defined.

(** ** main_typing_experiment.py *)

Lemma str_eqb_eq (a b : TypingSession.str) :
  TypingSession.str_eqb a b = true <-> a = b.
Proof.
unfold TypingSession.str_eqb.
destruct (list_eq_dec N.eq_dec a b); split; auto; discriminate.
Qed.

Lemma char_key_plain (c : N) (name : string) :
  (2 <= String.length name)%nat ->
  TypingSession.str_eqb [c] (TypingSession.literal name) = false.
Proof.
intros L. destruct (TypingSession.str_eqb [c] (TypingSession.literal name)) eqn:E;
  [|reflexivity].
apply str_eqb_eq in E. apply (f_equal (@List.length N)) in E.
unfold TypingSession.literal in E. rewrite length_map in E.
destruct name as [|a [|b r]]; simpl in *; try lia; discriminate.
Qed.

Lemma typing_char_key (typed : TypingSession.str) (c : N)
  (later : list TypingSession.str) :
  TypingSession.typing_loop typed ([c] :: later)
  = TypingSession.typing_loop (typed ++ [c])%list later.
Proof.
cbn [TypingSession.typing_loop].
unfold TypingSession.QUIT_KEY, TypingSession.SUBMIT_KEY.
rewrite !char_key_plain by (simpl; lia). reflexivity.
Qed.

Lemma typing_space_key (typed : TypingSession.str)
  (later : list TypingSession.str) :
  TypingSession.typing_loop typed (TypingSession.literal "space" :: later)
  = TypingSession.typing_loop (typed ++ [32%N])%list later.
Proof. reflexivity. Qed.

(** X26. A key whose name is one character (of any alphabet), or the space
    bar, followed by backspace leaves the typing loop where it was. *)
Theorem typing_backspace_undoes_key (typed_string key : TypingSession.str)
  (later : list TypingSession.str) :
  List.length key = 1%nat \/ key = TypingSession.literal "space" ->
  TypingSession.typing_loop typed_string
    (key :: TypingSession.literal "backspace" :: later)
  = TypingSession.typing_loop typed_string later.
Proof.
intros [L | ->].
- destruct key as [|c [|? ?]]; try discriminate L.
  rewrite typing_char_key.
  change (TypingSession.typing_loop (typed_string ++ [c])%list
            (TypingSession.literal "backspace" :: later))
    with (TypingSession.typing_loop (removelast (typed_string ++ [c])%list) later).
  rewrite removelast_last. reflexivity.
- rewrite typing_space_key.
  change (TypingSession.typing_loop (typed_string ++ [32%N])%list
            (TypingSession.literal "backspace" :: later))
    with (TypingSession.typing_loop (removelast (typed_string ++ [32%N])%list) later).
  rewrite removelast_last. reflexivity.
Qed.

Lemma typing_backspace_undoes_key_witness :
  TypingSession.typing_loop (TypingSession.literal "bl")
    [[230%N]; TypingSession.literal "backspace"; [248%N];
     TypingSession.literal "return"]
  = TypingSession.typing_loop (TypingSession.literal "bl")
      [[248%N]; TypingSession.literal "return"].
Proof.
apply (typing_backspace_undoes_key (TypingSession.literal "bl") [230%N]
         [[248%N]; TypingSession.literal "return"]).
left. reflexivity.
Defined.

Lemma typing_loop_keys (word : TypingSession.str) :
  forall typed_string later,
    TypingSession.typing_loop typed_string (keys_of word ++ later)%list
    = TypingSession.typing_loop (typed_string ++ word)%list later.
Proof.
unfold keys_of. induction word as [|c word IH]; intros typed later.
- simpl. rewrite app_nil_r. reflexivity.
- cbn [map app].
  replace (typed ++ c :: word)%list with ((typed ++ [c]) ++ word)%list
    by (rewrite <- app_assoc; reflexivity).
  rewrite <- IH.
  destruct (N.eqb_spec c 32) as [->|_].
  + apply typing_space_key.
  + apply typing_char_key.
Qed.

(** X27. Typing the characters of a word, of any alphabet, and then return
    submits that word, whatever is pressed afterwards. *)
Theorem typing_submits_typed_word (word : TypingSession.str)
  (later : list TypingSession.str) :
  TypingSession.typing_loop []
    (keys_of word ++ TypingSession.SUBMIT_KEY :: later)%list
  = TypingSession.Submitted word.
Proof. rewrite typing_loop_keys. reflexivity. Qed.

(** ** gemini_code_v1.py *)

(** X28. Within the [N_TRIALS_PER_BLOCK * N_BLOCKS] trials planned, the block
    and trial numbers logged for index [i] give the index back, the trial
    number runs from 1 to [N_TRIALS_PER_BLOCK], the block number from 1 to
    [N_BLOCKS], and the break message is shown exactly before the first
    trial of every block but the first, naming the block before as
    completed. *)
Theorem gemini_blocks (i : nat) :
  (i < GeminiSession.N_TRIALS_PER_BLOCK * GeminiSession.N_BLOCKS)%nat ->
  ((GeminiSession.current_block i - 1) * GeminiSession.N_TRIALS_PER_BLOCK
   + (GeminiSession.trial_in_block i - 1) = i)%nat /\
  (1 <= GeminiSession.trial_in_block i <= GeminiSession.N_TRIALS_PER_BLOCK)%nat /\
  (1 <= GeminiSession.current_block i <= GeminiSession.N_BLOCKS)%nat /\
  GeminiSession.block_break i
  = (if Nat.eqb (GeminiSession.trial_in_block i) 1
        && Nat.ltb 1 (GeminiSession.current_block i)
     then Some (GeminiSession.current_block i - 1)%nat else None).
Proof.
unfold GeminiSession.current_block, GeminiSession.trial_in_block,
  GeminiSession.block_break, GeminiSession.N_TRIALS_PER_BLOCK,
  GeminiSession.N_BLOCKS.
intros Hi.
pose proof (Nat.div_mod_eq i 70) as D.
pose proof (Nat.mod_upper_bound i 70 ltac:(lia)) as U.
set (q := (i / 70)%nat) in *. set (r := (i mod 70)%nat) in *.
split; [lia|]. split; [lia|]. split; [lia|].
cbn [existsb]. change (70 * 2)%nat with 140%nat.
destruct (Nat.eqb_spec i 70) as [E70|N70];
  destruct (Nat.eqb_spec i 140) as [E140|N140];
  destruct (Nat.eqb_spec (r + 1) 1) as [R|R];
  destruct (Nat.ltb_spec 1 (q + 1)) as [Q|Q];
  cbn [orb andb]; try reflexivity; try (f_equal; lia); exfalso; lia.
Qed.

Lemma gemini_blocks_witness :
  GeminiSession.block_break 140 = Some 2%nat.
Proof.
refine (eq_trans (proj2 (proj2 (proj2 (gemini_blocks 140 _)))) _).
- unfold GeminiSession.N_TRIALS_PER_BLOCK, GeminiSession.N_BLOCKS. lia.
- reflexivity.
Defined.

Lemma filter_nonempty_other (l : list string) (x : string) :
  NoDup l -> (2 <= List.length l)%nat ->
  filter (fun f => negb (String.eqb f x)) l <> [].
Proof.
intros N L. destruct l as [|a [|b l]]; simpl in L; try lia.
inversion N as [|? ? Na _]; subst.
simpl. destruct (String.eqb a x) eqn:Ea; simpl; [|discriminate].
destruct (String.eqb b x) eqn:Eb; simpl; [|discriminate].
apply String.eqb_eq in Ea, Eb. subst. exfalso. apply Na. left. reflexivity.
Qed.

(** X29. Once [load_stimuli] has accepted the masks folder, the two mask draws
    of every trial succeed: they return two different .mp3 files of the
    folder, and the list the second is drawn from is never empty. *)
Theorem gemini_mask_draws_safe (fs : filesystem) (mask_dir : string)
  (listing mask_files : list string) (s s' : rng) :
  fs mask_dir = Some listing -> NoDup listing ->
  Gemini.load_mask_files fs mask_dir s = Ok (mask_files, s') ->
  forall s1, exists m1 m2 s2,
    Gemini.run_trial_masks mask_files s1 = Ok ((m1, m2), s2) /\
    m1 <> m2 /\
    (In m1 listing /\ endswith m1 ".mp3" = true) /\
    (In m2 listing /\ endswith m2 ".mp3" = true).
Proof.
intros E N H s1. unfold Gemini.load_mask_files, listdir in H.
rewrite E in H. rewrite (bind_step _ _ s s listing) in H by reflexivity.
destruct (Nat.ltb _ 2) eqn:G; [discriminate|].
apply ret_ok in H as [Hmf _]. apply Nat.ltb_ge in G.
set (mf := filter (fun f => endswith f ".mp3") listing) in *.
assert (Hmf' : mask_files = mf) by (first [exact Hmf | symmetry; exact Hmf]).
clear Hmf. subst mask_files.
assert (Nm : NoDup mf) by (apply NoDup_filter; exact N).
assert (Hne : mf <> []) by (intros Z; rewrite Z in G; simpl in G; lia).
destruct (returns_choice mf Hne s1) as (m1 & t1 & E1).
destruct (returns_choice _ (filter_nonempty_other mf m1 Nm G) t1)
  as (m2 & t2 & E2).
exists m1, m2, t2. unfold Gemini.run_trial_masks.
rewrite (bind_step _ _ _ _ _ E1), (bind_step _ _ _ _ _ E2).
split; [reflexivity|].
apply choice_ok in E1, E2. apply filter_In in E2 as [E2 D].
apply negb_true_iff, String.eqb_neq in D.
apply filter_In in E1, E2. split; [congruence | split; assumption].
Qed.

Lemma gemini_mask_draws_safe_witness :
  exists m1 m2 s2,
    Gemini.run_trial_masks ["mask_a.mp3"; "mask_b.mp3"] example_rng
      = Ok ((m1, m2), s2) /\ m1 <> m2.
Proof.
destruct (gemini_mask_draws_safe
            (fun d => if String.eqb d "masks"
                      then Some ["mask_a.mp3"; "notes.txt"; "mask_b.mp3"]
                      else None)
            "masks" ["mask_a.mp3"; "notes.txt"; "mask_b.mp3"]
            ["mask_a.mp3"; "mask_b.mp3"] example_rng example_rng)
  with (s1 := example_rng) as (m1 & m2 & s2 & R & D & _).
- reflexivity.
- repeat constructor; simpl; intuition discriminate.
- vm_compute. reflexivity.
- exists m1, m2, s2. split; assumption.
Defined.
